(** * cdots RMM: rule evaluation, alert sink and workflow engine

    A shallow embedding of three services of the repository and the
    properties their specification states about them:

    - [Ingestion]  : src/backend/ingestion-service/src/index.ts
                     ([evaluateRules], [sendAlert], [getDefaultSuggestion]);
    - [Alerts]     : src/backend/alert-service/src/index.ts
                     (the POST /api/alerts handler);
    - [Automation] : src/backend/automation-service/src/index.ts
                     (the workflow handlers, [evaluateConditions],
                     [executeWorkflow], [doAction]).

    Further modules embed the code around them, in the same files:

    - [Engine]     : sequences of calls to the workflow handlers;
    - [AlertRules] : the POST /api/alert-rules handler;
    - [Ingest]     : the POST /api/ingest handler;
    - [Wire]       : what the alert service reads of what the ingestion
                     service posts;
    - [Reports]    : the queries of /api/top-talkers, /api/interface-report,
                     /api/interface-trend and /api/performance-report;
    - [Devices]    : the handlers of /api/devices and /api/devices/register;
    - [Patches]    : the handlers of /api/patches/approve and
                     /api/patch-status.

    Conventions of the embedding.

    - An [async] function is a computation over the world it can touch (the
      tables behind [pool], the requests sent through [axios]); it ends
      [Resolved] with a value or [Rejected], and keeps the writes made before
      a rejection (the handlers open no transaction).
    - [pool.query] and [axios.post] can reject for reasons outside the code
      (store or peer unreachable).  The world carries a schedule of such
      faults, one flag per call, consumed in call order; an exhausted schedule
      means no further fault.
    - JavaScript numbers are IEEE 754 binary64 values: [PrimFloat.float].
    - A request field that may be missing or [null] has type [js A].
    - A table is the list of its rows in insertion order; a SELECT with no
      ORDER BY returns the rows in that order.  A SERIAL column takes the next
      value of its sequence, which is taken not to have reached its end.
    - A field of a request body is typed by the column or the signature it
      feeds: an event type, a metric or an action type is a string, a workflow
      id an integer, a metric value a number, the parameters of an action and
      an event are objects.  The conditions of a workflow are any JSON value.
    - The driver sends the parameters of a query as text and the store reads
      each one by the type of its column: an INTEGER must fit 32 bits, a UUID
      must be written as one and is kept in the form the store prints, a
      JavaScript array is sent as an array literal (which a JSONB column reads
      only when it is empty, as the empty object), an object as its JSON
      text, a number or a boolean by [toString], a string as it is.  A TEXT
      column takes every string of the embedding.  How the store reads a
      string as a JSON text is a parameter, [jsonb_in], of the one handler
      that can send one.  See [int4], [uuid_in], [array_as_jsonb],
      [as_jsonb], [as_written].
    - Timestamp columns that only ever hold their default (created_at of
      workflows, alert_rules and alerts, executed_at) and console output are
      not part of the modelled state; no property below reads them. *)

From Stdlib Require Import ZArith List Bool Ascii PrimFloat Sorted Lia DecimalString.
From Corelib Require Import FloatOps FloatAxioms SpecFloat.
From stdpp Require Import gmap strings list.

Local Open Scope string_scope.
Local Open Scope list_scope.
Local Open Scope Z_scope.

(** ** Promises with state *)

Inductive outcome (A : Type) : Type :=
| Resolved (a : A)
| Rejected.
Arguments Resolved {A} a.
Arguments Rejected {A}.

Definition Async (W A : Type) : Type := W -> outcome A * W.

Definition ret {W A : Type} (a : A) : Async W A :=
  fun w => (Resolved a, w).

Definition bind {W A B : Type} (m : Async W A) (k : A -> Async W B) : Async W B :=
  fun w =>
    match m w with
    | (Resolved a, w') => k a w'
    | (Rejected, w') => (Rejected, w')
    end.

(** [try { body } catch (err) { handler }]: the handler runs in the world the
    body left behind. *)
Definition try_catch {W A : Type} (body handler : Async W A) : Async W A :=
  fun w =>
    match body w with
    | (Resolved a, w') => (Resolved a, w')
    | (Rejected, w') => handler w'
    end.

Notation "'await' x <- m 'in' k" := (bind m (fun x => k))
  (at level 10, x name, m at level 100, k at level 200).

(** One call against a faulty resource: the head of the schedule says whether
    this call rejects. *)
Definition next_fault (schedule : list bool) : bool * list bool :=
  match schedule with
  | [] => (false, [])
  | fault :: rest => (fault, rest)
  end.

(** ** JavaScript values of request bodies *)

Inductive js (A : Type) : Type :=
| undefined
| null
| val (a : A).
Arguments undefined {A}.
Arguments null {A}.
Arguments val {A} a.

(** [x ?? null], as the value of a nullable column. *)
Definition or_null {A : Type} (x : js A) : option A :=
  match x with
  | val a => Some a
  | _ => None
  end.

(** [x === undefined] *)
Definition is_undefined {A : Type} (x : js A) : bool :=
  match x with
  | undefined => true
  | _ => false
  end.

(** The string in a field that passed a truthiness check. *)
Definition text_of (x : js string) : string :=
  match x with
  | val s => s
  | _ => ""
  end.

(** Truthiness, by type: a string is falsy when empty, a number when zero. *)
Definition truthy_string (x : js string) : bool :=
  match x with
  | val s => negb (String.eqb s "")
  | _ => false
  end.

Definition truthy_int (x : js Z) : bool :=
  match x with
  | val n => negb (Z.eqb n 0)
  | _ => false
  end.

Definition truthy_bool (x : js bool) : bool :=
  match x with
  | val b => b
  | _ => false
  end.

(** [Array.isArray(x)] and the elements of [x]. *)
Definition isArray {A : Type} (x : js (list A)) : bool :=
  match x with
  | val _ => true
  | _ => false
  end.

Definition elements {A : Type} (x : js (list A)) : list A :=
  match x with
  | val items => items
  | _ => []
  end.

#[local] Set Warnings "-register-all".

(** Opaque JSON documents (workflow conditions, extra fields of a payload). *)
Inductive json : Type :=
| JNull
| JBool (b : bool)
| JNum (x : float)
| JStr (s : string)
| JArr (items : list json)
| JObj (fields : list (string * json)).

(** ** What the store reads from a parameter *)

(** A parameter the type of its column cannot read makes the query fail
    before a row is written and before a sequence is advanced. *)

(** INTEGER: 32 bits. *)
Definition int4 (n : Z) : bool :=
  (-2147483648 <=? n) && (n <=? 2147483647).

Definition int4_or_null (n : option Z) : bool :=
  match n with
  | Some k => int4 k
  | None => true
  end.

(** DOUBLE PRECISION: a number arrives as [toString] writes it, and both
    zeros are written [0]. *)
Definition as_written (x : float) : float :=
  if PrimFloat.eqb x 0%float then 0%float else x.

(** JSONB, from a JavaScript array: the driver writes the array literal
    [{...}]; for the empty array that is [{}], which reads as the empty
    object, and with an element or more it is no JSON text. *)
Definition array_as_jsonb {A : Type} (items : list A) : option json :=
  match items with
  | [] => Some (JObj [])
  | _ :: _ => None
  end.

(** JSONB, from any value of a request body, [None] being [null]: [null] is
    stored as NULL, an object as the document it is, an array as above, a
    number or a boolean as [toString] writes it, and a string is itself the
    text the store reads, with its reader [jsonb_in].  The result is what the
    column takes, if the store reads the parameter at all. *)
Definition as_jsonb (jsonb_in : string -> option json) (value : option json)
    : option (option json) :=
  match value with
  | None | Some JNull => Some None
  | Some (JBool b) => Some (Some (JBool b))
  | Some (JNum x) =>
      if PrimFloat.is_finite x then Some (Some (JNum (as_written x))) else None
  | Some (JStr s) => option_map Some (jsonb_in s)
  | Some (JArr items) => option_map Some (array_as_jsonb items)
  | Some (JObj fields) => Some (Some (JObj fields))
  end.

(** UUID, as PostgreSQL reads one: sixteen bytes of two hexadecimal digits
    each, in either case, with an optional hyphen after any group of four
    digits and optional braces around the whole.  The result is the form the
    store prints: lower case, hyphens after 8, 12, 16 and 20 digits. *)
Definition hex_digit (c : ascii) : option ascii :=
  let n := nat_of_ascii c in
  if (48 <=? n)%nat && (n <=? 57)%nat then Some c
  else if (97 <=? n)%nat && (n <=? 102)%nat then Some c
  else if (65 <=? n)%nat && (n <=? 70)%nat then Some (ascii_of_nat (n + 32))
  else None.

(** [count] bytes still to read, the next one being byte number [i]. *)
Fixpoint uuid_bytes (count i : nat) (src : list ascii) : option (list ascii * list ascii) :=
  match count with
  | O => Some ([], src)
  | S count' =>
      match src with
      | c1 :: c2 :: rest =>
          match hex_digit c1, hex_digit c2 with
          | Some d1, Some d2 =>
              let rest' :=
                match rest with
                | "-"%char :: more => if Nat.odd i && (i <? 15)%nat then more else rest
                | _ => rest
                end in
              match uuid_bytes count' (S i) rest' with
              | Some (digits, tail) => Some (d1 :: d2 :: digits, tail)
              | None => None
              end
          | _, _ => None
          end
      | _ => None
      end
  end.

Definition hyphenated (digits : list ascii) : string :=
  String.string_of_list_ascii
    (firstn 8 digits ++ "-"%char :: firstn 4 (skipn 8 digits) ++
     "-"%char :: firstn 4 (skipn 12 digits) ++
     "-"%char :: firstn 4 (skipn 16 digits) ++
     "-"%char :: skipn 20 digits).

Definition uuid_in (text : string) : option string :=
  let src := String.list_ascii_of_string text in
  let braces := match src with "{"%char :: _ => true | _ => false end in
  let src := if braces then skipn 1 src else src in
  match uuid_bytes 16 0 src with
  | Some (digits, tail) =>
      let tail := if braces
                  then match tail with
                       | "}"%char :: more => Some more
                       | _ => None
                       end
                  else Some tail in
      match tail with
      | Some [] => Some (hyphenated digits)
      | _ => None
      end
  | None => None
  end.

(** ** Ingestion service: rule evaluation *)

Module Ingestion.

(** A row of [alert_rules] as [evaluateRules] selects it. *)
Record AlertRule : Type := {
  id : Z;
  metric : string;
  threshold : float;
  comparison : string;
  suggestion : option string;
  description : option string
}.

(** The payload [evaluateRules] hands to [sendAlert]. *)
Record AlertIntent : Type := {
  device_id : string;
  alert_metric : string;
  value : float;
  alert_threshold : float;
  rule_id : Z;
  alert_suggestion : string;
  alert_description : string
}.

Record Request : Type := {
  url : string;
  body : AlertIntent;
  delivered : bool
}.

Record World : Type := {
  ALERT_SERVICE_URL : option string;
  alert_rules : list AlertRule;
  pool_faults : list bool;
  net_faults : list bool;
  requests : list Request
}.

(** [pool.query('SELECT id, metric, threshold, comparison, suggestion,
    description FROM alert_rules')] *)
Definition select_alert_rules : Async World (list AlertRule) :=
  fun w =>
    let (fault, rest) := next_fault (pool_faults w) in
    let w' := {| ALERT_SERVICE_URL := ALERT_SERVICE_URL w;
                 alert_rules := alert_rules w;
                 pool_faults := rest;
                 net_faults := net_faults w;
                 requests := requests w |} in
    if fault then (Rejected, w') else (Resolved (alert_rules w), w').

(** [axios.post(url, payload)]: the request is attempted, and rejects when the
    peer cannot be reached. *)
Definition axios_post (target : string) (payload : AlertIntent) : Async World unit :=
  fun w =>
    let (fault, rest) := next_fault (net_faults w) in
    let w' := {| ALERT_SERVICE_URL := ALERT_SERVICE_URL w;
                 alert_rules := alert_rules w;
                 pool_faults := pool_faults w;
                 net_faults := rest;
                 requests := requests w ++
                   [{| url := target; body := payload; delivered := negb fault |}] |} in
    if fault then (Rejected, w') else (Resolved tt, w').

Definition default_alert_url : string := "http://alert-service:3003/api/alerts".

Definition sendAlert (payload : AlertIntent) : Async World unit :=
  fun w =>
    let target :=
      match ALERT_SERVICE_URL w with
      | Some u => if String.eqb u "" then default_alert_url else u
      | None => default_alert_url
      end in
    try_catch (axios_post target payload) (ret tt) w.

Definition getDefaultSuggestion (metric : string) : string :=
  if String.eqb metric "cpu" then
    "Investigate high CPU usage by reviewing running processes and workloads."
  else if String.eqb metric "memory" then
    "Analyse memory consumption and optimise applications to reduce usage."
  else if String.eqb metric "disk" then
    "Check disk utilisation; free up space or expand storage as required."
  else if String.eqb metric "latency" then
    "Investigate network latency; verify connectivity and reduce load."
  else
    "Investigate the alert condition and take appropriate action.".

Section Evaluation.

(** [Number::toString] of the JavaScript runtime, used by the template
    literal of the default description. *)
Variable Number_toString : float -> string.

(** The body of the [for (const rule of rules)] loop, rule by rule.  A sample
    maps a metric name to a number or to [null] ([Some None]); a name that is
    not a key reads as [undefined]. *)
Fixpoint for_rules (deviceId : string) (metrics : gmap string (option float))
    (rules : list AlertRule) : Async World unit :=
  match rules with
  | [] => ret tt
  | rule :: rest =>
      match metrics !! metric rule with
      | None | Some None => for_rules deviceId metrics rest
      | Some (Some value) =>
          let breach := false in
          let breach :=
            if String.eqb (comparison rule) "gt" && PrimFloat.ltb (threshold rule) value
            then true else breach in
          let breach :=
            if String.eqb (comparison rule) "lt" && PrimFloat.ltb value (threshold rule)
            then true else breach in
          if breach then
            let suggestion :=
              match suggestion rule with
              | Some s => s
              | None => getDefaultSuggestion (metric rule)
              end in
            let description :=
              match description rule with
              | Some d => d
              | None =>
                  ("Metric " ++ metric rule ++ " " ++ comparison rule ++
                   " threshold " ++ Number_toString (threshold rule))%string
              end in
            await _ <- sendAlert {| device_id := deviceId;
                               alert_metric := metric rule;
                               value := value;
                               alert_threshold := threshold rule;
                               rule_id := id rule;
                               alert_suggestion := suggestion;
                               alert_description := description |}
            in for_rules deviceId metrics rest
          else for_rules deviceId metrics rest
      end
  end.

Definition evaluateRules (deviceId : string) (metrics : gmap string (option float))
    : Async World unit :=
  try_catch
    (await rules <- select_alert_rules in for_rules deviceId metrics rules)
    (ret tt).

End Evaluation.

(** *** Vocabulary of the statements *)

(** The first query still to be made is answered by the store. *)
Definition pool_answers (w : World) : Prop :=
  fst (next_fault (pool_faults w)) = false.

(** The per-metric default suggestions, as a lookup table. *)
Definition default_suggestions : gmap string string :=
  list_to_map
    [("cpu", "Investigate high CPU usage by reviewing running processes and workloads.");
     ("memory", "Analyse memory consumption and optimise applications to reduce usage.");
     ("disk", "Check disk utilisation; free up space or expand storage as required.");
     ("latency", "Investigate network latency; verify connectivity and reduce load.")].

Definition generic_suggestion : string :=
  "Investigate the alert condition and take appropriate action.".

(** The comparison of a rule holds for an observed value. *)
Definition comparison_holds (rule : AlertRule) (v : float) : Prop :=
  (comparison rule = "gt" /\ PrimFloat.ltb (threshold rule) v = true) \/
  (comparison rule = "lt" /\ PrimFloat.ltb v (threshold rule) = true).

(** The metric of the rule is present in the sample (neither [undefined] nor
    [null]) and breaches the rule. *)
Definition breached_by (metrics : gmap string (option float)) (rule : AlertRule) : Prop :=
  exists v, metrics !! metric rule = Some (Some v) /\ comparison_holds rule v.

(** The suggestion of an intent for [rule]: the rule's own, else the table's,
    else the generic one. *)
Definition resolved_suggestion (rule : AlertRule) : string :=
  match suggestion rule with
  | Some own => own
  | None =>
      match default_suggestions !! metric rule with
      | Some s => s
      | None => generic_suggestion
      end
  end.

Section Emission.

Variable Number_toString : float -> string.

(** The description of an intent for [rule]: the rule's own, else the
    synthesized sentence. *)
Definition resolved_description (rule : AlertRule) : string :=
  match description rule with
  | Some own => own
  | None =>
      ("Metric " ++ metric rule ++ " " ++ comparison rule ++ " threshold " ++
       Number_toString (threshold rule))%string
  end.

(** Intent [a] reports that value [v] of device [deviceId] breached [rule]. *)
Definition reports (deviceId : string) (rule : AlertRule) (v : float) (a : AlertIntent) : Prop :=
  device_id a = deviceId /\ alert_metric a = metric rule /\ value a = v /\
  alert_threshold a = threshold rule /\ rule_id a = id rule /\
  alert_suggestion a = resolved_suggestion rule /\
  alert_description a = resolved_description rule.

(** The intents a pass over the rules sends, in order: one for each breached
    rule, none for the others. *)
Inductive Emits (deviceId : string) (metrics : gmap string (option float))
    : list AlertRule -> list AlertIntent -> Prop :=
| Emits_nil : Emits deviceId metrics [] []
| Emits_skip rule rules intents :
    ~ breached_by metrics rule ->
    Emits deviceId metrics rules intents ->
    Emits deviceId metrics (rule :: rules) intents
| Emits_fire rule v a rules intents :
    metrics !! metric rule = Some (Some v) ->
    comparison_holds rule v ->
    reports deviceId rule v a ->
    Emits deviceId metrics rules intents ->
    Emits deviceId metrics (rule :: rules) (a :: intents).

End Emission.

(** The intents sent from world [w] on to world [w']. *)
Definition emitted (w w' : World) : list AlertIntent :=
  map body (drop (length (requests w)) (requests w')).

(** How many of the intents stem from the rule with the given id. *)
Definition alerts_of_rule (rid : Z) (intents : list AlertIntent) : nat :=
  length (List.filter (fun a => Z.eqb (rule_id a) rid) intents).

(** *** A sample scenario: two rules, one sample *)

Definition cpu_rule : AlertRule :=
  {| id := 1; metric := "cpu"; threshold := 85%float; comparison := "gt";
     suggestion := None; description := None |}.

Definition memory_rule : AlertRule :=
  {| id := 2; metric := "memory"; threshold := 0.5%float; comparison := "lt";
     suggestion := Some "Add memory"; description := Some "Free memory is low" |}.

Definition sample_metrics : gmap string (option float) :=
  <["cpu" := Some 92%float]> (<["disk" := None]> ∅).

Definition sample_world : World :=
  {| ALERT_SERVICE_URL := None;
     alert_rules := [cpu_rule; memory_rule];
     pool_faults := [];
     net_faults := [true];
     requests := [] |}.

(** A stand-in for the runtime's number printer, exact on the sample. *)
Definition sample_toString (x : float) : string :=
  if PrimFloat.eqb x 85%float then "85" else "0.5".

End Ingestion.

(** ** Alert service: persistence and notification fan-out *)

Module Alerts.

(** A row of [alert_rules]; the alerts table refers to its [id]. *)
Record AlertRuleRow : Type := {
  id : Z;
  rule_metric : string;
  rule_threshold : float;
  rule_comparison : string;
  channel : string;
  rule_suggestion : option string;
  rule_description : option string
}.

(** A row of [alerts]: device_id (a UUID, in the form the store prints),
    metric, value and threshold are NOT NULL, rule_id REFERENCES
    alert_rules(id). *)
Record AlertRow : Type := {
  alert_id : Z;
  alert_device_id : string;
  alert_metric : string;
  alert_value : float;
  alert_threshold : float;
  alert_rule_id : option Z;
  alert_suggestion : option string;
  alert_description : option string
}.

(** The body of POST /api/alerts, field by field as the handler reads it. *)
Record AlertIntent : Type := {
  device_id : js string;
  metric : js string;
  value : js float;
  threshold : js float;
  rule_id : js Z;
  suggestion : js string;
  description : js string
}.

(** JavaScript objects sent as request bodies: keys with scalar values. *)
Inductive scalar : Type :=
| Str (s : string)
| Num (x : float).

Definition object : Type := list (string * js scalar).


Definition js_map {A B : Type} (f : A -> B) (x : js A) : js B :=
  match x with
  | undefined => undefined
  | null => null
  | val a => val (f a)
  end.

Record Request : Type := {
  url : string;
  body : object;
  delivered : bool
}.

Inductive ResponseBody : Type :=
| error_body (error : string)
| status_body (status : string).

Record Response : Type := {
  status_code : Z;
  response_body : ResponseBody
}.

Record World : Type := {
  ITSM_WEBHOOK_URL : string;
  EMAIL_WEBHOOK_URL : string;
  SMS_WEBHOOK_URL : string;
  alert_rules : list AlertRuleRow;
  alerts : list AlertRow;
  alerts_id_seq : Z;
  pool_faults : list bool;
  net_faults : list bool;
  requests : list Request
}.

Definition with_store (alerts' : list AlertRow) (seq' : Z) (faults' : list bool)
    (w : World) : World :=
  {| ITSM_WEBHOOK_URL := ITSM_WEBHOOK_URL w;
     EMAIL_WEBHOOK_URL := EMAIL_WEBHOOK_URL w;
     SMS_WEBHOOK_URL := SMS_WEBHOOK_URL w;
     alert_rules := alert_rules w;
     alerts := alerts';
     alerts_id_seq := seq';
     pool_faults := faults';
     net_faults := net_faults w;
     requests := requests w |}.

Definition with_network (faults' : list bool) (requests' : list Request)
    (w : World) : World :=
  {| ITSM_WEBHOOK_URL := ITSM_WEBHOOK_URL w;
     EMAIL_WEBHOOK_URL := EMAIL_WEBHOOK_URL w;
     SMS_WEBHOOK_URL := SMS_WEBHOOK_URL w;
     alert_rules := alert_rules w;
     alerts := alerts w;
     alerts_id_seq := alerts_id_seq w;
     pool_faults := pool_faults w;
     net_faults := faults';
     requests := requests' |}.

(** [INSERT INTO alerts (device_id, metric, value, threshold, rule_id,
    suggestion, description) VALUES ($1, ..., $7)].  The store refuses a
    device_id that is no UUID and a rule_id that is no INTEGER; it rejects a
    [null] in a NOT NULL column and a rule_id that names no rule, and for
    these two the sequence of the table has moved on. *)
Definition insert_alert (device_id metric : string) (value threshold : js float)
    (rule_id : option Z) (suggestion description : option string) : Async World unit :=
  fun w =>
    let (fault, rest) := next_fault (pool_faults w) in
    if fault then (Rejected, with_store (alerts w) (alerts_id_seq w) rest w)
    else
      match uuid_in device_id with
      | Some device =>
          if int4_or_null rule_id then
            let references_rule :=
              match rule_id with
              | Some r => existsb (fun rule => Z.eqb (id rule) r) (alert_rules w)
              | None => true
              end in
            match value, threshold with
            | val v, val t =>
                if references_rule then
                  (Resolved tt,
                   with_store
                     (alerts w ++
                        [{| alert_id := alerts_id_seq w;
                            alert_device_id := device;
                            alert_metric := metric;
                            alert_value := as_written v;
                            alert_threshold := as_written t;
                            alert_rule_id := rule_id;
                            alert_suggestion := suggestion;
                            alert_description := description |}])
                     (alerts_id_seq w + 1) rest w)
                else (Rejected, with_store (alerts w) (alerts_id_seq w + 1) rest w)
            | _, _ => (Rejected, with_store (alerts w) (alerts_id_seq w + 1) rest w)
            end
          else (Rejected, with_store (alerts w) (alerts_id_seq w) rest w)
      | None => (Rejected, with_store (alerts w) (alerts_id_seq w) rest w)
      end.

(** [axios.post(url, body)] *)
Definition axios_post (target : string) (payload : object) : Async World unit :=
  fun w =>
    let (fault, rest) := next_fault (net_faults w) in
    let w' :=
      with_network rest
        (requests w ++ [{| url := target; body := payload; delivered := negb fault |}])
        w in
    if fault then (Rejected, w') else (Resolved tt, w').

(** The object literal posted to every webhook. *)
Definition webhook_body (req : AlertIntent) : object :=
  [("device_id", js_map Str (device_id req));
   ("metric", js_map Str (metric req));
   ("value", js_map Num (value req));
   ("threshold", js_map Num (threshold req));
   ("suggestion", js_map Str (suggestion req));
   ("description", js_map Str (description req))].

(** [if (URL) { try { await axios.post(URL, {...}) } catch (err) { ... } }] *)
Definition notify (target : string) (req : AlertIntent) : Async World unit :=
  if negb (String.eqb target "") then
    try_catch (axios_post target (webhook_body req)) (ret tt)
  else ret tt.

(** app.post('/api/alerts', ...) *)
Definition post_api_alerts (req : AlertIntent) : Async World Response :=
  fun w =>
    if negb (truthy_string (device_id req)) || negb (truthy_string (metric req))
       || is_undefined (value req) || is_undefined (threshold req)
    then
      (Resolved {| status_code := 400;
                   response_body :=
                     error_body "device_id, metric, value and threshold are required" |},
       w)
    else
      (* past the check, device_id and metric are non-empty strings *)
      try_catch
        (await _ <- insert_alert (text_of (device_id req)) (text_of (metric req))
                      (value req) (threshold req) (or_null (rule_id req))
                      (or_null (suggestion req)) (or_null (description req)) in
         await _ <- notify (EMAIL_WEBHOOK_URL w) req in
         await _ <- notify (SMS_WEBHOOK_URL w) req in
         await _ <- notify (ITSM_WEBHOOK_URL w) req in
         ret {| status_code := 202; response_body := status_body "alert_processed" |})
        (ret {| status_code := 500; response_body := error_body "internal_error" |})
        w.

(** *** Vocabulary of the statements *)

(** The body passes the handler's check of required fields. *)
Definition well_formed (req : AlertIntent) : Prop :=
  truthy_string (device_id req) = true /\ truthy_string (metric req) = true /\
  value req <> undefined /\ threshold req <> undefined.

(** The device id in the form the store prints it; a text that is no UUID
    stands for itself. *)
Definition printed (device : string) : string :=
  match uuid_in device with
  | Some u => u
  | None => device
  end.

(** The store takes the row of the intent: it answers the next query, the
    device id is a UUID, the NOT NULL columns are filled and the rule, when
    named, exists and its id is an INTEGER. *)
Definition persists (req : AlertIntent) (w : World) : Prop :=
  fst (next_fault (pool_faults w)) = false /\
  (exists device, uuid_in (text_of (device_id req)) = Some device) /\
  value req <> null /\ threshold req <> null /\
  match rule_id req with
  | val r => int4 r = true /\ exists rule, In rule (alert_rules w) /\ id rule = r
  | _ => True
  end.

(** The row written for an intent whose value and threshold are [v] and [t]. *)
Definition row_of (req : AlertIntent) (v t : float) (w : World) : AlertRow :=
  {| alert_id := alerts_id_seq w;
     alert_device_id := printed (text_of (device_id req));
     alert_metric := text_of (metric req);
     alert_value := as_written v;
     alert_threshold := as_written t;
     alert_rule_id := or_null (rule_id req);
     alert_suggestion := or_null (suggestion req);
     alert_description := or_null (description req) |}.

(** The channels that are configured, in the order the handler visits them. *)
Definition configured_channels (w : World) : list string :=
  List.filter (fun target => negb (String.eqb target ""))
    [EMAIL_WEBHOOK_URL w; SMS_WEBHOOK_URL w; ITSM_WEBHOOK_URL w].

(** The requests made from world [w] on to world [w']. *)
Definition dispatched (w w' : World) : list Request :=
  drop (length (requests w)) (requests w').

(** One attempt per target, in order; each is delivered unless the fault
    schedule says the peer is down at that moment. *)
Fixpoint attempts (targets : list string) (payload : object) (faults : list bool)
    : list Request :=
  match targets with
  | [] => []
  | target :: rest =>
      {| url := target; body := payload;
         delivered := negb (fst (next_fault faults)) |}
      :: attempts rest payload (snd (next_fault faults))
  end.


Definition accepted : Response :=
  {| status_code := 202; response_body := status_body "alert_processed" |}.


(** *** A sample scenario: every channel configured, email and ITSM down *)


Definition sample_world : World :=
  {| ITSM_WEBHOOK_URL := "http://itsm.example/tickets";
     EMAIL_WEBHOOK_URL := "http://mail.example/send";
     SMS_WEBHOOK_URL := "http://sms.example/send";
     alert_rules :=
       [{| id := 1; rule_metric := "cpu"; rule_threshold := 85%float;
           rule_comparison := "gt"; channel := "email";
           rule_suggestion := None; rule_description := None |}];
     alerts := [];
     alerts_id_seq := 1;
     pool_faults := [];
     net_faults := [true; false; true];
     requests := [] |}.

(** The same store with no webhook configured, as the service starts when
    the three environment variables are unset. *)
Definition quiet_world : World :=
  {| ITSM_WEBHOOK_URL := "";
     EMAIL_WEBHOOK_URL := "";
     SMS_WEBHOOK_URL := "";
     alert_rules := alert_rules sample_world;
     alerts := [];
     alerts_id_seq := 1;
     pool_faults := [];
     net_faults := [];
     requests := [] |}.

End Alerts.

(** ** Automation service: workflows, events and actions *)

Module Automation.

(** The parameters document of an action, as [doAction] reads it: the three
    fields it looks at, and whatever else the document holds. *)
Record Parameters : Type := {
  params_script : js string;
  params_service : js string;
  params_message : js string;
  params_rest : list (string * json)
}.

(** [{}] *)
Definition no_parameters : Parameters :=
  {| params_script := undefined; params_service := undefined;
     params_message := undefined; params_rest := [] |}.

(** An event: its type, the device it is about, and its other fields. *)
Record Event : Type := {
  event_type : js string;
  device_id : js string;
  event_rest : list (string * json)
}.

(** [{}] *)
Definition empty_event : Event :=
  {| event_type := undefined; device_id := undefined; event_rest := [] |}.

(** What [doAction] returns. *)
Record ActionResult : Type := {
  action : string;
  status : string;
  message : string
}.

(** Rows of the three tables.  [workflow_actions.workflow_id] and
    [workflow_logs.workflow_id] REFERENCE workflows(id). *)
Record WorkflowRow : Type := {
  id : Z;
  name : string;
  trigger_event_type : string;
  conditions : option json;
  test_mode : bool
}.

Record ActionRow : Type := {
  action_id : Z;
  workflow_id : option Z;
  action_type : string;
  parameters : option Parameters
}.

Record LogRow : Type := {
  log_id : Z;
  log_workflow_id : option Z;
  event_data : Event;
  result : json
}.

Record World : Type := {
  workflows : list WorkflowRow;
  workflow_actions : list ActionRow;
  workflow_logs : list LogRow;
  workflows_id_seq : Z;
  workflow_actions_id_seq : Z;
  workflow_logs_id_seq : Z;
  pool_faults : list bool
}.

Definition with_faults (faults' : list bool) (w : World) : World :=
  {| workflows := workflows w;
     workflow_actions := workflow_actions w;
     workflow_logs := workflow_logs w;
     workflows_id_seq := workflows_id_seq w;
     workflow_actions_id_seq := workflow_actions_id_seq w;
     workflow_logs_id_seq := workflow_logs_id_seq w;
     pool_faults := faults' |}.

Definition with_workflows (rows : list WorkflowRow) (seq' : Z) (w : World) : World :=
  {| workflows := rows;
     workflow_actions := workflow_actions w;
     workflow_logs := workflow_logs w;
     workflows_id_seq := seq';
     workflow_actions_id_seq := workflow_actions_id_seq w;
     workflow_logs_id_seq := workflow_logs_id_seq w;
     pool_faults := pool_faults w |}.

Definition with_actions (rows : list ActionRow) (seq' : Z) (w : World) : World :=
  {| workflows := workflows w;
     workflow_actions := rows;
     workflow_logs := workflow_logs w;
     workflows_id_seq := workflows_id_seq w;
     workflow_actions_id_seq := seq';
     workflow_logs_id_seq := workflow_logs_id_seq w;
     pool_faults := pool_faults w |}.

Definition with_logs (rows : list LogRow) (seq' : Z) (w : World) : World :=
  {| workflows := workflows w;
     workflow_actions := workflow_actions w;
     workflow_logs := rows;
     workflows_id_seq := workflows_id_seq w;
     workflow_actions_id_seq := workflow_actions_id_seq w;
     workflow_logs_id_seq := seq';
     pool_faults := pool_faults w |}.

(** [pool.query(...)]: rejects when the store cannot be reached, else runs the
    statement. *)
Definition pool_query {A : Type} (statement : Async World A) : Async World A :=
  fun w =>
    let (fault, rest) := next_fault (pool_faults w) in
    if fault then (Rejected, with_faults rest w) else statement (with_faults rest w).

Definition workflow_exists (workflowId : Z) (w : World) : bool :=
  existsb (fun wf => Z.eqb (id wf) workflowId) (workflows w).

(** [INSERT INTO workflows (name, event_type, conditions) VALUES ($1, $2, $3)
    RETURNING id]: conditions is a JSONB column, and [jsonb_in] is how the
    store reads a string sent for it. *)
Definition insert_workflow (jsonb_in : string -> option json)
    (name event_type : string) (conditions : option json) : Async World Z :=
  pool_query (fun w =>
    match as_jsonb jsonb_in conditions with
    | Some document =>
        (Resolved (workflows_id_seq w),
         with_workflows
           (workflows w ++
              [{| id := workflows_id_seq w; name := name;
                  trigger_event_type := event_type; conditions := document;
                  test_mode := false |}])
           (workflows_id_seq w + 1) w)
    | None => (Rejected, w)
    end).

(** [INSERT INTO workflow_actions (workflow_id, action_type, parameters)
    VALUES ($1, $2, $3)]: workflow_id is an INTEGER; action_type is NOT NULL,
    and the sequence moves on even when the row is refused for that or for
    its workflow. *)
Definition insert_action (workflowId : Z) (action_type : js string)
    (parameters : option Parameters) : Async World unit :=
  pool_query (fun w =>
    if int4 workflowId then
      match action_type with
      | val type =>
          if workflow_exists workflowId w then
            (Resolved tt,
             with_actions
               (workflow_actions w ++
                  [{| action_id := workflow_actions_id_seq w;
                      workflow_id := Some workflowId;
                      action_type := type;
                      parameters := parameters |}])
               (workflow_actions_id_seq w + 1) w)
          else
            (Rejected, with_actions (workflow_actions w) (workflow_actions_id_seq w + 1) w)
      | _ => (Rejected, with_actions (workflow_actions w) (workflow_actions_id_seq w + 1) w)
      end
    else (Rejected, w)).

(** [SELECT id, conditions FROM workflows WHERE event_type = $1] *)
Definition select_workflows (event_type : string) : Async World (list WorkflowRow) :=
  pool_query (fun w =>
    (Resolved (List.filter (fun wf => String.eqb (trigger_event_type wf) event_type)
                 (workflows w)),
     w)).

(** ORDER BY id ASC, by insertion into the sorted rest. *)
Fixpoint insert_by_id (row : ActionRow) (sorted : list ActionRow) : list ActionRow :=
  match sorted with
  | [] => [row]
  | next :: rest =>
      if Z.leb (action_id row) (action_id next) then row :: next :: rest
      else next :: insert_by_id row rest
  end.

Definition order_by_id (rows : list ActionRow) : list ActionRow :=
  fold_right insert_by_id [] rows.

Definition of_workflow (workflowId : Z) (row : ActionRow) : bool :=
  match workflow_id row with
  | Some owner => Z.eqb owner workflowId
  | None => false
  end.

(** [SELECT id, action_type, parameters FROM workflow_actions
    WHERE workflow_id = $1 ORDER BY id ASC]: the parameter is read as an
    INTEGER. *)
Definition select_actions (workflowId : Z) : Async World (list ActionRow) :=
  pool_query (fun w =>
    if int4 workflowId then
      (Resolved (order_by_id (List.filter (of_workflow workflowId) (workflow_actions w))),
       w)
    else (Rejected, w)).

(** [INSERT INTO workflow_logs (workflow_id, event_data, result)
    VALUES ($1, $2, $3)]: [results] is a JavaScript array, passed as it is
    for the JSONB column result; the event is an object. *)
Definition insert_log (workflowId : Z) (event : Event) (results : list ActionResult)
    : Async World unit :=
  pool_query (fun w =>
    match array_as_jsonb results with
    | Some document =>
        if int4 workflowId then
          if workflow_exists workflowId w then
            (Resolved tt,
             with_logs
               (workflow_logs w ++
                  [{| log_id := workflow_logs_id_seq w;
                      log_workflow_id := Some workflowId;
                      event_data := event;
                      result := document |}])
               (workflow_logs_id_seq w + 1) w)
          else (Rejected, with_logs (workflow_logs w) (workflow_logs_id_seq w + 1) w)
        else (Rejected, w)
    | None => (Rejected, w)
    end).

(** [x || fallback] on a string field. *)
Definition or_else (x : js string) (fallback : string) : string :=
  match x with
  | val s => if String.eqb s "" then fallback else s
  | _ => fallback
  end.

Definition evaluateConditions (_conditions : option json) (_event : Event) : bool :=
  true.

Definition doAction (action : ActionRow) (event : Event) (_testMode : bool)
    : Async World ActionResult :=
  let type := action_type action in
  let params :=
    match parameters action with
    | Some document => document
    | None => no_parameters
    end in
  if String.eqb type "run_script" then
    ret {| action := type; status := "success";
           message := ("script " ++ or_else (params_script params) "executed")%string |}
  else if String.eqb type "restart_service" then
    ret {| action := type; status := "success";
           message := ("service " ++ or_else (params_service params) "restarted")%string |}
  else if String.eqb type "isolate_device" then
    ret {| action := type; status := "success"; message := "device isolated" |}
  else if String.eqb type "notify" || String.eqb type "send_notification" then
    ret {| action := type; status := "success"; message := "notification sent" |}
  else if String.eqb type "create_ticket" then
    ret {| action := type; status := "success"; message := "ticket created" |}
  else
    ret {| action := type; status := "unknown"; message := "unknown action" |}.

(** [for (const action of actions) { results.push(await doAction(...)) }] *)
Fixpoint for_actions (actions : list ActionRow) (event : Event) (testMode : bool)
    (results : list ActionResult) : Async World (list ActionResult) :=
  match actions with
  | [] => ret results
  | action :: rest =>
      await result <- doAction action event testMode in
      for_actions rest event testMode (results ++ [result])
  end.

Definition executeWorkflow (workflowId : Z) (event : Event) (testMode : bool)
    : Async World (list ActionResult) :=
  await actions <- select_actions workflowId in
  await results <- for_actions actions event testMode [] in
  if negb testMode then
    await _ <- insert_log workflowId event results in
    ret results
  else ret results.

(** Responses of the handlers. *)
Inductive ResponseBody : Type :=
| error_body (error : string)
| created_body (new_workflow_id : Z) (test_result : option (list ActionResult))
| events_body (processed : nat) (results : list (Z * list ActionResult))
| test_body (outcomes : list ActionResult).

Record Response : Type := {
  status_code : Z;
  response_body : ResponseBody
}.

Definition internal_error : Response :=
  {| status_code := 500; response_body := error_body "internal_error" |}.

(** An element of the [actions] array of POST /api/workflows. *)
Record ActionSpec : Type := {
  spec_action_type : js string;
  spec_parameters : js Parameters
}.

Record WorkflowRequest : Type := {
  req_name : js string;
  req_event_type : js string;
  req_conditions : js json;
  req_actions : js (list ActionSpec);
  req_test : js bool;
  req_test_event : js Event
}.

(** [for (const action of actions) { await pool.query(INSERT ...) }] *)
Fixpoint for_new_actions (workflowId : Z) (actions : list ActionSpec) : Async World unit :=
  match actions with
  | [] => ret tt
  | action :: rest =>
      await _ <- insert_action workflowId (spec_action_type action)
                   (or_null (spec_parameters action)) in
      for_new_actions workflowId rest
  end.

(** app.post('/api/workflows', ...) *)
Definition post_api_workflows (jsonb_in : string -> option json) (req : WorkflowRequest)
    : Async World Response :=
  if negb (truthy_string (req_name req)) || negb (truthy_string (req_event_type req))
     || negb (isArray (req_actions req))
     || (length (elements (req_actions req)) =? 0)%nat
  then
    ret {| status_code := 400;
           response_body :=
             error_body "name, event_type and at least one action are required" |}
  else
    try_catch
      (await workflowId <- insert_workflow jsonb_in (text_of (req_name req))
                             (text_of (req_event_type req))
                             (or_null (req_conditions req)) in
       await _ <- for_new_actions workflowId (elements (req_actions req)) in
       if truthy_bool (req_test req) then
         let testEvent :=
           match req_test_event req with
           | val given => given
           | _ => {| event_type := req_event_type req; device_id := undefined;
                     event_rest := [("test", JBool true)] |}
           end in
         await testResult <- executeWorkflow workflowId testEvent true in
         ret {| status_code := 201;
                response_body := created_body workflowId (Some testResult) |}
       else
         ret {| status_code := 201; response_body := created_body workflowId None |})
      (ret internal_error).

(** The loop of POST /api/events over the selected workflows. *)
Fixpoint for_workflows (selected : list WorkflowRow) (event : Event)
    (results : list (Z * list ActionResult)) : Async World (list (Z * list ActionResult)) :=
  match selected with
  | [] => ret results
  | wf :: rest =>
      if evaluateConditions (conditions wf) event then
        await result <- executeWorkflow (id wf) event false in
        for_workflows rest event (results ++ [(id wf, result)])
      else for_workflows rest event results
  end.

(** app.post('/api/events', ...) *)
Definition post_api_events (event : Event) : Async World Response :=
  if negb (truthy_string (event_type event)) then
    ret {| status_code := 400; response_body := error_body "event_type is required" |}
  else
    try_catch
      (await selected <- select_workflows (text_of (event_type event)) in
       await results <- for_workflows selected event [] in
       ret {| status_code := 202;
              response_body := events_body (length results) results |})
      (ret internal_error).

Record TestRequest : Type := {
  test_workflow_id : js Z;
  test_event : js Event
}.

(** app.post('/api/workflows/test', ...) *)
Definition post_api_workflows_test (req : TestRequest) : Async World Response :=
  if negb (truthy_int (test_workflow_id req)) then
    ret {| status_code := 400; response_body := error_body "workflow_id is required" |}
  else
    try_catch
      (await result <- executeWorkflow
                         (match test_workflow_id req with val n => n | _ => 0 end)
                         (match test_event req with val given => given | _ => empty_event end)
                         true in
       ret {| status_code := 200; response_body := test_body result |})
      (ret internal_error).

(** *** Vocabulary of the statements *)

(** The store answers every query from now on. *)
Definition healthy (w : World) : Prop := pool_faults w = [].

(** What the key and foreign-key columns guarantee: ids are handed out by the
    sequences in increasing order, and an action belongs to a workflow that
    exists. *)
Definition consistent (w : World) : Prop :=
  StronglySorted Z.lt (map action_id (workflow_actions w)) /\
  StronglySorted Z.lt (map id (workflows w)) /\
  Forall (fun row => action_id row < workflow_actions_id_seq w) (workflow_actions w) /\
  Forall (fun wf => id wf < workflows_id_seq w) (workflows w) /\
  Forall (fun row => forall owner, workflow_id row = Some owner ->
                       workflow_exists owner w = true)
    (workflow_actions w).

(** The actions of a workflow in the order they were inserted. *)
Definition stored_actions (workflowId : Z) (w : World) : list ActionRow :=
  List.filter (of_workflow workflowId) (workflow_actions w).

(** [r] is the outcome of executing [action] for [event]: [doAction] resolves
    with it, in either mode and without touching the store. *)
Definition outcome_of (event : Event) (action : ActionRow) (r : ActionResult) : Prop :=
  forall testMode w, doAction action event testMode w = (Resolved r, w).

(** The action kinds [doAction] has a case for. *)
Definition recognized : list string :=
  ["run_script"; "restart_service"; "isolate_device"; "notify"; "send_notification";
   "create_ticket"].

(** The workflows an event of type [t] triggers, in table order. *)
Definition triggered_by (t : string) (w : World) : list WorkflowRow :=
  List.filter (fun wf => String.eqb (trigger_event_type wf) t) (workflows w).

(** The log row of an execution of [workflowId] for [event] that ran no
    action, written in world [w]: the column result holds the empty object. *)
Definition log_row (workflowId : Z) (event : Event) (w : World) : LogRow :=
  {| log_id := workflow_logs_id_seq w; log_workflow_id := Some workflowId;
     event_data := event; result := JObj [] |}.

(** The log rows written from world [w] on to world [w']. *)
Definition logged (w w' : World) : list LogRow :=
  drop (length (workflow_logs w)) (workflow_logs w').

(** A computation keeps the store consistent, whether it resolves or not. *)
Definition keeps {A : Type} (m : Async World A) : Prop :=
  forall w, consistent w -> consistent (snd (m w)).

(** Action row [row] of workflow [workflowId] stores the action [spec] of a
    creation request. *)
Definition stores (workflowId : Z) (spec : ActionSpec) (row : ActionRow) : Prop :=
  workflow_id row = Some workflowId /\
  spec_action_type spec = val (action_type row) /\
  parameters row = or_null (spec_parameters spec).

(** Log row [row] records the execution result [res] (workflow id and
    outcomes) for [event]: its column result holds what the store read of
    the outcomes. *)
Definition records (event : Event) (res : Z * list ActionResult) (row : LogRow) : Prop :=
  log_workflow_id row = Some (fst res) /\ event_data row = event /\
  array_as_jsonb (snd res) = Some (result row).


(** *** A sample scenario: two workflows, one of them with an unknown action *)

Definition empty_world : World :=
  {| workflows := []; workflow_actions := []; workflow_logs := [];
     workflows_id_seq := 1; workflow_actions_id_seq := 1; workflow_logs_id_seq := 1;
     pool_faults := [] |}.

Definition disk_full : Event :=
  {| event_type := val "disk_full"; device_id := val "d1"; event_rest := [] |}.

Definition sample_world : World :=
  {| workflows :=
       [{| id := 1; name := "contain"; trigger_event_type := "disk_full";
           conditions := None; test_mode := false |};
        {| id := 2; name := "restart"; trigger_event_type := "service_down";
           conditions := None; test_mode := false |}];
     workflow_actions :=
       [{| action_id := 1; workflow_id := Some 1; action_type := "isolate_device";
           parameters := None |};
        {| action_id := 2; workflow_id := Some 2; action_type := "restart_service";
           parameters := Some {| params_script := undefined;
                                 params_service := val "nginx";
                                 params_message := undefined;
                                 params_rest := [] |} |};
        {| action_id := 3; workflow_id := Some 1; action_type := "reboot_universe";
           parameters := None |};
        {| action_id := 4; workflow_id := Some 1; action_type := "notify";
           parameters := None |}];
     workflow_logs := [];
     workflows_id_seq := 3; workflow_actions_id_seq := 5; workflow_logs_id_seq := 1;
     pool_faults := [] |}.

Definition isolate_row : ActionRow :=
  {| action_id := 1; workflow_id := Some 1; action_type := "isolate_device";
     parameters := None |}.

Definition reboot_row : ActionRow :=
  {| action_id := 3; workflow_id := Some 1; action_type := "reboot_universe";
     parameters := None |}.

Definition notify_row : ActionRow :=
  {| action_id := 4; workflow_id := Some 1; action_type := "notify";
     parameters := None |}.

Definition sample_outcomes : list ActionResult :=
  [{| action := "isolate_device"; status := "success"; message := "device isolated" |};
   {| action := "reboot_universe"; status := "unknown"; message := "unknown action" |};
   {| action := "notify"; status := "success"; message := "notification sent" |}].




(** The sample store after a creation that was refused at its first action:
    workflow 3 is left without an action, and one action id was used up. *)
Definition stranded_world : World :=
  {| workflows :=
       workflows sample_world ++
         [{| id := 3; name := "page"; trigger_event_type := "link_down";
             conditions := None; test_mode := false |}];
     workflow_actions := workflow_actions sample_world;
     workflow_logs := [];
     workflows_id_seq := 4; workflow_actions_id_seq := 6; workflow_logs_id_seq := 1;
     pool_faults := [] |}.

Definition link_down : Event :=
  {| event_type := val "link_down"; device_id := val "d1"; event_rest := [] |}.

(** A reader of JSON texts that reads the literals only. *)
Definition literals_only (text : string) : option json :=
  if String.eqb text "null" then Some JNull
  else if String.eqb text "true" then Some (JBool true)
  else if String.eqb text "false" then Some (JBool false)
  else None.

End Automation.

(** ** Further vocabulary for the automation service *)

Module Engine.
Import Automation.

(** A computation relates the world it starts in to the world it leaves. *)
Definition within {A : Type} (R : World -> World -> Prop) (m : Async World A) : Prop :=
  forall w, R w (snd (m w)).

(** No row of a table is changed or removed: each table only grows at its
    end. *)
Definition grows (w w' : World) : Prop :=
  workflows w `prefix_of` workflows w' /\
  workflow_actions w `prefix_of` workflow_actions w' /\
  workflow_logs w `prefix_of` workflow_logs w'.

(** The workflow definitions are the same. *)
Definition same_definitions (w w' : World) : Prop :=
  workflows w' = workflows w /\ workflow_actions w' = workflow_actions w.

(** All three tables are the same. *)
Definition same_tables (w w' : World) : Prop :=
  same_definitions w w' /\ workflow_logs w' = workflow_logs w.

(** The creation request passes the handler's check. *)
Definition creatable (req : WorkflowRequest) : bool :=
  truthy_string (req_name req) && truthy_string (req_event_type req) &&
  isArray (req_actions req) && negb (length (elements (req_actions req)) =? 0)%nat.

(** The event of the dry run a creation request asks for:
    [req.body.test_event || { event_type, test: true }]. *)
Definition dry_run_event (req : WorkflowRequest) : Event :=
  match req_test_event req with
  | val given => given
  | _ => {| event_type := req_event_type req; device_id := undefined;
            event_rest := [("test", JBool true)] |}
  end.

(** What the column conditions takes of a creation request, NULL when the
    request has none. *)
Definition stored_conditions (jsonb_in : string -> option json) (req : WorkflowRequest)
    : option json :=
  match as_jsonb jsonb_in (or_null (req_conditions req)) with
  | Some document => document
  | None => None
  end.

(** The workflow row a creation request asks for, with id [n]. *)
Definition workflow_row (jsonb_in : string -> option json) (req : WorkflowRequest) (n : Z)
    : WorkflowRow :=
  {| id := n; name := text_of (req_name req);
     trigger_event_type := text_of (req_event_type req);
     conditions := stored_conditions jsonb_in req; test_mode := false |}.

(** The calls a client can make, and the store after serving a sequence of
    them (the responses are dropped). *)
Inductive Call : Type :=
| CreateWorkflow (req : WorkflowRequest)
| SubmitEvent (event : Event)
| TestWorkflow (req : TestRequest).

Definition serve (jsonb_in : string -> option json) (call : Call) (w : World) : World :=
  match call with
  | CreateWorkflow req => snd (post_api_workflows jsonb_in req w)
  | SubmitEvent event => snd (post_api_events event w)
  | TestWorkflow req => snd (post_api_workflows_test req w)
  end.

Definition serve_all (jsonb_in : string -> option json) (calls : list Call) (w : World)
    : World :=
  fold_left (fun w call => serve jsonb_in call w) calls w.

(** *** Sample requests *)

Definition sample_specs : list ActionSpec :=
  [{| spec_action_type := val "run_script";
      spec_parameters := val {| params_script := val "cleanup.sh";
                                params_service := undefined;
                                params_message := undefined;
                                params_rest := [] |} |};
   {| spec_action_type := val "create_ticket"; spec_parameters := null |}].

Definition sample_creation : WorkflowRequest :=
  {| req_name := val "free disk"; req_event_type := val "disk_full";
     req_conditions := undefined; req_actions := val sample_specs;
     req_test := val true; req_test_event := undefined |}.

(** The second action of this request names no type. *)
Definition broken_creation : WorkflowRequest :=
  {| req_name := val "free disk"; req_event_type := val "disk_full";
     req_conditions := undefined;
     req_actions :=
       val [{| spec_action_type := val "run_script"; spec_parameters := undefined |};
            {| spec_action_type := undefined; spec_parameters := undefined |};
            {| spec_action_type := val "notify"; spec_parameters := undefined |}];
     req_test := undefined; req_test_event := undefined |}.


(** The store with the workflow without actions, and a fault scheduled for
    the third query. *)
Definition flaky_world : World :=
  with_faults [false; false; true] stranded_world.

(** The status of a handler's answer. *)
Definition status_code_of (answer : outcome Response) : option Z :=
  match answer with
  | Resolved resp => Some (status_code resp)
  | Rejected => None
  end.

End Engine.

(** ** Alert service: creating rules *)

Module AlertRules.
Import Alerts.

(** The body of POST /api/alert-rules. *)
Record RuleRequest : Type := {
  new_metric : js string;
  new_threshold : js float;
  new_comparison : js string;
  new_channel : js string;
  new_suggestion : js string;
  new_description : js string
}.

Inductive RuleResponseBody : Type :=
| rule_error (error : string)
| rule_created (rule_id : Z).

Record RuleResponse : Type := {
  rule_status_code : Z;
  rule_response_body : RuleResponseBody
}.

(** The store of the alert service together with the sequence of
    [alert_rules.id]. *)
Record Store : Type := {
  alert_rules_id_seq : Z;
  base : World
}.

Definition with_rules (rules : list AlertRuleRow) (faults' : list bool) (w : World)
    : World :=
  {| ITSM_WEBHOOK_URL := ITSM_WEBHOOK_URL w;
     EMAIL_WEBHOOK_URL := EMAIL_WEBHOOK_URL w;
     SMS_WEBHOOK_URL := SMS_WEBHOOK_URL w;
     alert_rules := rules;
     alerts := alerts w;
     alerts_id_seq := alerts_id_seq w;
     pool_faults := faults';
     net_faults := net_faults w;
     requests := requests w |}.

(** [channel ?? 'email'] *)
Definition channel_or_email (x : js string) : string :=
  match x with
  | val c => c
  | _ => "email"
  end.

(** [INSERT INTO alert_rules (metric, threshold, comparison, channel,
    suggestion, description) VALUES ($1, ..., $6) RETURNING id]: threshold is
    NOT NULL. *)
Definition insert_rule (metric : string) (threshold : js float) (comparison : string)
    (channel : string) (suggestion description : option string) : Async Store Z :=
  fun st =>
    let (fault, rest) := next_fault (pool_faults (base st)) in
    if fault then
      (Rejected,
       {| alert_rules_id_seq := alert_rules_id_seq st;
          base := with_rules (alert_rules (base st)) rest (base st) |})
    else
      match threshold with
      | val t =>
          (Resolved (alert_rules_id_seq st),
           {| alert_rules_id_seq := alert_rules_id_seq st + 1;
              base :=
                with_rules
                  (alert_rules (base st) ++
                     [{| id := alert_rules_id_seq st;
                         rule_metric := metric;
                         rule_threshold := as_written t;
                         rule_comparison := comparison;
                         channel := channel;
                         rule_suggestion := suggestion;
                         rule_description := description |}])
                  rest (base st) |})
      | _ =>
          (Rejected,
           {| alert_rules_id_seq := alert_rules_id_seq st + 1;
              base := with_rules (alert_rules (base st)) rest (base st) |})
      end.

(** app.post('/api/alert-rules', ...) *)
Definition post_api_alert_rules (req : RuleRequest) : Async Store RuleResponse :=
  if negb (truthy_string (new_metric req)) || is_undefined (new_threshold req)
     || negb (truthy_string (new_comparison req))
  then
    ret {| rule_status_code := 400;
           rule_response_body :=
             rule_error "metric, threshold and comparison are required" |}
  else
    try_catch
      (await created <- insert_rule (text_of (new_metric req)) (new_threshold req)
                          (text_of (new_comparison req))
                          (channel_or_email (new_channel req))
                          (or_null (new_suggestion req))
                          (or_null (new_description req)) in
       ret {| rule_status_code := 201; rule_response_body := rule_created created |})
      (ret {| rule_status_code := 500; rule_response_body := rule_error "internal_error" |}).


(** *** Vocabulary of the statements *)

(** The rule row a creation request asks for, with id [n] and threshold
    [t]. *)
Definition rule_row (req : RuleRequest) (n : Z) (t : float) : AlertRuleRow :=
  {| id := n;
     rule_metric := text_of (new_metric req);
     rule_threshold := as_written t;
     rule_comparison := text_of (new_comparison req);
     channel := channel_or_email (new_channel req);
     rule_suggestion := or_null (new_suggestion req);
     rule_description := or_null (new_description req) |}.

(** *** A sample scenario *)


Definition sample_store : Store :=
  {| alert_rules_id_seq := 2; base := sample_world |}.

(** An intent that cites rule 2. *)
Definition disk_intent : AlertIntent :=
  {| device_id := val "6f1c2d9e-0b7a-4c1e-9a57-2f1d3c4b5a69";
     metric := val "disk";
     value := val 0.875%float;
     threshold := val 0.75%float;
     rule_id := val 2;
     suggestion := undefined;
     description := undefined |}.

End AlertRules.

(** ** Ingestion service: the ingest endpoint *)

Module Ingest.
Import Ingestion.

(** A row of [metrics], with the columns the INSERT of the handler names. *)
Record MetricRow : Type := {
  row_device_id : string;
  row_timestamp : string;
  cpu : option float;
  memory : option float;
  disk : option float;
  network : option float
}.

(** The body of POST /api/ingest. *)
Record Sample : Type := {
  sample_device_id : js string;
  sample_timestamp : js string;
  sample_metrics : js (gmap string (option float))
}.

Inductive IngestResponseBody : Type :=
| ingest_error (error : string)
| ingest_status (status : string).

Record IngestResponse : Type := {
  ingest_status_code : Z;
  ingest_response_body : IngestResponseBody
}.

(** The world of the service together with its [metrics] table. *)
Record Store : Type := {
  metrics_table : list MetricRow;
  world : World
}.

Definition with_pool (faults' : list bool) (w : World) : World :=
  {| ALERT_SERVICE_URL := ALERT_SERVICE_URL w;
     alert_rules := alert_rules w;
     pool_faults := faults';
     net_faults := net_faults w;
     requests := requests w |}.

(** [metrics.cpu ?? null] *)
Definition column (name : string) (metrics : gmap string (option float)) : option float :=
  match metrics !! name with
  | Some (Some v) => Some v
  | _ => None
  end.

(** The metrics object of a body that passed the check. *)
Definition metrics_of (x : js (gmap string (option float))) : gmap string (option float) :=
  match x with
  | val metrics => metrics
  | _ => ∅
  end.

(** An object is truthy whenever it is there. *)
Definition truthy_record {A : Type} (x : js A) : bool :=
  match x with
  | val _ => true
  | _ => false
  end.

(** [INSERT INTO metrics(device_id, timestamp, cpu, memory, disk, network)
    VALUES ($1, ..., $6)].  The source does not create the table; whatever
    makes the store refuse the row counts as a fault of the query. *)
Definition insert_metrics (row : MetricRow) : Async Store unit :=
  fun st =>
    let (fault, rest) := next_fault (pool_faults (world st)) in
    if fault then
      (Rejected, {| metrics_table := metrics_table st;
                    world := with_pool rest (world st) |})
    else
      (Resolved tt, {| metrics_table := metrics_table st ++ [row];
                       world := with_pool rest (world st) |}).

(** [task.catch(...)] without [await]: the task runs on the world of the
    service, and the caller goes on whatever becomes of it. *)
Definition detached (task : Async World unit) : Async Store unit :=
  fun st =>
    (Resolved tt, {| metrics_table := metrics_table st;
                     world := snd (task (world st)) |}).

Section Endpoint.

Variable Number_toString : float -> string.

(** app.post('/api/ingest', ...) *)
Definition post_api_ingest (req : Sample) : Async Store IngestResponse :=
  if negb (truthy_string (sample_device_id req))
     || negb (truthy_string (sample_timestamp req))
     || negb (truthy_record (sample_metrics req))
  then
    ret {| ingest_status_code := 400;
           ingest_response_body :=
             ingest_error "device_id, timestamp and metrics are required" |}
  else
    try_catch
      (await _ <- insert_metrics
                    {| row_device_id := text_of (sample_device_id req);
                       row_timestamp := text_of (sample_timestamp req);
                       cpu := column "cpu" (metrics_of (sample_metrics req));
                       memory := column "memory" (metrics_of (sample_metrics req));
                       disk := column "disk" (metrics_of (sample_metrics req));
                       network := column "network" (metrics_of (sample_metrics req)) |} in
       await _ <- detached
                    (evaluateRules Number_toString (text_of (sample_device_id req))
                       (metrics_of (sample_metrics req))) in
       ret {| ingest_status_code := 202; ingest_response_body := ingest_status "accepted" |})
      (ret {| ingest_status_code := 500;
              ingest_response_body := ingest_error "internal_error" |}).

End Endpoint.

(** *** Vocabulary of the statements *)

(** The row stored for a sample. *)
Definition metric_row (req : Sample) : MetricRow :=
  {| row_device_id := text_of (sample_device_id req);
     row_timestamp := text_of (sample_timestamp req);
     cpu := column "cpu" (metrics_of (sample_metrics req));
     memory := column "memory" (metrics_of (sample_metrics req));
     disk := column "disk" (metrics_of (sample_metrics req));
     network := column "network" (metrics_of (sample_metrics req)) |}.

(** The sample passes the handler's check. *)
Definition complete (req : Sample) : Prop :=
  truthy_string (sample_device_id req) = true /\
  truthy_string (sample_timestamp req) = true /\
  exists metrics, sample_metrics req = val metrics.

(** Where [sendAlert] posts: the configured URL, or the default one when the
    variable is unset or empty. *)
Definition alert_target (w : World) : string :=
  match ALERT_SERVICE_URL w with
  | Some u => if String.eqb u "" then default_alert_url else u
  | None => default_alert_url
  end.

(** The requests made from world [w] on to world [w']. *)
Definition sent_between (w w' : World) : list Request :=
  drop (length (requests w)) (requests w').

(** *** A sample scenario: a latency rule, a sample with cpu and latency *)

Definition latency_rule : AlertRule :=
  {| id := 3; metric := "latency"; threshold := 200%float; comparison := "gt";
     suggestion := None; description := None |}.

Definition sample_store : Store :=
  {| metrics_table := [];
     world := {| ALERT_SERVICE_URL := Some "";
                 alert_rules := [cpu_rule; latency_rule];
                 pool_faults := [];
                 net_faults := [];
                 requests := [] |} |}.

Definition sample_request : Sample :=
  {| sample_device_id := val "device-1";
     sample_timestamp := val "2025-11-25T12:00:00Z";
     sample_metrics :=
       val (<["cpu" := Some 50%float]> (<["latency" := Some 350%float]> ∅)) |}.

End Ingest.

(** ** The wire between the services *)

Module Wire.

(** The columns [evaluateRules] selects from a row of [alert_rules]. *)
Definition rule_view (row : Alerts.AlertRuleRow) : Ingestion.AlertRule :=
  {| Ingestion.id := Alerts.id row;
     Ingestion.metric := Alerts.rule_metric row;
     Ingestion.threshold := Alerts.rule_threshold row;
     Ingestion.comparison := Alerts.rule_comparison row;
     Ingestion.suggestion := Alerts.rule_suggestion row;
     Ingestion.description := Alerts.rule_description row |}.

(** A number as it arrives through a JSON body: a number that is not finite
    is written [null], and both zeros are written 0. *)
Definition json_number (x : float) : js float :=
  if PrimFloat.is_finite x then val (as_written x) else null.

(** The payload of [sendAlert] as POST /api/alerts reads it from the JSON
    body. *)
Definition intent_body (a : Ingestion.AlertIntent) : Alerts.AlertIntent :=
  {| Alerts.device_id := val (Ingestion.device_id a);
     Alerts.metric := val (Ingestion.alert_metric a);
     Alerts.value := json_number (Ingestion.value a);
     Alerts.threshold := json_number (Ingestion.alert_threshold a);
     Alerts.rule_id := val (Ingestion.rule_id a);
     Alerts.suggestion := val (Ingestion.alert_suggestion a);
     Alerts.description := val (Ingestion.alert_description a) |}.

(** The world of the ingestion service when its pool reads the rules of the
    alert store [wa]. *)
Definition reading (wa : Alerts.World) (faults network : list bool) : Ingestion.World :=
  {| Ingestion.ALERT_SERVICE_URL := None;
     Ingestion.alert_rules := map rule_view (Alerts.alert_rules wa);
     Ingestion.pool_faults := faults;
     Ingestion.net_faults := network;
     Ingestion.requests := [] |}.

End Wire.

(** ** Network performance service: the queries of the report endpoints *)

(** src/backend/ingestion-service/src/index.ts, the GET handlers
    /api/top-talkers, /api/interface-report, /api/interface-trend and
    /api/performance-report.  Each builds the text of one query and the array
    of its parameters from the filters of the request, then hands both to
    [pool.query] and answers with the rows.  The embedding stops at what
    reaches [pool.query]; the aggregation is the store's. *)

Module Reports.

(** An element of [params]: a filter as given, or [new Date(s)]. *)
Inductive param : Type :=
| text_param (s : string)
| date_param (s : string).

(** [params] and [conditions] as the handlers grow them. *)
Record Builder : Type := {
  params : list param;
  conditions : list string
}.

(** A number inside a template literal. *)
Definition decimal (n : nat) : string :=
  NilEmpty.string_of_uint (Nat.to_uint n).

(** [if (x) { params.push(wrap(x)); conditions.push(`<lhs>$${params.length}`); }] *)
Definition when_given (x : js string) (wrap : string -> param) (lhs : string)
    (b : Builder) : Builder :=
  if truthy_string x then
    let params' := params b ++ [wrap (text_of x)] in
    {| params := params';
       conditions :=
         conditions b ++ [(lhs ++ "$" ++ decimal (length params'))%string] |}
  else b.

(** [Array.prototype.join] *)
Fixpoint join (sep : string) (parts : list string) : string :=
  match parts with
  | [] => ""
  | [part] => part
  | part :: rest => (part ++ sep ++ join sep rest)%string
  end.

(** [if (conditions.length > 0) { query += ` WHERE ` + conditions.join(' AND '); }] *)
Definition add_where (query : string) (conds : list string) : string :=
  match conds with
  | [] => query
  | _ => (query ++ " WHERE " ++ join " AND " conds)%string
  end.

(** The two arguments of [pool.query]. *)
Record Query : Type := {
  sql : string;
  values : list param
}.

(** What a handler does with a request: refuse it, or run a query. *)
Inductive Plan : Type :=
| refuse (status_code : Z) (error : string)
| run (q : Query).

Definition top_talkers_select : string :=
  "SELECT src_ip, dst_ip, SUM(bytes) AS total_bytes, SUM(packets) AS total_packets
                 FROM flow_data".

Definition top_talkers_tail : string :=
  " GROUP BY src_ip, dst_ip ORDER BY SUM(bytes) DESC LIMIT 10".

(** app.get('/api/top-talkers', ...) *)
Definition top_talkers (siteId startTime endTime : js string) : Plan :=
  let b0 := {| params := []; conditions := [] |} in
  let b1 := when_given siteId text_param "site_id = " b0 in
  let b2 := when_given startTime date_param "timestamp >= " b1 in
  let b3 := when_given endTime date_param "timestamp <= " b2 in
  run {| sql := (add_where top_talkers_select (conditions b3) ++ top_talkers_tail)%string;
         values := params b3 |}.

Definition interface_report_select : string :=
  "SELECT device_id, interface_name, site_id,
                        AVG(bandwidth_in) AS avg_bandwidth_in,
                        AVG(bandwidth_out) AS avg_bandwidth_out,
                        AVG(latency_ms) AS avg_latency_ms,
                        AVG(packet_loss) AS avg_packet_loss,
                        AVG(jitter_ms) AS avg_jitter_ms,
                        COUNT(*) AS sample_count
                 FROM interface_stats".

Definition interface_report_tail : string :=
  " GROUP BY device_id, interface_name, site_id".

(** app.get('/api/interface-report', ...) *)
Definition interface_report (siteId deviceId iface startTime endTime : js string) : Plan :=
  let b0 := {| params := []; conditions := [] |} in
  let b1 := when_given siteId text_param "site_id = " b0 in
  let b2 := when_given deviceId text_param "device_id = " b1 in
  let b3 := when_given iface text_param "interface_name = " b2 in
  let b4 := when_given startTime date_param "timestamp >= " b3 in
  let b5 := when_given endTime date_param "timestamp <= " b4 in
  run {| sql := (add_where interface_report_select (conditions b5)
                 ++ interface_report_tail)%string;
         values := params b5 |}.

Definition interface_trend_select : string :=
  "SELECT timestamp, bandwidth_in, bandwidth_out, latency_ms, packet_loss, jitter_ms
                 FROM interface_stats WHERE device_id = $1 AND interface_name = $2".

(** [if (x) { params.push(new Date(x)); query += `<lhs>$${params.length}`; }] *)
Definition and_when_given (x : js string) (lhs : string) (q : Query) : Query :=
  if truthy_string x then
    let values' := values q ++ [date_param (text_of x)] in
    {| sql := (sql q ++ lhs ++ "$" ++ decimal (length values'))%string;
       values := values' |}
  else q.

(** app.get('/api/interface-trend', ...) *)
Definition interface_trend (deviceId iface startTime endTime : js string) : Plan :=
  if negb (truthy_string deviceId) || negb (truthy_string iface) then
    refuse 400 "device_id and interface_name are required"
  else
    let q0 := {| sql := interface_trend_select;
                 values := [text_param (text_of deviceId); text_param (text_of iface)] |} in
    let q1 := and_when_given startTime " AND timestamp >= " q0 in
    let q2 := and_when_given endTime " AND timestamp <= " q1 in
    run {| sql := (sql q2 ++ " ORDER BY timestamp ASC")%string; values := values q2 |}.

Definition performance_report_select : string :=
  "
      SELECT site_id,
             AVG(bandwidth_in) AS avg_bandwidth_in,
             AVG(bandwidth_out) AS avg_bandwidth_out,
             AVG(latency_ms) AS avg_latency_ms,
             AVG(packet_loss) AS avg_packet_loss,
             COUNT(*) AS sample_count
      FROM network_performance".

(** app.get('/api/performance-report', ...) *)
Definition performance_report (siteId : js string) : Plan :=
  let q0 := {| sql := performance_report_select; values := [] |} in
  let q1 :=
    if truthy_string siteId then
      {| sql := (sql q0 ++ " WHERE site_id = $1")%string;
         values := values q0 ++ [text_param (text_of siteId)] |}
    else q0 in
  run {| sql := (sql q1 ++ " GROUP BY site_id")%string; values := values q1 |}.

(** *** Vocabulary of the statements *)

Definition is_digit (c : ascii) : bool :=
  (48 <=? nat_of_ascii c)%nat && (nat_of_ascii c <=? 57)%nat.

(** The numbers of the placeholders [$n] of a query text, in the order they
    occur; [current] is the placeholder being read, if any. *)
Fixpoint scan (text : string) (current : option nat) : list nat :=
  match text with
  | EmptyString =>
      match current with
      | Some n => [n]
      | None => []
      end
  | String c rest =>
      match current with
      | Some n =>
          if is_digit c then scan rest (Some (10 * n + (nat_of_ascii c - 48))%nat)
          else n :: scan rest (if Ascii.eqb c "$"%char then Some 0%nat else None)
      | None => scan rest (if Ascii.eqb c "$"%char then Some 0%nat else None)
      end
  end.

Definition placeholders (text : string) : list nat := scan text None.

(** The text [needle] occurs in [text]. *)
Fixpoint occurs (needle text : string) : bool :=
  String.prefix needle text ||
  match text with
  | EmptyString => false
  | String _ rest => occurs needle rest
  end.

(** A filter of a request when it is given (present and not empty): the left
    side of its condition and the parameter it stands for. *)
Definition asked (lhs : string) (wrap : string -> param) (x : js string)
    : list (string * param) :=
  if truthy_string x then [(lhs, wrap (text_of x))] else [].

(** The filters given to each endpoint, in the order the handler reads
    them. *)
Definition top_talkers_filters (siteId startTime endTime : js string)
    : list (string * param) :=
  asked "site_id = " text_param siteId ++
  asked "timestamp >= " date_param startTime ++
  asked "timestamp <= " date_param endTime.

Definition interface_report_filters (siteId deviceId iface startTime endTime : js string)
    : list (string * param) :=
  asked "site_id = " text_param siteId ++
  asked "device_id = " text_param deviceId ++
  asked "interface_name = " text_param iface ++
  asked "timestamp >= " date_param startTime ++
  asked "timestamp <= " date_param endTime.

Definition interface_trend_filters (deviceId iface startTime endTime : js string)
    : list (string * param) :=
  [("device_id = ", text_param (text_of deviceId));
   ("interface_name = ", text_param (text_of iface))] ++
  asked "timestamp >= " date_param startTime ++
  asked "timestamp <= " date_param endTime.

Definition performance_report_filters (siteId : js string) : list (string * param) :=
  asked "site_id = " text_param siteId.

(** The query compares the left side of [f] with a placeholder, and the
    parameter at the position the placeholder names is the one of [f]. *)
Definition binds (q : Query) (f : string * param) : Prop :=
  exists k,
    nth_error (values q) k = Some (snd f) /\
    occurs (fst f ++ "$" ++ decimal (S k) ++ " ") (sql q) = true.

End Reports.

(** ** Device service: the inventory of devices *)

(** src/backend/alert-service/src/index.ts, the handlers of /api/devices
    (POST, PUT, DELETE) and /api/devices/register.  The column device_id is a
    UUID: a row holds it the way the store prints it, and an id that a
    request gives is read by the store, see [uuid_in].  [uuidv4] is the
    sequence of the ids it hands out, each one a UUID in printed form.  The
    column id is read by none of these handlers and is left out of the
    rows.  [clock] gives the time of each query, which is what NOW() is in
    it. *)

Module Devices.

(** [interface Device] *)
Record Device : Type := {
  device_id : js string;
  hostname : js string;
  ip_address : js string;
  os : js string;
  specs : js string;
  installed_software : js string;
  vendor : js string;
  model : js string;
  discovered_by : js string
}.

(** A row of devices: device_id UUID NOT NULL UNIQUE, the rest nullable
    TEXT. *)
Record DeviceRow : Type := {
  row_device_id : string;
  row_hostname : option string;
  row_ip_address : option string;
  row_os : option string;
  row_specs : option string;
  row_installed_software : option string;
  row_vendor : option string;
  row_model : option string;
  row_discovered_by : option string;
  row_created_at : Z
}.

Record World : Type := {
  devices : list DeviceRow;
  pool_faults : list bool;
  uuids : nat -> string;
  uuid_calls : nat;
  clock : nat -> Z;
  queries : nat
}.

(** NOW() in the next query. *)
Definition now (w : World) : Z := clock w (queries w).

(** The world after a query: the rows it leaves, the faults still to come. *)
Definition with_devices (rows : list DeviceRow) (faults' : list bool) (w : World) : World :=
  {| devices := rows;
     pool_faults := faults';
     uuids := uuids w;
     uuid_calls := uuid_calls w;
     clock := clock w;
     queries := S (queries w) |}.

(** [uuidv4()] *)
Definition uuidv4 : Async World string :=
  fun w =>
    (Resolved (uuids w (uuid_calls w)),
     {| devices := devices w;
        pool_faults := pool_faults w;
        uuids := uuids w;
        uuid_calls := S (uuid_calls w);
        clock := clock w;
        queries := queries w |}).

(** [x ?? fallback] *)
Definition nullish_or (x : js string) (fallback : string) : string :=
  match x with
  | val s => s
  | _ => fallback
  end.

Definition is_device (deviceId : string) (row : DeviceRow) : bool :=
  String.eqb (row_device_id row) deviceId.

(** [INSERT INTO devices (device_id, hostname, ..., discovered_by) VALUES
    ($1, ..., $9)], with the id [uuidv4] made: device_id is UNIQUE, and
    created_at takes its default; [row] is the row for a given created_at. *)
Definition insert_device (row : Z -> DeviceRow) : Async World unit :=
  fun w =>
    let (fault, rest) := next_fault (pool_faults w) in
    if fault then (Rejected, with_devices (devices w) rest w)
    else if existsb (is_device (row_device_id (row (now w)))) (devices w)
    then (Rejected, with_devices (devices w) rest w)
    else (Resolved tt, with_devices (devices w ++ [row (now w)]) rest w).

(** A row with new details. *)
Definition with_details (hostname' ip_address' os' specs' installed_software' vendor'
    model' : option string) (row : DeviceRow) : DeviceRow :=
  {| row_device_id := row_device_id row;
     row_hostname := hostname';
     row_ip_address := ip_address';
     row_os := os';
     row_specs := specs';
     row_installed_software := installed_software';
     row_vendor := vendor';
     row_model := model';
     row_discovered_by := row_discovered_by row;
     row_created_at := row_created_at row |}.

(** [UPDATE devices SET hostname=$1, ip_address=$2, os=$3, specs=$4,
    installed_software=$5, vendor=$6, model=$7 WHERE device_id=$8]: the
    store reads $8 as a UUID. *)
Definition update_device (hostname' ip_address' os' specs' installed_software' vendor'
    model' : option string) (deviceId : string) : Async World unit :=
  fun w =>
    let (fault, rest) := next_fault (pool_faults w) in
    if fault then (Rejected, with_devices (devices w) rest w)
    else
      match uuid_in deviceId with
      | Some id =>
          (Resolved tt,
           with_devices
             (map (fun row =>
                     if is_device id row then
                       with_details hostname' ip_address' os' specs' installed_software'
                         vendor' model' row
                     else row)
                (devices w))
             rest w)
      | None => (Rejected, with_devices (devices w) rest w)
      end.

(** [DELETE FROM devices WHERE device_id=$1]: the store reads $1 as a
    UUID. *)
Definition delete_device (deviceId : string) : Async World unit :=
  fun w =>
    let (fault, rest) := next_fault (pool_faults w) in
    if fault then (Rejected, with_devices (devices w) rest w)
    else
      match uuid_in deviceId with
      | Some id =>
          (Resolved tt,
           with_devices (List.filter (fun row => negb (is_device id row)) (devices w))
             rest w)
      | None => (Rejected, with_devices (devices w) rest w)
      end.

(** [INSERT INTO devices (...) VALUES ($1, ..., $9) ON CONFLICT (device_id)
    DO UPDATE SET hostname=EXCLUDED.hostname, ...,
    discovered_by=EXCLUDED.discovered_by, created_at=NOW()]: the store reads
    $1 as a UUID; [row] is the row for the id read and a given created_at. *)
Definition upsert_device (deviceId : string) (row : string -> Z -> DeviceRow)
    : Async World unit :=
  fun w =>
    let (fault, rest) := next_fault (pool_faults w) in
    if fault then (Rejected, with_devices (devices w) rest w)
    else
      match uuid_in deviceId with
      | Some id =>
          if existsb (is_device id) (devices w)
          then
            (Resolved tt,
             with_devices
               (map (fun old => if is_device id old then row id (now w) else old)
                  (devices w))
               rest w)
          else (Resolved tt, with_devices (devices w ++ [row id (now w)]) rest w)
      | None => (Rejected, with_devices (devices w) rest w)
      end.

Inductive ResponseBody : Type :=
| error_body (error : string)
| created_body (device_id : string)
| registered_body (device_id : string) (status : string)
| no_body.

Record Response : Type := {
  status_code : Z;
  response_body : ResponseBody
}.

Definition internal_error : Response :=
  {| status_code := 500; response_body := error_body "internal_error" |}.

(** The row the two inserts make of a device with id [id], where [origin]
    stands in for a missing discovered_by. *)
Definition device_row (id : string) (device : Device) (origin : string) (created_at : Z)
    : DeviceRow :=
  {| row_device_id := id;
     row_hostname := or_null (hostname device);
     row_ip_address := or_null (ip_address device);
     row_os := or_null (os device);
     row_specs := or_null (specs device);
     row_installed_software := or_null (installed_software device);
     row_vendor := or_null (vendor device);
     row_model := or_null (model device);
     row_discovered_by := Some (nullish_or (discovered_by device) origin);
     row_created_at := created_at |}.

(** app.post('/api/devices', ...) *)
Definition post_api_devices (device : Device) : Async World Response :=
  await id <- uuidv4 in
  try_catch
    (await _ <- insert_device (device_row id device "manual") in
     ret {| status_code := 201; response_body := created_body id |})
    (ret internal_error).

(** app.put('/api/devices/:deviceId', ...) *)
Definition put_api_devices (deviceId : string) (device : Device) : Async World Response :=
  try_catch
    (await _ <- update_device (or_null (hostname device)) (or_null (ip_address device))
                  (or_null (os device)) (or_null (specs device))
                  (or_null (installed_software device)) (or_null (vendor device))
                  (or_null (model device)) deviceId in
     ret {| status_code := 204; response_body := no_body |})
    (ret internal_error).

(** app.delete('/api/devices/:deviceId', ...) *)
Definition delete_api_devices (deviceId : string) : Async World Response :=
  try_catch
    (await _ <- delete_device deviceId in
     ret {| status_code := 204; response_body := no_body |})
    (ret internal_error).

(** app.post('/api/devices/register', ...) *)
Definition post_api_devices_register (device : Device) : Async World Response :=
  await deviceId <- (if truthy_string (device_id device)
                     then ret (text_of (device_id device))
                     else uuidv4) in
  try_catch
    (await _ <- upsert_device deviceId (fun id => device_row id device "agent") in
     ret {| status_code := 202;
            response_body := registered_body deviceId "registered" |})
    (ret internal_error).

(** *** Vocabulary of the statements *)

(** The row of a device, if it is in the inventory. *)
Definition lookup (deviceId : string) (w : World) : option DeviceRow :=
  find (is_device deviceId) (devices w).

(** No two rows have the same device id. *)
Definition unique (w : World) : Prop :=
  List.NoDup (map row_device_id (devices w)).

(** The rows after a registration at time [t] under the id [id], as the
    store prints it. *)
Definition registered (id : string) (device : Device) (t : Z) (rows : list DeviceRow)
    : list DeviceRow :=
  if existsb (is_device id) rows
  then map (fun old => if is_device id old then device_row id device "agent" t else old)
         rows
  else rows ++ [device_row id device "agent" t].

(** A row after an update with the body [device]. *)
Definition updated (row : DeviceRow) (device : Device) : DeviceRow :=
  with_details (or_null (hostname device)) (or_null (ip_address device))
    (or_null (os device)) (or_null (specs device))
    (or_null (installed_software device)) (or_null (vendor device))
    (or_null (model device)) row.


(** The world after the one query of a handler that had drawn [calls]
    ids. *)
Definition left_by (rows : list DeviceRow) (calls : nat) (w : World) : World :=
  {| devices := rows; pool_faults := snd (next_fault (pool_faults w));
     uuids := uuids w; uuid_calls := calls;
     clock := clock w; queries := S (queries w) |}.

(** The calls a client can make, and the answer and the store after one of
    them. *)
Inductive Call : Type :=
| Create (device : Device)
| Update (deviceId : string) (device : Device)
| Delete (deviceId : string)
| Register (device : Device).

Definition serve (call : Call) : Async World Response :=
  match call with
  | Create device => post_api_devices device
  | Update deviceId device => put_api_devices deviceId device
  | Delete deviceId => delete_api_devices deviceId
  | Register device => post_api_devices_register device
  end.

Definition serve_all (calls : list Call) (w : World) : World :=
  fold_left (fun w call => snd (serve call w)) calls w.

(** *** A sample inventory *)

Definition laptop_id : string := "0b9f3a52-6f0e-4c43-9d55-7a1e2c8f4b10".
Definition server_id : string := "5d2c7e11-93ab-4f6a-8c0d-1e4b6a7f9c21".
Definition fresh_id : string := "c1a4e8f0-2b7d-4e59-a3c6-9f0d5b8e7a32".

(** The laptop's id as its agent writes it. *)
Definition laptop_serial : string := "{0B9F3A52-6F0E-4C43-9D55-7A1E2C8F4B10}".


Definition laptop : DeviceRow :=
  {| row_device_id := laptop_id; row_hostname := Some "lt-042";
     row_ip_address := Some "10.0.4.42"; row_os := Some "Windows 11";
     row_specs := None; row_installed_software := None;
     row_vendor := Some "Lenovo"; row_model := Some "T14";
     row_discovered_by := Some "manual"; row_created_at := 100 |}.

Definition server : DeviceRow :=
  {| row_device_id := server_id; row_hostname := Some "srv-01";
     row_ip_address := Some "10.0.1.5"; row_os := Some "Debian 12";
     row_specs := None; row_installed_software := None;
     row_vendor := None; row_model := None;
     row_discovered_by := Some "network_scan"; row_created_at := 200 |}.

(** Query number k runs at time 1000 + 10 k. *)
Definition sample_world : World :=
  {| devices := [laptop; server];
     pool_faults := [];
     uuids := fun _ => fresh_id;
     uuid_calls := 0;
     clock := fun k => 1000 + 10 * Z.of_nat k;
     queries := 0 |}.


End Devices.
(** ** Patch service: approvals and status reports *)

(** src/backend/alert-service/src/index.ts, the handlers POST
    /api/patches/approve and POST /api/patch-status.  A time is kept as the
    expression that made it: [new Date(s)] for a text [s] of the request, or
    the n-th reading of the clock by [new Date()]; a schedule_at of a request
    is typed as a text.  Not every text makes a date, and not every date is
    one the store reads as a TIMESTAMPTZ: which texts do is a parameter,
    [Date_readable], of the handler that sends one.  The column device_id is
    a UUID: a row holds it the way the store prints it, and the id of a
    request is read by the store, see [uuid_in]; patch_id is an INTEGER. *)

Module Patches.

Inductive instant : Type :=
| date_of (s : string)
| clock_reading (n : nat).

(** A row of patches. *)
Record PatchRow : Type := {
  patch_row_id : Z;
  patch_name : string;
  patch_vendor : string;
  severity : option string;
  release_date : option string;
  patch_description : option string
}.

(** A row of patch_assignments; (device_id, patch_id) is the primary key. *)
Record Assignment : Type := {
  assigned_device : string;
  assigned_patch : Z;
  schedule_at : option instant;
  status : string;
  installed_at : option instant;
  error_message : option string
}.

Record World : Type := {
  patches : list PatchRow;
  patch_assignments : list Assignment;
  pool_faults : list bool;
  clock_reads : nat
}.

Definition with_assignments (rows : list Assignment) (faults' : list bool) (w : World)
    : World :=
  {| patches := patches w;
     patch_assignments := rows;
     pool_faults := faults';
     clock_reads := clock_reads w |}.


Definition is_assignment (deviceId : string) (patchId : Z) (row : Assignment) : bool :=
  String.eqb (assigned_device row) deviceId && Z.eqb (assigned_patch row) patchId.

(** The rows after [INSERT INTO patch_assignments (device_id, patch_id,
    schedule_at, status) VALUES ($1, $2, $3, 'approved') ON CONFLICT
    (device_id, patch_id) DO UPDATE SET schedule_at = EXCLUDED.schedule_at,
    status = 'approved']. *)
Definition approved (deviceId : string) (patchId : Z) (schedule : option instant)
    (rows : list Assignment) : list Assignment :=
  if existsb (is_assignment deviceId patchId) rows then
    map (fun row =>
           if is_assignment deviceId patchId row then
             {| assigned_device := assigned_device row;
                assigned_patch := assigned_patch row;
                schedule_at := schedule;
                status := "approved";
                installed_at := installed_at row;
                error_message := error_message row |}
           else row)
      rows
  else
    rows ++ [{| assigned_device := deviceId;
                assigned_patch := patchId;
                schedule_at := schedule;
                status := "approved";
                installed_at := None;
                error_message := None |}].

(** Whether the store reads a time as a TIMESTAMPTZ: the reading of a clock
    always, the date of a text when [Date_readable] says so. *)
Definition readable (Date_readable : string -> bool) (t : option instant) : bool :=
  match t with
  | Some (date_of s) => Date_readable s
  | _ => true
  end.

(** The statement above as a query: the store reads $1 as a UUID, $2 as an
    INTEGER and $3 as a TIMESTAMPTZ, and a new row must name a patch of
    patches (patch_id REFERENCES patches(id)). *)
Definition upsert_assignment (Date_readable : string -> bool) (deviceId : string)
    (patchId : Z) (schedule : option instant) : Async World unit :=
  fun w =>
    let (fault, rest) := next_fault (pool_faults w) in
    if fault then (Rejected, with_assignments (patch_assignments w) rest w)
    else
      match uuid_in deviceId with
      | Some device =>
          if int4 patchId && readable Date_readable schedule then
            if existsb (is_assignment device patchId) (patch_assignments w)
               || existsb (fun patch => Z.eqb (patch_row_id patch) patchId) (patches w)
            then (Resolved tt,
                  with_assignments
                    (approved device patchId schedule (patch_assignments w)) rest w)
            else (Rejected, with_assignments (patch_assignments w) rest w)
          else (Rejected, with_assignments (patch_assignments w) rest w)
      | None => (Rejected, with_assignments (patch_assignments w) rest w)
      end.



Inductive ResponseBody : Type :=
| error_body (error : string)
| message_body (message : string).

Record Response : Type := {
  status_code : Z;
  response_body : ResponseBody
}.

Definition internal_error : Response :=
  {| status_code := 500; response_body := error_body "internal_error" |}.

(** The body of POST /api/patches/approve. *)
Record Approval : Type := {
  patch_id : js Z;
  device_ids : js (list string);
  approval_schedule_at : js string
}.

(** [for (const deviceId of device_ids) { await pool.query(...) }] *)
Fixpoint for_devices (Date_readable : string -> bool) (deviceIds : list string)
    (patchId : Z) (schedule : option instant) : Async World unit :=
  match deviceIds with
  | [] => ret tt
  | deviceId :: rest =>
      await _ <- upsert_assignment Date_readable deviceId patchId schedule in
      for_devices Date_readable rest patchId schedule
  end.

(** app.post('/api/patches/approve', ...) *)
Definition post_api_patches_approve (Date_readable : string -> bool) (req : Approval)
    : Async World Response :=
  if negb (truthy_int (patch_id req)) || negb (isArray (device_ids req))
     || (length (elements (device_ids req)) =? 0)%nat
  then
    ret {| status_code := 400;
           response_body :=
             error_body "patch_id and at least one device_id are required" |}
  else
    let schedule :=
      if truthy_string (approval_schedule_at req)
      then Some (date_of (text_of (approval_schedule_at req)))
      else None in
    try_catch
      (await _ <- for_devices Date_readable (elements (device_ids req))
                    (match patch_id req with val n => n | _ => 0 end) schedule in
       ret {| status_code := 201; response_body := message_body "patch approved" |})
      (ret internal_error).



(** *** Vocabulary of the statements *)

(** The assignment of a patch to a device, if there is one. *)
Definition assignment (deviceId : string) (patchId : Z) (w : World) : option Assignment :=
  find (is_assignment deviceId patchId) (patch_assignments w).

(** The assignment of [patchId] to [deviceId] once it is approved for
    [schedule], given what was assigned before. *)
Definition approved_from (deviceId : string) (patchId : Z) (schedule : option instant)
    (before : option Assignment) : Assignment :=
  {| assigned_device := deviceId;
     assigned_patch := patchId;
     schedule_at := schedule;
     status := "approved";
     installed_at := match before with Some row => installed_at row | None => None end;
     error_message := match before with Some row => error_message row | None => None end |}.


(** The schedule an approval asks for. *)
Definition schedule_of (req : Approval) : option instant :=
  if truthy_string (approval_schedule_at req)
  then Some (date_of (text_of (approval_schedule_at req)))
  else None.

(** *** A sample store *)

Definition laptop_id : string := "0b9f3a52-6f0e-4c43-9d55-7a1e2c8f4b10".
Definition server_id : string := "5d2c7e11-93ab-4f6a-8c0d-1e4b6a7f9c21".

(** The same ids as a dashboard and an agent write them. *)
Definition laptop_capitals : string := "0B9F3A52-6F0E-4C43-9D55-7A1E2C8F4B10".
Definition server_braces : string := "{5d2c7e11-93ab-4f6a-8c0d-1e4b6a7f9c21}".

Definition security_update : PatchRow :=
  {| patch_row_id := 1; patch_name := "KB5012170: Security Update";
     patch_vendor := "Microsoft"; severity := Some "critical";
     release_date := Some "2025-10-12";
     patch_description := Some "Security update for Windows Server" |}.

(** The security update is installed on the laptop. *)
Definition installed_on_laptop : Assignment :=
  {| assigned_device := laptop_id; assigned_patch := 1;
     schedule_at := Some (date_of "2025-10-20T02:00:00Z"); status := "success";
     installed_at := Some (clock_reading 7); error_message := None |}.

Definition sample_world : World :=
  {| patches := [security_update];
     patch_assignments := [installed_on_laptop];
     pool_faults := [];
     clock_reads := 8 |}.

Definition sample_approval : Approval :=
  {| patch_id := val 1; device_ids := val [laptop_capitals; server_braces];
     approval_schedule_at := val "2025-11-02T03:00:00Z" |}.

(** The texts of the samples that make a date. *)
Definition sample_dates (text : string) : bool :=
  String.eqb text "2025-10-20T02:00:00Z" || String.eqb text "2025-11-02T03:00:00Z".

End Patches.
(** * Properties *)

(** ** Promises *)

Lemma bind_resolved {W A B : Type} (m : Async W A) (k : A -> Async W B) w a w' :
  m w = (Resolved a, w') -> bind m k w = k a w'.
Proof. intros H. unfold bind. rewrite H. reflexivity. Qed.

Lemma bind_rejected {W A B : Type} (m : Async W A) (k : A -> Async W B) w w' :
  m w = (Rejected, w') -> bind m k w = (Rejected, w').
Proof. intros H. unfold bind. rewrite H. reflexivity. Qed.

Lemma try_catch_resolved {W A : Type} (m h : Async W A) w a w' :
  m w = (Resolved a, w') -> try_catch m h w = (Resolved a, w').
Proof. intros H. unfold try_catch. rewrite H. reflexivity. Qed.

Lemma try_catch_rejected {W A : Type} (m h : Async W A) w w' :
  m w = (Rejected, w') -> try_catch m h w = h w'.
Proof. intros H. unfold try_catch. rewrite H. reflexivity. Qed.

Lemma drop_length_app {A : Type} (l k : list A) : drop (length l) (l ++ k) = k.
Proof. induction l as [|x l IH]; simpl; [reflexivity | exact IH]. Qed.

(** ** Lists *)

Lemma find_snoc {A : Type} (p : A -> bool) l r :
  find p (l ++ [r]) =
    match find p l with
    | Some x => Some x
    | None => if p r then Some r else None
    end.
Proof.
  induction l as [|x l IH]; simpl.
  - reflexivity.
  - destruct (p x); [reflexivity | exact IH].
Qed.

Lemma find_none_existsb {A : Type} (p : A -> bool) l :
  find p l = None <-> existsb p l = false.
Proof.
  induction l as [|x l IH]; simpl.
  - split; reflexivity.
  - destruct (p x); simpl; [split; discriminate | exact IH].
Qed.

(** ** Rule evaluation *)

Module IngestionFacts.
Import Ingestion.

Section Evaluation.

Variable Number_toString : float -> string.

(** [sendAlert] never rejects: the request is attempted once, delivered or
    not, and nothing else changes. *)
Lemma sendAlert_attempts payload w :
  exists r, body r = payload /\
    sendAlert payload w =
      (Resolved tt,
       {| ALERT_SERVICE_URL := ALERT_SERVICE_URL w;
          alert_rules := alert_rules w;
          pool_faults := pool_faults w;
          net_faults := snd (next_fault (net_faults w));
          requests := requests w ++ [r] |}).
Proof.
  unfold sendAlert, try_catch, axios_post, ret.
  destruct (next_fault (net_faults w)) as [fault rest] eqn:Hnf; simpl.
  destruct fault; eexists; (split; [|reflexivity]); reflexivity.
Qed.

(** The flag computed by the two [if] statements is the comparison of the
    rule. *)
Lemma breach_flag rule v :
  (if String.eqb (comparison rule) "lt" && PrimFloat.ltb v (threshold rule)
   then true
   else if String.eqb (comparison rule) "gt" && PrimFloat.ltb (threshold rule) v
        then true else false) = true
  <-> comparison_holds rule v.
Proof.
  unfold comparison_holds.
  destruct (String.eqb_spec (comparison rule) "lt") as [Hlt|Hlt];
    destruct (String.eqb_spec (comparison rule) "gt") as [Hgt|Hgt];
    destruct (PrimFloat.ltb v (threshold rule));
    destruct (PrimFloat.ltb (threshold rule) v); simpl;
    try (rewrite Hlt in Hgt; discriminate); intuition congruence.
Qed.

Lemma getDefaultSuggestion_table m :
  getDefaultSuggestion m =
    match default_suggestions !! m with
    | Some s => s
    | None => generic_suggestion
    end.
Proof.
  unfold getDefaultSuggestion, default_suggestions. simpl.
  destruct (String.eqb_spec m "cpu") as [->|H1]; [reflexivity|].
  destruct (String.eqb_spec m "memory") as [->|H2]; [reflexivity|].
  destruct (String.eqb_spec m "disk") as [->|H3]; [reflexivity|].
  destruct (String.eqb_spec m "latency") as [->|H4]; [reflexivity|].
  rewrite !lookup_insert_ne by congruence. rewrite lookup_empty. reflexivity.
Qed.

Lemma for_rules_emits deviceId metrics rules :
  forall w, exists w' sent,
    for_rules Number_toString deviceId metrics rules w = (Resolved tt, w') /\
    requests w' = requests w ++ sent /\
    alert_rules w' = alert_rules w /\
    pool_faults w' = pool_faults w /\
    Emits Number_toString deviceId metrics rules (map body sent).
Proof.
  induction rules as [|rule rules IH]; intros w.
  - exists w, []. simpl. rewrite app_nil_r. repeat split; constructor.
  - simpl.
    destruct (metrics !! metric rule) as [[v|]|] eqn:Hv.
    + match goal with |- context [if ?b then _ else _] => destruct b eqn:Hb end.
      * apply breach_flag in Hb.
        match goal with |- context [sendAlert ?p] =>
          destruct (sendAlert_attempts p w) as (r & Hr & Hs) end.
        match type of Hs with _ = (_, ?w1) =>
          destruct (IH w1) as (w' & sent & Hrun & Hreq & Hrules & Hpool & Hem) end.
        exists w', (r :: sent).
        rewrite (bind_resolved _ _ _ _ _ Hs), Hrun.
        simpl in Hreq, Hrules, Hpool.
        rewrite Hreq, <- app_assoc. simpl.
        repeat split; try assumption.
        eapply Emits_fire; eauto.
        rewrite Hr. unfold reports, resolved_suggestion, resolved_description. simpl.
        rewrite getDefaultSuggestion_table. repeat split.
      * destruct (IH w) as (w' & sent & Hrun & Hreq & Hrules & Hpool & Hem).
        exists w', sent. repeat split; try assumption.
        apply Emits_skip; [|assumption].
        intros (v' & Hv' & Hc). rewrite Hv in Hv'. injection Hv' as <-.
        apply breach_flag in Hc. rewrite Hc in Hb. discriminate.
    + destruct (IH w) as (w' & sent & Hrun & Hreq & Hrules & Hpool & Hem).
      exists w', sent. repeat split; try assumption.
      apply Emits_skip; [|assumption].
      intros (v' & Hv' & _). rewrite Hv in Hv'. discriminate.
    + destruct (IH w) as (w' & sent & Hrun & Hreq & Hrules & Hpool & Hem).
      exists w', sent. repeat split; try assumption.
      apply Emits_skip; [|assumption].
      intros (v' & Hv' & _). rewrite Hv in Hv'. discriminate.
Qed.

(** With the rule set readable, [evaluateRules] resolves and has sent what a
    pass over the stored rules emits. *)
Lemma evaluateRules_emits deviceId metrics w :
  pool_answers w ->
  exists w',
    evaluateRules Number_toString deviceId metrics w = (Resolved tt, w') /\
    Emits Number_toString deviceId metrics (alert_rules w) (emitted w w').
Proof.
  intros Hp. unfold evaluateRules, pool_answers in *.
  assert (Hsel : exists w1, select_alert_rules w = (Resolved (alert_rules w), w1) /\
                   requests w1 = requests w).
  { unfold select_alert_rules.
    destruct (next_fault (pool_faults w)) as [fault rest]. simpl in Hp. subst fault.
    eexists. split; reflexivity. }
  destruct Hsel as (w1 & Hsel & Hreq1).
  destruct (for_rules_emits deviceId metrics (alert_rules w) w1)
    as (w' & sent & Hrun & Hreq & _ & _ & Hem).
  exists w'. split.
  - apply try_catch_resolved. rewrite (bind_resolved _ _ _ _ _ Hsel). exact Hrun.
  - unfold emitted. rewrite Hreq, Hreq1, drop_length_app. exact Hem.
Qed.

(** When the rules cannot be read the evaluation still resolves, and has
    sent nothing. *)
Lemma evaluateRules_store_down deviceId metrics w :
  fst (next_fault (pool_faults w)) = true ->
  fst (evaluateRules Number_toString deviceId metrics w) = Resolved tt /\
  requests (snd (evaluateRules Number_toString deviceId metrics w)) = requests w.
Proof.
  intros Hf.
  assert (Hsel : exists w1, select_alert_rules w = (Rejected, w1) /\
                   requests w1 = requests w).
  { unfold select_alert_rules.
    destruct (next_fault (pool_faults w)) as [fault rest]. simpl in Hf. subst fault.
    eexists. split; reflexivity. }
  destruct Hsel as (w1 & Hsel & Hreq).
  unfold evaluateRules.
  rewrite (try_catch_rejected _ _ _ _ (bind_rejected _ _ _ _ Hsel)).
  split; [reflexivity | exact Hreq].
Qed.

(** Every intent of a pass stems from one of the rules. *)
Lemma Emits_origin deviceId metrics rules intents :
  Emits Number_toString deviceId metrics rules intents ->
  forall a, In a intents ->
    exists rule v, In rule rules /\ metrics !! metric rule = Some (Some v) /\
      comparison_holds rule v /\ reports Number_toString deviceId rule v a.
Proof.
  induction 1 as [|rule rules intents Hn _ IH|rule v a rules intents Hv Hc Hr _ IH];
    intros b Hb.
  - destruct Hb.
  - destruct (IH b Hb) as (r & u & Hin & Hrest). exists r, u. split; [right|]; assumption.
  - destruct Hb as [<-|Hb].
    + exists rule, v. repeat split; try assumption; try (left; reflexivity); apply Hr.
    + destruct (IH b Hb) as (r & u & Hin & Hrest). exists r, u. split; [right|]; assumption.
Qed.

(** Every breached rule of a pass has its intent among those sent. *)
Lemma Emits_breached deviceId metrics rules intents :
  Emits Number_toString deviceId metrics rules intents ->
  forall rule v, In rule rules -> metrics !! metric rule = Some (Some v) ->
    comparison_holds rule v ->
    exists a, In a intents /\ reports Number_toString deviceId rule v a.
Proof.
  induction 1 as [|rule rules intents Hn _ IH|rule v a rules intents Hv Hc Hr _ IH];
    intros r u Hin Hu Hcu.
  - destruct Hin.
  - destruct Hin as [<-|Hin].
    + exfalso. apply Hn. exists u. split; assumption.
    + apply (IH r u Hin Hu Hcu).
  - destruct Hin as [<-|Hin].
    + rewrite Hv in Hu. injection Hu as <-. exists a. split; [left; reflexivity | exact Hr].
    + destruct (IH r u Hin Hu Hcu) as (b & Hb & Hrb). exists b. split; [right|]; assumption.
Qed.

(** A pass sends nothing on behalf of an id that none of its rules has. *)
Lemma Emits_foreign deviceId metrics rules intents rid :
  Emits Number_toString deviceId metrics rules intents ->
  ~ In rid (map id rules) ->
  alerts_of_rule rid intents = 0%nat.
Proof.
  intros Hem Hrid. unfold alerts_of_rule.
  assert (Hnone : forall a, In a intents -> Z.eqb (rule_id a) rid = false).
  { intros a Ha. destruct (Emits_origin _ _ _ _ Hem a Ha) as (r & u & Hin & _ & _ & Hr).
    apply Z.eqb_neq. intros Heq. apply Hrid.
    destruct Hr as (_ & _ & _ & _ & Hid & _). rewrite <- Heq, Hid.
    apply in_map. exact Hin. }
  clear Hem. induction intents as [|a intents IH]; [reflexivity|].
  simpl. rewrite (Hnone a (or_introl eq_refl)). apply IH.
  intros b Hb. apply Hnone. right. exact Hb.
Qed.

(** With ids that are a key of the rules, a pass sends one intent for a
    breached rule and none for any other rule. *)
Lemma Emits_count deviceId metrics rules intents :
  Emits Number_toString deviceId metrics rules intents ->
  List.NoDup (map id rules) ->
  forall rule, In rule rules ->
    (breached_by metrics rule -> alerts_of_rule (id rule) intents = 1%nat) /\
    (~ breached_by metrics rule -> alerts_of_rule (id rule) intents = 0%nat).
Proof.
  induction 1 as [|rule rules intents Hn Hem IH|rule v a rules intents Hv Hc Hr Hem IH];
    intros Hnd r Hin.
  - destruct Hin.
  - simpl in Hnd. apply NoDup_cons_iff in Hnd as [Hfresh Hnd].
    destruct Hin as [<-|Hin].
    + split; [intros Hb; contradiction|].
      intros _. apply (Emits_foreign _ _ _ _ _ Hem Hfresh).
    + apply (IH Hnd r Hin).
  - simpl in Hnd. apply NoDup_cons_iff in Hnd as [Hfresh Hnd].
    assert (Hida : rule_id a = id rule) by apply Hr.
    destruct Hin as [<-|Hin].
    + split.
      * intros _. unfold alerts_of_rule. simpl. rewrite Hida, Z.eqb_refl. simpl.
        f_equal. apply (Emits_foreign _ _ _ _ _ Hem Hfresh).
      * intros Hnb. exfalso. apply Hnb. exists v. split; assumption.
    + assert (Hne : Z.eqb (rule_id a) (id r) = false).
      { apply Z.eqb_neq. intros Heq. apply Hfresh. rewrite <- Hida, Heq.
        apply in_map. exact Hin. }
      unfold alerts_of_rule. simpl. rewrite Hne. apply (IH Hnd r Hin).
Qed.

(** C1. Whatever the sample and the stored rules (their ids being the key of
    the table), once the rules are read the evaluation resolves, and it has
    sent exactly one alert intent for every rule whose metric is present in
    the sample (neither undefined nor null) and whose comparison holds, the
    intent carrying the device, the metric, the observed value, the threshold
    and the rule id; it has sent none for a rule that is not breached, in
    particular none for a rule whose metric is absent or null; every intent
    sent stems from a breached rule; and no rule means no intent. *)
Theorem evaluateRules_one_alert_per_breached_rule deviceId metrics w :
  pool_answers w ->
  List.NoDup (map id (alert_rules w)) ->
  exists w',
    evaluateRules Number_toString deviceId metrics w = (Resolved tt, w') /\
    (forall rule, In rule (alert_rules w) ->
       (forall v, metrics !! metric rule = Some (Some v) -> comparison_holds rule v ->
          alerts_of_rule (id rule) (emitted w w') = 1%nat /\
          exists a, In a (emitted w w') /\ device_id a = deviceId /\
            alert_metric a = metric rule /\ value a = v /\
            alert_threshold a = threshold rule /\ rule_id a = id rule) /\
       (~ breached_by metrics rule ->
          alerts_of_rule (id rule) (emitted w w') = 0%nat) /\
       (metrics !! metric rule = None \/ metrics !! metric rule = Some None ->
          alerts_of_rule (id rule) (emitted w w') = 0%nat)) /\
    (forall a, In a (emitted w w') ->
       exists rule, In rule (alert_rules w) /\ breached_by metrics rule /\
         rule_id a = id rule) /\
    (alert_rules w = [] -> emitted w w' = []).
Proof.
  intros Hp Hnd.
  destruct (evaluateRules_emits deviceId metrics w Hp) as (w' & Hrun & Hem).
  exists w'. split; [exact Hrun|]. split; [|split].
  - intros rule Hin.
    destruct (Emits_count _ _ _ _ Hem Hnd rule Hin) as [Hone Hzero].
    split; [|split].
    + intros v Hv Hc. split.
      * apply Hone. exists v. split; assumption.
      * destruct (Emits_breached _ _ _ _ Hem rule v Hin Hv Hc) as (a & Ha & Hr).
        exists a. split; [exact Ha|].
        destruct Hr as (H1 & H2 & H3 & H4 & H5 & _). repeat split; assumption.
    + exact Hzero.
    + intros Habs. apply Hzero. intros (v & Hv & _).
      destruct Habs as [Habs|Habs]; rewrite Habs in Hv; discriminate.
  - intros a Ha.
    destruct (Emits_origin _ _ _ _ Hem a Ha) as (rule & v & Hin & Hv & Hc & Hr).
    exists rule. split; [exact Hin|]. split; [exists v; split; assumption|].
    apply Hr.
  - intros Hnil. rewrite Hnil in Hem. inversion Hem. reflexivity.
Qed.

(** C8. For every breached rule an intent is sent whose suggestion is the
    rule's own when it has one, else the entry of the per-metric table (cpu,
    memory, disk, latency), else the generic fallback; and whose description
    is the rule's own when it has one, else the sentence
    Metric <metric> <comparison> threshold <threshold>.  Every intent sent
    is resolved this way from the rule it stems from. *)
Theorem breach_intent_suggestion_and_description deviceId metrics w :
  pool_answers w ->
  exists w',
    evaluateRules Number_toString deviceId metrics w = (Resolved tt, w') /\
    (forall rule v, In rule (alert_rules w) ->
       metrics !! metric rule = Some (Some v) -> comparison_holds rule v ->
       exists a, In a (emitted w w') /\ rule_id a = id rule /\ value a = v /\
         (forall own, suggestion rule = Some own -> alert_suggestion a = own) /\
         (suggestion rule = None ->
            forall s, default_suggestions !! metric rule = Some s ->
              alert_suggestion a = s) /\
         (suggestion rule = None -> default_suggestions !! metric rule = None ->
            alert_suggestion a = generic_suggestion) /\
         (forall own, description rule = Some own -> alert_description a = own) /\
         (description rule = None ->
            alert_description a =
              ("Metric " ++ metric rule ++ " " ++ comparison rule ++ " threshold " ++
               Number_toString (threshold rule))%string)) /\
    (forall a, In a (emitted w w') ->
       exists rule, In rule (alert_rules w) /\ rule_id a = id rule /\
         alert_suggestion a = resolved_suggestion rule /\
         alert_description a = resolved_description Number_toString rule) /\
    dom default_suggestions = {["cpu"; "memory"; "disk"; "latency"]}.
Proof.
  intros Hp.
  destruct (evaluateRules_emits deviceId metrics w Hp) as (w' & Hrun & Hem).
  exists w'. split; [exact Hrun|]. split; [|split].
  - intros rule v Hin Hv Hc.
    destruct (Emits_breached _ _ _ _ Hem rule v Hin Hv Hc) as (a & Ha & Hr).
    exists a. split; [exact Ha|].
    destruct Hr as (_ & _ & Hval & _ & Hid & Hs & Hd).
    split; [exact Hid|]. split; [exact Hval|].
    unfold resolved_suggestion in Hs. unfold resolved_description in Hd.
    repeat split.
    + intros own Hown. rewrite Hown in Hs. exact Hs.
    + intros Hnone s Hlook. rewrite Hnone, Hlook in Hs. exact Hs.
    + intros Hnone Hlook. rewrite Hnone, Hlook in Hs. exact Hs.
    + intros own Hown. rewrite Hown in Hd. exact Hd.
    + intros Hnone. rewrite Hnone in Hd. exact Hd.
  - intros a Ha.
    destruct (Emits_origin _ _ _ _ Hem a Ha) as (rule & v & Hin & _ & _ & Hr).
    exists rule. split; [exact Hin|].
    destruct Hr as (_ & _ & _ & _ & Hid & Hs & Hd). repeat split; assumption.
  - unfold default_suggestions. simpl. rewrite !dom_insert_L, dom_empty_L.
    set_solver.
Qed.

End Evaluation.

Lemma sample_cpu_breached :
  sample_metrics !! metric cpu_rule = Some (Some 92%float) /\
  comparison_holds cpu_rule 92%float.
Proof. split; [reflexivity | left; split; reflexivity]. Qed.

(** On the sample, the cpu rule is breached (92 > 85) and the alert service
    is unreachable: one intent is attempted for rule 1 all the same. *)
Lemma evaluateRules_sample_cpu :
  alerts_of_rule 1
    (emitted sample_world
       (snd (evaluateRules sample_toString "device-1" sample_metrics sample_world)))
  = 1%nat.
Proof.
  destruct (evaluateRules_one_alert_per_breached_rule sample_toString "device-1"
              sample_metrics sample_world)
    as (w' & Hrun & Hrules & _).
  - reflexivity.
  - vm_compute. repeat constructor; simpl; intuition discriminate.
  - rewrite Hrun. simpl.
    destruct (Hrules cpu_rule (or_introl eq_refl)) as (Hone & _).
    destruct sample_cpu_breached as [Hv Hc].
    exact (proj1 (Hone _ Hv Hc)).
Defined.

(** On the sample, the intent of the cpu rule takes the table's suggestion
    and the synthesized description. *)
Lemma sample_cpu_intent_resolution :
  exists a,
    In a (emitted sample_world
            (snd (evaluateRules sample_toString "device-1" sample_metrics sample_world))) /\
    alert_suggestion a =
      "Investigate high CPU usage by reviewing running processes and workloads." /\
    alert_description a = "Metric cpu gt threshold 85".
Proof.
  destruct (breach_intent_suggestion_and_description sample_toString "device-1"
              sample_metrics sample_world)
    as (w' & Hrun & Hrules & _).
  - reflexivity.
  - rewrite Hrun. simpl.
    destruct sample_cpu_breached as [Hv Hc].
    destruct (Hrules cpu_rule _ (or_introl eq_refl) Hv Hc)
      as (a & Ha & _ & _ & _ & Htab & _ & _ & Hdesc).
    exists a. split; [exact Ha|]. split.
    + apply Htab; reflexivity.
    + apply Hdesc. reflexivity.
Defined.

End IngestionFacts.

(** ** Alert sink *)

Module AlertsFacts.
Import Alerts.

(** What a notification step leaves behind: the store as it was, and one
    attempt more when the channel is configured. *)
Lemma notify_attempts target req w :
  notify target req w =
    (Resolved tt,
     if negb (String.eqb target "") then
       with_network (snd (next_fault (net_faults w)))
         (requests w ++ attempts [target] (webhook_body req) (net_faults w)) w
     else w).
Proof.
  unfold notify. destruct (negb (String.eqb target "")); [|reflexivity].
  unfold try_catch, axios_post, ret. simpl.
  destruct (next_fault (net_faults w)) as [fault rest]. simpl.
  destruct fault; reflexivity.
Qed.

Lemma attempts_urls targets payload faults :
  map url (attempts targets payload faults) = targets.
Proof.
  revert faults. induction targets as [|t ts IH]; intros faults; simpl.
  - reflexivity.
  - f_equal. apply IH.
Qed.


(** The three notification steps in a row make the attempts for the
    configured channels and touch nothing of the store. *)
Lemma fan_out req w (k : Async World Response) :
  (await _ <- notify (EMAIL_WEBHOOK_URL w) req in
   await _ <- notify (SMS_WEBHOOK_URL w) req in
   await _ <- notify (ITSM_WEBHOOK_URL w) req in k) w =
  k (with_network
       (fold_left (fun fs _ => snd (next_fault fs)) (configured_channels w) (net_faults w))
       (requests w ++ attempts (configured_channels w) (webhook_body req) (net_faults w))
       w).
Proof.
  unfold configured_channels, bind. rewrite !notify_attempts. simpl.
  destruct w as [itsm email sms rules rows seq pf nf reqs]. simpl.
  destruct (negb (String.eqb email "")), (negb (String.eqb sms "")),
    (negb (String.eqb itsm "")); simpl;
    unfold with_network; simpl; rewrite <- ?app_assoc, ?app_nil_r; reflexivity.
Qed.

(** The INSERT of an intent the store takes. *)
Lemma insert_alert_taken req w :
  well_formed req -> persists req w ->
  exists v t,
    value req = val v /\ threshold req = val t /\
    insert_alert (text_of (device_id req)) (text_of (metric req))
      (value req) (threshold req) (or_null (rule_id req))
      (or_null (suggestion req)) (or_null (description req)) w =
      (Resolved tt,
       with_store (alerts w ++ [row_of req v t w]) (alerts_id_seq w + 1)
         (snd (next_fault (pool_faults w))) w).
Proof.
  intros (_ & _ & Hv & Ht) (Hp & (device & Hu) & Hvn & Htn & Hfk).
  unfold insert_alert, row_of, printed.
  destruct (next_fault (pool_faults w)) as [fault rest]. simpl in Hp. subst fault.
  rewrite Hu. simpl.
  assert (Hint : int4_or_null (or_null (rule_id req)) = true).
  { destruct (rule_id req) as [| |r]; simpl; try reflexivity. apply Hfk. }
  assert (Hex : match or_null (rule_id req) with
                | Some r => existsb (fun rule => Z.eqb (id rule) r) (alert_rules w)
                | None => true
                end = true).
  { destruct (rule_id req) as [| |r]; simpl; try reflexivity.
    destruct Hfk as (_ & rule & Hin & Hid). apply existsb_exists.
    exists rule. split; [exact Hin | apply Z.eqb_eq; exact Hid]. }
  rewrite Hint, Hex.
  destruct (value req) as [| |v] eqn:Ev.
  - congruence.
  - congruence.
  - destruct (threshold req) as [| |t] eqn:Et.
    + congruence.
    + congruence.
    + exists v, t. repeat split.
Qed.


(** A body that lacks a required field is answered 400 and leaves no
    trace. *)
Lemma post_api_alerts_incomplete req w :
  truthy_string (device_id req) = false \/ truthy_string (metric req) = false \/
  value req = undefined \/ threshold req = undefined ->
  post_api_alerts req w =
    (Resolved {| status_code := 400;
                 response_body :=
                   error_body "device_id, metric, value and threshold are required" |},
     w).
Proof.
  intros H. unfold post_api_alerts.
  destruct H as [H|[H|[H|H]]]; rewrite H; simpl;
    rewrite ?orb_true_r; reflexivity.
Qed.

(** When the store does not take the row the answer is 500, and no channel
    is notified of an alert that was not persisted. *)
Lemma post_api_alerts_not_persisted req w :
  well_formed req ->
  fst (next_fault (pool_faults w)) = true \/ value req = null \/ threshold req = null ->
  fst (post_api_alerts req w) =
    Resolved {| status_code := 500; response_body := error_body "internal_error" |} /\
  alerts (snd (post_api_alerts req w)) = alerts w /\
  requests (snd (post_api_alerts req w)) = requests w.
Proof.
  intros (Hd & Hm & Hv & Ht) Hno.
  assert (Hins : exists w1,
             insert_alert (text_of (device_id req)) (text_of (metric req))
               (value req) (threshold req) (or_null (rule_id req))
               (or_null (suggestion req)) (or_null (description req)) w =
               (Rejected, w1) /\
             alerts w1 = alerts w /\ requests w1 = requests w).
  { unfold insert_alert.
    destruct (next_fault (pool_faults w)) as [fault rest]. simpl in Hno.
    destruct fault; [eexists; repeat split|].
    destruct (uuid_in (text_of (device_id req))); [|eexists; repeat split].
    destruct (int4_or_null (or_null (rule_id req))); [|eexists; repeat split].
    destruct Hno as [Hno|[Hno|Hno]]; [discriminate| |].
    - rewrite Hno. eexists; repeat split.
    - rewrite Hno. destruct (value req); eexists; repeat split. }
  destruct Hins as (w1 & Hins & Ha & Hr).
  unfold post_api_alerts. rewrite Hd, Hm. simpl.
  destruct (value req) as [| |v]; [congruence| |];
    (destruct (threshold req) as [| |t]; [congruence| |]); simpl;
    rewrite (try_catch_rejected _ _ _ _ (bind_rejected _ _ _ _ Hins));
    repeat split; assumption.
Qed.








End AlertsFacts.

(** ** Workflow engine *)

Module AutomationFacts.
Import Automation.

Lemma with_faults_same w : with_faults (pool_faults w) w = w.
Proof. destruct w; reflexivity. Qed.

(** A healthy store runs the statement, and stays healthy. *)
Lemma pool_query_healthy {A : Type} (statement : Async World A) w :
  healthy w -> pool_query statement w = statement w.
Proof.
  unfold healthy, pool_query. intros H. rewrite H. simpl.
  rewrite <- H, with_faults_same. reflexivity.
Qed.

(** *** The action executor *)

Lemma doAction_cases a event :
  exists r,
    outcome_of event a r /\
    action r = action_type a /\
    (In (action_type a) recognized -> status r = "success") /\
    (~ In (action_type a) recognized ->
       status r = "unknown" /\ message r = "unknown action").
Proof.
  unfold outcome_of, doAction, recognized, ret.
  destruct (String.eqb_spec (action_type a) "run_script") as [E1|N1];
    [eexists; split; [reflexivity|]; simpl; rewrite E1; intuition|].
  destruct (String.eqb_spec (action_type a) "restart_service") as [E2|N2];
    [eexists; split; [reflexivity|]; simpl; rewrite E2; intuition|].
  destruct (String.eqb_spec (action_type a) "isolate_device") as [E3|N3];
    [eexists; split; [reflexivity|]; simpl; rewrite E3; intuition|].
  destruct (String.eqb_spec (action_type a) "notify") as [E4|N4];
    [eexists; split; [reflexivity|]; simpl; rewrite E4; intuition|].
  destruct (String.eqb_spec (action_type a) "send_notification") as [E5|N5];
    [eexists; split; [reflexivity|]; simpl; rewrite E5; intuition|].
  destruct (String.eqb_spec (action_type a) "create_ticket") as [E6|N6];
    [eexists; split; [reflexivity|]; simpl; rewrite E6; intuition|].
  eexists; split; [reflexivity|]. simpl. intuition congruence.
Qed.

Lemma outcome_of_unique event action r1 r2 :
  outcome_of event action r1 -> outcome_of event action r2 -> r1 = r2.
Proof.
  intros H1 H2. specialize (H1 true empty_world). specialize (H2 true empty_world).
  congruence.
Qed.

(** The loop over the actions runs every action, in order, and leaves the
    store alone. *)
Lemma for_actions_outcomes actions event testMode :
  forall results w, exists rs,
    for_actions actions event testMode results w = (Resolved (results ++ rs), w) /\
    Forall2 (outcome_of event) actions rs.
Proof.
  induction actions as [|a actions IH]; intros results w.
  - exists []. simpl. rewrite app_nil_r. split; [reflexivity | constructor].
  - destruct (doAction_cases a event) as (r & Hr & _).
    destruct (IH (results ++ [r]) w) as (rs & Hrun & Hout).
    exists (r :: rs). simpl.
    rewrite (bind_resolved _ _ _ _ _ (Hr testMode w)), Hrun, <- app_assoc.
    split; [reflexivity | constructor; assumption].
Qed.

(** *** ORDER BY id on rows that the sequence numbered *)

Lemma order_by_id_sorted rows :
  StronglySorted Z.lt (map action_id rows) -> order_by_id rows = rows.
Proof.
  induction rows as [|a rows IH]; intros Hs; [reflexivity|].
  simpl in *. apply StronglySorted_inv in Hs as [Hs Hall].
  rewrite (IH Hs). destruct rows as [|b rows]; [reflexivity|].
  simpl. apply Forall_inv in Hall.
  destruct (Z.leb_spec (action_id a) (action_id b)); [reflexivity | lia].
Qed.

Lemma filter_sorted (keep : ActionRow -> bool) rows :
  StronglySorted Z.lt (map action_id rows) ->
  StronglySorted Z.lt (map action_id (List.filter keep rows)).
Proof.
  induction rows as [|a rows IH]; intros Hs; simpl; [constructor|].
  simpl in Hs. apply StronglySorted_inv in Hs as [Hs Hall].
  destruct (keep a); [|apply IH; exact Hs].
  simpl. constructor; [apply IH; exact Hs|].
  rewrite List.Forall_forall in *. intros x Hx. apply Hall.
  apply in_map_iff in Hx as (row & <- & Hrow). apply in_map.
  apply filter_In in Hrow. apply Hrow.
Qed.

Lemma select_actions_stored workflowId w :
  healthy w -> consistent w -> int4 workflowId = true ->
  select_actions workflowId w = (Resolved (stored_actions workflowId w), w).
Proof.
  intros Hh (Hs & _) Hi. unfold select_actions.
  rewrite (pool_query_healthy _ _ Hh), Hi.
  unfold stored_actions. rewrite order_by_id_sorted; [reflexivity|].
  apply filter_sorted. exact Hs.
Qed.


(** *** Executing a workflow *)

Lemma executeWorkflow_test workflowId event w :
  healthy w -> consistent w -> int4 workflowId = true ->
  exists rs,
    executeWorkflow workflowId event true w = (Resolved rs, w) /\
    Forall2 (outcome_of event) (stored_actions workflowId w) rs.
Proof.
  intros Hh Hc Hi. unfold executeWorkflow.
  destruct (for_actions_outcomes (stored_actions workflowId w) event true [] w)
    as (rs & Hrun & Hout).
  exists rs. rewrite (bind_resolved _ _ _ _ _ (select_actions_stored _ _ Hh Hc Hi)).
  rewrite (bind_resolved _ _ _ _ _ Hrun). split; [reflexivity | exact Hout].
Qed.


(** Outside test mode, a workflow with a stored action or more never gets to
    the end of its execution: the outcomes are passed as a JavaScript array
    for the column result, and the store refuses the row. *)
Lemma executeWorkflow_stuck workflowId event w :
  healthy w -> consistent w -> int4 workflowId = true ->
  stored_actions workflowId w <> [] ->
  executeWorkflow workflowId event false w = (Rejected, w).
Proof.
  intros Hh Hc Hi Hsome. unfold executeWorkflow.
  destruct (for_actions_outcomes (stored_actions workflowId w) event false [] w)
    as (rs & Hrun & Hout).
  rewrite (bind_resolved _ _ _ _ _ (select_actions_stored _ _ Hh Hc Hi)).
  rewrite (bind_resolved _ _ _ _ _ Hrun). simpl.
  destruct Hout as [|a r l k _ _]; [contradiction|].
  unfold bind, insert_log. rewrite (pool_query_healthy _ _ Hh). reflexivity.
Qed.



Lemma Forall2_nth_error_left {A B : Type} (R : A -> B -> Prop) l k :
  Forall2 R l k ->
  forall i a, nth_error l i = Some a -> exists b, nth_error k i = Some b /\ R a b.
Proof.
  induction 1 as [|x y l k Hxy _ IH]; intros i a Hi.
  - destruct i; discriminate Hi.
  - destruct i as [|i]; simpl in *.
    + injection Hi as <-. exists y. split; [reflexivity | exact Hxy].
    + apply IH. exact Hi.
Qed.

(** A workflow that does not exist owns no action. *)
Lemma no_workflow_no_actions workflowId w :
  consistent w -> workflow_exists workflowId w = false ->
  stored_actions workflowId w = [].
Proof.
  intros (_ & _ & _ & _ & Hfk) Hno. unfold stored_actions.
  induction (workflow_actions w) as [|row rows IH]; [reflexivity|].
  apply Forall_cons_iff in Hfk as [Hrow Hfk]. simpl.
  unfold of_workflow at 1. destruct (workflow_id row) as [owner|] eqn:Ho;
    [|apply IH; exact Hfk].
  destruct (Z.eqb_spec owner workflowId) as [->|Hne]; [|apply IH; exact Hfk].
  rewrite (Hrow _ eq_refl) in Hno. discriminate Hno.
Qed.


(** C9. Executing an action always resolves, without touching the store; the
    status of the outcome is success when the action type is one of
    run_script, restart_service, isolate_device, notify, send_notification,
    create_ticket, and unknown otherwise.  No outcome has another status: in
    particular none reports a failure. *)
Theorem doAction_status_success_or_unknown (a : ActionRow) event testMode w :
  exists r,
    doAction a event testMode w = (Resolved r, w) /\
    action r = action_type a /\
    (In (action_type a) recognized -> status r = "success") /\
    (~ In (action_type a) recognized -> status r = "unknown") /\
    (status r = "success" \/ status r = "unknown") /\
    status r <> "failure" /\ status r <> "failed" /\ status r <> "error".
Proof.
  destruct (doAction_cases a event) as (r & Hr & Hact & Hyes & Hno).
  exists r. split; [apply Hr|]. split; [exact Hact|].
  split; [exact Hyes|]. split; [intros H; apply Hno; exact H|].
  assert (Hdec : In (action_type a) recognized \/ ~ In (action_type a) recognized).
  { destruct (in_dec String.string_dec (action_type a) recognized); [left|right]; assumption. }
  assert (Hst : status r = "success" \/ status r = "unknown").
  { destruct Hdec as [H|H]; [left; apply Hyes | right; apply Hno]; exact H. }
  split; [exact Hst|].
  destruct Hst as [-> | ->]; repeat split; discriminate.
Qed.

(** C3. In a healthy store whose ids come from the sequences, executing a
    workflow whose id is an INTEGER in test mode resolves with an outcome
    list that has one element for each stored action of the workflow, the
    i-th element being the outcome of the i-th action in insertion order,
    whatever the statuses of the outcomes are.  Outside test mode the
    execution of a workflow with one stored action or more rejects and yields
    no outcome list: the list is passed as a JavaScript array for the JSONB
    column result of the log row, and the store refuses it. *)
Theorem executeWorkflow_outcomes_in_insertion_order workflowId event w :
  healthy w -> consistent w -> int4 workflowId = true ->
  (exists rs,
     executeWorkflow workflowId event true w = (Resolved rs, w) /\
     length rs = length (stored_actions workflowId w) /\
     Forall2 (outcome_of event) (stored_actions workflowId w) rs /\
     (forall i a, nth_error (stored_actions workflowId w) i = Some a ->
        exists r, nth_error rs i = Some r /\
          doAction a event true w = (Resolved r, w))) /\
  (stored_actions workflowId w <> [] ->
     executeWorkflow workflowId event false w = (Rejected, w)).
Proof.
  intros Hh Hc Hi. split.
  - destruct (executeWorkflow_test workflowId event w Hh Hc Hi) as (rs & Hrun & Hout).
    exists rs. split; [exact Hrun|]. split; [|split; [exact Hout|]].
    + symmetry. eapply Forall2_length. exact Hout.
    + intros i a Hnth.
      destruct (Forall2_nth_error_left _ _ _ Hout i a Hnth) as (r & Hr & Ha).
      exists r. split; [exact Hr | apply Ha].
  - apply executeWorkflow_stuck; assumption.
Qed.


(** C7. When a stored action of a workflow (in a healthy store, its id an
    INTEGER) has a type outside the recognized set, executing that action
    resolves with status unknown rather than rejecting, and in test mode the
    execution of the workflow resolves, leaving the store as it was, with
    the outcomes of the actions before it, the unknown outcome, and the
    outcomes of the actions after it.  In non-test mode the log row is not
    written: the execution rejects at the insert of the row, as it does for
    every workflow with a stored action, because the outcome list is passed
    as a JavaScript array for the JSONB column result. *)
Theorem unknown_action_does_not_stop_workflow workflowId event w before a after :
  healthy w -> consistent w -> int4 workflowId = true ->
  stored_actions workflowId w = before ++ a :: after ->
  ~ In (action_type a) recognized ->
  exists rs_before r rs_after,
    (forall testMode, doAction a event testMode w = (Resolved r, w)) /\
    status r = "unknown" /\ action r = action_type a /\
    executeWorkflow workflowId event true w =
      (Resolved (rs_before ++ r :: rs_after), w) /\
    Forall2 (outcome_of event) before rs_before /\
    Forall2 (outcome_of event) after rs_after /\
    executeWorkflow workflowId event false w = (Rejected, w) /\
    workflow_logs (snd (executeWorkflow workflowId event false w)) = workflow_logs w.
Proof.
  intros Hh Hc Hi Hstored Hunk.
  destruct (executeWorkflow_test workflowId event w Hh Hc Hi) as (rs & Hrun & Hout).
  assert (Hstuck : executeWorkflow workflowId event false w = (Rejected, w)).
  { apply executeWorkflow_stuck; try assumption.
    rewrite Hstored. destruct before; discriminate. }
  rewrite Hstored in Hout.
  apply Forall2_app_inv_l in Hout as (rs1 & rs2 & Hb & Hrest & ->).
  inversion Hrest as [|a' r l k Har Hafter]; subst.
  destruct (doAction_cases a event) as (r' & Hr' & Hact & _ & Hno).
  assert (r' = r) as -> by (eapply outcome_of_unique; eassumption).
  exists rs1, r, k. split; [intros testMode; apply Har|].
  split; [apply Hno; exact Hunk|]. split; [exact Hact|].
  split; [exact Hrun|]. split; [exact Hb|]. split; [exact Hafter|].
  split; [exact Hstuck | rewrite Hstuck; reflexivity].
Qed.


(** *** Submitting an event *)




Lemma Forall2_In_right {A B : Type} (R : A -> B -> Prop) l k :
  Forall2 R l k -> forall b, In b k -> exists a, In a l /\ R a b.
Proof.
  induction 1 as [|x y l k Hxy _ IH]; intros b Hb; [destruct Hb|].
  destruct Hb as [<-|Hb].
  - exists x. split; [left; reflexivity | exact Hxy].
  - destruct (IH b Hb) as (a & Ha & Hab). exists a. split; [right|]; assumption.
Qed.



(** *** The handlers keep the store consistent *)

Lemma sorted_snoc (l : list Z) x :
  StronglySorted Z.lt l -> Forall (fun y => y < x) l -> StronglySorted Z.lt (l ++ [x]).
Proof.
  induction l as [|y l IH]; intros Hs Hlt; simpl.
  - repeat constructor.
  - apply StronglySorted_inv in Hs as [Hs Hall].
    apply Forall_cons_iff in Hlt as [Hy Hlt].
    constructor; [apply IH; assumption|].
    apply Forall_app. split; [exact Hall | repeat constructor; exact Hy].
Qed.

Lemma keeps_ret {A : Type} (a : A) : keeps (ret a).
Proof. intros w Hc. exact Hc. Qed.

Lemma keeps_bind {A B : Type} (m : Async World A) (k : A -> Async World B) :
  keeps m -> (forall a, keeps (k a)) -> keeps (bind m k).
Proof.
  intros Hm Hk w Hc. specialize (Hm w Hc). unfold bind.
  destruct (m w) as [[a|] w']; simpl in *; [apply Hk; exact Hm | exact Hm].
Qed.

Lemma keeps_try_catch {A : Type} (m h : Async World A) :
  keeps m -> keeps h -> keeps (try_catch m h).
Proof.
  intros Hm Hh w Hc. specialize (Hm w Hc). unfold try_catch.
  destruct (m w) as [[a|] w']; simpl in *; [exact Hm | apply Hh; exact Hm].
Qed.

Lemma keeps_pool_query {A : Type} (statement : Async World A) :
  keeps statement -> keeps (pool_query statement).
Proof.
  intros Hs w Hc. unfold pool_query.
  destruct (next_fault (pool_faults w)) as [fault rest].
  destruct fault; [exact Hc | apply Hs; exact Hc].
Qed.

Lemma keeps_insert_workflow jsonb_in n t c : keeps (insert_workflow jsonb_in n t c).
Proof.
  apply keeps_pool_query. intros w Hc.
  destruct (as_jsonb jsonb_in c) as [document|]; [|exact Hc].
  destruct Hc as (Ha & Hw & Hseq & Hwseq & Hfk).
  unfold consistent. simpl. rewrite map_app. simpl.
  split; [exact Ha|]. split.
  { apply sorted_snoc; [exact Hw|].
    apply Forall_map. exact Hwseq. }
  split; [exact Hseq|]. split.
  { apply Forall_app. split.
    - eapply List.Forall_impl; [|exact Hwseq]. simpl. intros wf Hlt. lia.
    - repeat constructor. simpl. lia. }
  eapply List.Forall_impl; [|exact Hfk]. simpl. intros row Hrow owner Ho.
  specialize (Hrow owner Ho). unfold workflow_exists in *. simpl.
  rewrite existsb_app, Hrow. reflexivity.
Qed.

Lemma keeps_bump_action_seq w :
  consistent w ->
  consistent (with_actions (workflow_actions w) (workflow_actions_id_seq w + 1) w).
Proof.
  intros (Ha & Hw & Hseq & Hwseq & Hfk). unfold consistent. simpl.
  repeat split; try assumption.
  eapply List.Forall_impl; [|exact Hseq]. simpl. intros row Hlt. lia.
Qed.

Lemma keeps_insert_action workflowId t ps : keeps (insert_action workflowId t ps).
Proof.
  apply keeps_pool_query. intros w Hc.
  destruct (int4 workflowId); [|exact Hc].
  destruct t as [| |type]; try (apply keeps_bump_action_seq; exact Hc).
  destruct (workflow_exists workflowId w) eqn:Hex;
    [|apply keeps_bump_action_seq; exact Hc].
  destruct Hc as (Ha & Hw & Hseq & Hwseq & Hfk).
  unfold consistent. simpl. rewrite map_app. simpl.
  split.
  { apply sorted_snoc; [exact Ha|]. apply Forall_map. exact Hseq. }
  split; [exact Hw|]. split.
  { apply Forall_app. split.
    - eapply List.Forall_impl; [|exact Hseq]. simpl. intros row Hlt. lia.
    - repeat constructor. simpl. lia. }
  split; [exact Hwseq|].
  apply Forall_app. split; [exact Hfk|].
  repeat constructor. simpl. intros owner [= <-]. exact Hex.
Qed.

Lemma keeps_insert_log workflowId event rs : keeps (insert_log workflowId event rs).
Proof.
  apply keeps_pool_query. intros w Hc.
  destruct (array_as_jsonb rs); [|exact Hc].
  destruct (int4 workflowId); [|exact Hc].
  destruct (workflow_exists workflowId w); exact Hc.
Qed.

Lemma keeps_for_actions actions event testMode :
  forall results, keeps (for_actions actions event testMode results).
Proof.
  induction actions as [|a actions IH]; intros results; simpl.
  - apply keeps_ret.
  - apply keeps_bind; [|intros r; apply IH].
    intros w Hc. destruct (doAction_cases a event) as (r & Hr & _).
    rewrite (Hr testMode w). exact Hc.
Qed.

Lemma keeps_executeWorkflow workflowId event testMode :
  keeps (executeWorkflow workflowId event testMode).
Proof.
  unfold executeWorkflow.
  apply keeps_bind;
    [apply keeps_pool_query; intros w Hc; destruct (int4 workflowId); exact Hc|].
  intros actions. apply keeps_bind; [apply keeps_for_actions|].
  intros rs. destruct testMode; simpl; [apply keeps_ret|].
  apply keeps_bind; [apply keeps_insert_log | intros _; apply keeps_ret].
Qed.

Lemma keeps_for_new_actions workflowId specs : keeps (for_new_actions workflowId specs).
Proof.
  induction specs as [|spec specs IH]; simpl; [apply keeps_ret|].
  apply keeps_bind; [apply keeps_insert_action | intros _; exact IH].
Qed.

Lemma keeps_for_workflows event selected :
  forall results, keeps (for_workflows selected event results).
Proof.
  induction selected as [|wf selected IH]; intros results; simpl; [apply keeps_ret|].
  apply keeps_bind; [apply keeps_executeWorkflow | intros rs; apply IH].
Qed.

(** The ids handed out so far are a consequence of how the handlers write:
    the empty store is consistent, and each handler keeps the store
    consistent, whatever the request and whatever queries fail. *)
Lemma handlers_keep_consistency :
  consistent empty_world /\
  (forall jsonb_in req, keeps (post_api_workflows jsonb_in req)) /\
  (forall event, keeps (post_api_events event)) /\
  (forall req, keeps (post_api_workflows_test req)).
Proof.
  split; [repeat split; constructor|]. split; [|split].
  - intros jsonb_in req. unfold post_api_workflows.
    match goal with |- keeps (if ?b then _ else _) => destruct b end;
      [apply keeps_ret|].
    apply keeps_try_catch; [|apply keeps_ret].
    apply keeps_bind; [apply keeps_insert_workflow|]. intros workflowId.
    apply keeps_bind; [apply keeps_for_new_actions|]. intros _.
    destruct (truthy_bool (req_test req)); [|apply keeps_ret].
    apply keeps_bind; [apply keeps_executeWorkflow | intros rs; apply keeps_ret].
  - intros event. unfold post_api_events.
    destruct (negb (truthy_string (event_type event))); [apply keeps_ret|].
    apply keeps_try_catch; [|apply keeps_ret].
    apply keeps_bind; [apply keeps_pool_query; intros w Hc; exact Hc|].
    intros selected. apply keeps_bind; [apply keeps_for_workflows|].
    intros rs. apply keeps_ret.
  - intros req. unfold post_api_workflows_test.
    destruct (negb (truthy_int (test_workflow_id req))); [apply keeps_ret|].
    apply keeps_try_catch; [|apply keeps_ret].
    apply keeps_bind; [apply keeps_executeWorkflow | intros rs; apply keeps_ret].
Qed.

(** *** Creating a workflow *)

Lemma exists_below_seq n w :
  consistent w -> workflow_exists n w = true -> n < workflows_id_seq w.
Proof.
  intros (_ & _ & _ & Hseq & _) Hex. unfold workflow_exists in Hex.
  apply existsb_exists in Hex as (wf & Hin & Heq). apply Z.eqb_eq in Heq. subst n.
  rewrite List.Forall_forall in Hseq. apply Hseq. exact Hin.
Qed.

Lemma fresh_id_owns_nothing w :
  consistent w -> stored_actions (workflows_id_seq w) w = [].
Proof.
  intros Hc. apply no_workflow_no_actions; [exact Hc|].
  destruct (workflow_exists (workflows_id_seq w) w) eqn:Hex; [|reflexivity].
  apply (exists_below_seq _ _ Hc) in Hex. lia.
Qed.

Lemma stored_rows_all_pass workflowId specs rows :
  Forall2 (stores workflowId) specs rows ->
  List.filter (of_workflow workflowId) rows = rows.
Proof.
  induction 1 as [|spec row specs rows (Hown & _) _ IH]; simpl; [reflexivity|].
  unfold of_workflow at 1. rewrite Hown, Z.eqb_refl, IH. reflexivity.
Qed.


(** A store that cannot be reached makes the event endpoint answer 500 and
    execute nothing. *)
Lemma post_api_events_store_down event w rest :
  truthy_string (event_type event) = true -> pool_faults w = true :: rest ->
  post_api_events event w = (Resolved internal_error, with_faults rest w).
Proof.
  intros Ht Hf. unfold post_api_events. rewrite Ht. simpl.
  unfold try_catch, bind, select_workflows, pool_query. rewrite Hf. reflexivity.
Qed.

(** *** The sample scenario *)

Lemma sample_world_consistent : consistent sample_world.
Proof.
  unfold consistent. simpl.
  repeat split; repeat constructor; simpl; try lia;
    intros owner [= <-]; reflexivity.
Qed.

Lemma stranded_world_consistent : consistent stranded_world.
Proof.
  unfold consistent. simpl.
  repeat split; repeat constructor; simpl; try lia;
    intros owner [= <-]; reflexivity.
Qed.


(** Workflow 1 of the sample store yields its three outcomes in insertion
    order in test mode, and rejects outside test mode. *)
Lemma sample_outcomes_in_order :
  fst (executeWorkflow 1 disk_full true sample_world) = Resolved sample_outcomes /\
  executeWorkflow 1 disk_full false sample_world = (Rejected, sample_world).
Proof.
  destruct (executeWorkflow_outcomes_in_insertion_order 1 disk_full sample_world)
    as ((rs & Hrun & _) & Hstuck).
  - reflexivity.
  - exact sample_world_consistent.
  - reflexivity.
  - split; [|apply Hstuck; discriminate].
    rewrite Hrun. vm_compute in Hrun. injection Hrun as <-. reflexivity.
Defined.


(** The unknown action of workflow 1 sits between two recognized ones: all
    three are executed in test mode, and no log row is written outside it. *)
Lemma sample_unknown_action_isolated :
  executeWorkflow 1 disk_full true sample_world = (Resolved sample_outcomes, sample_world) /\
  executeWorkflow 1 disk_full false sample_world = (Rejected, sample_world).
Proof.
  destruct (unknown_action_does_not_stop_workflow 1 disk_full sample_world
              [isolate_row] reboot_row [notify_row])
    as (rs1 & r & rs2 & _ & _ & _ & Hrun & _ & _ & Hstuck & _).
  - reflexivity.
  - exact sample_world_consistent.
  - reflexivity.
  - reflexivity.
  - unfold recognized. simpl. intuition discriminate.
  - split; [|exact Hstuck].
    assert (Hrs : fst (executeWorkflow 1 disk_full true sample_world) =
                  Resolved sample_outcomes) by reflexivity.
    rewrite Hrun in Hrs. simpl in Hrs. injection Hrs as Hrs.
    rewrite Hrs in Hrun. exact Hrun.
Defined.



End AutomationFacts.
(** ** The workflow engine under faults *)

Module EngineFacts.
Import Automation AutomationFacts Engine.

Section Frames.

Variable R : World -> World -> Prop.
Hypothesis R_refl : forall w, R w w.
Hypothesis R_trans : forall a b c, R a b -> R b c -> R a c.
Hypothesis R_faults : forall faults w, R w (with_faults faults w).

Lemma within_ret {A : Type} (a : A) : within R (ret a).
Proof. intros w. apply R_refl. Qed.

Lemma within_bind {A B : Type} (m : Async World A) (k : A -> Async World B) :
  within R m -> (forall a, within R (k a)) -> within R (bind m k).
Proof.
  intros Hm Hk w. specialize (Hm w). unfold bind.
  destruct (m w) as [[a|] w']; simpl in *; [|exact Hm].
  eapply R_trans; [exact Hm | apply Hk].
Qed.

Lemma within_try_catch {A : Type} (m h : Async World A) :
  within R m -> within R h -> within R (try_catch m h).
Proof.
  intros Hm Hh w. specialize (Hm w). unfold try_catch.
  destruct (m w) as [[a|] w']; simpl in *; [exact Hm|].
  eapply R_trans; [exact Hm | apply Hh].
Qed.

Lemma within_pool_query {A : Type} (statement : Async World A) :
  within R statement -> within R (pool_query statement).
Proof.
  intros Hs w. unfold pool_query.
  destruct (next_fault (pool_faults w)) as [fault rest].
  destruct fault; [apply R_faults|].
  eapply R_trans; [apply R_faults | apply Hs].
Qed.

Lemma within_select_actions n : within R (select_actions n).
Proof. apply within_pool_query. intros w. destruct (int4 n); apply R_refl. Qed.

Lemma within_for_actions actions event testMode :
  forall results, within R (for_actions actions event testMode results).
Proof.
  induction actions as [|a actions IH]; intros results; simpl.
  - apply within_ret.
  - apply within_bind; [|intros r; apply IH].
    intros w. destruct (doAction_cases a event) as (r & Hr & _).
    rewrite (Hr testMode w). apply R_refl.
Qed.

Lemma within_executeWorkflow_test n event :
  within R (executeWorkflow n event true).
Proof.
  unfold executeWorkflow. apply within_bind; [apply within_select_actions|].
  intros actions. apply within_bind; [apply within_for_actions|].
  intros rs. apply within_ret.
Qed.

Lemma within_post_api_workflows_test req : within R (post_api_workflows_test req).
Proof.
  unfold post_api_workflows_test.
  destruct (negb (truthy_int (test_workflow_id req))); [apply within_ret|].
  apply within_try_catch; [|apply within_ret].
  apply within_bind; [apply within_executeWorkflow_test | intros rs; apply within_ret].
Qed.

Hypothesis R_log : forall n event rs, within R (insert_log n event rs).

Lemma within_executeWorkflow n event testMode :
  within R (executeWorkflow n event testMode).
Proof.
  destruct testMode; [apply within_executeWorkflow_test|].
  unfold executeWorkflow. apply within_bind; [apply within_select_actions|].
  intros actions. apply within_bind; [apply within_for_actions|].
  intros rs. simpl. apply within_bind; [apply R_log | intros _; apply within_ret].
Qed.

Lemma within_for_workflows event selected :
  forall results, within R (for_workflows selected event results).
Proof.
  induction selected as [|wf selected IH]; intros results; simpl; [apply within_ret|].
  apply within_bind; [apply within_executeWorkflow | intros rs; apply IH].
Qed.

Lemma within_post_api_events event : within R (post_api_events event).
Proof.
  unfold post_api_events.
  destruct (negb (truthy_string (event_type event))); [apply within_ret|].
  apply within_try_catch; [|apply within_ret].
  apply within_bind; [apply within_pool_query; intros w; apply R_refl|].
  intros selected. apply within_bind; [apply within_for_workflows|].
  intros rs. apply within_ret.
Qed.

Hypothesis R_workflow : forall jsonb_in n t c, within R (insert_workflow jsonb_in n t c).
Hypothesis R_action : forall n t ps, within R (insert_action n t ps).

Lemma within_for_new_actions n specs : within R (for_new_actions n specs).
Proof.
  induction specs as [|spec specs IH]; simpl; [apply within_ret|].
  apply within_bind; [apply R_action | intros _; exact IH].
Qed.

Lemma within_post_api_workflows jsonb_in req :
  within R (post_api_workflows jsonb_in req).
Proof.
  unfold post_api_workflows.
  match goal with |- within R (if ?b then _ else _) => destruct b end;
    [apply within_ret|].
  apply within_try_catch; [|apply within_ret].
  apply within_bind; [apply R_workflow|]. intros workflowId.
  apply within_bind; [apply within_for_new_actions|]. intros _.
  destruct (truthy_bool (req_test req)); [|apply within_ret].
  apply within_bind; [apply within_executeWorkflow_test | intros rs; apply within_ret].
Qed.

End Frames.

(** *** Three instances *)

Lemma grows_refl w : grows w w.
Proof. repeat split; reflexivity. Qed.

Lemma grows_trans a b c : grows a b -> grows b c -> grows a c.
Proof.
  intros (H1 & H2 & H3) (K1 & K2 & K3).
  repeat split; etransitivity; eassumption.
Qed.

Lemma grows_faults faults w : grows w (with_faults faults w).
Proof. repeat split; reflexivity. Qed.

Ltac solve_grows :=
  repeat split; simpl; try reflexivity; apply prefix_app_r; reflexivity.

Lemma grows_insert_log n event rs : within grows (insert_log n event rs).
Proof.
  apply (within_pool_query grows grows_trans grows_faults). intros w.
  destruct (array_as_jsonb rs); [|apply grows_refl].
  destruct (int4 n); [|apply grows_refl].
  destruct (workflow_exists n w); solve_grows.
Qed.

Lemma grows_insert_workflow jsonb_in n t c :
  within grows (insert_workflow jsonb_in n t c).
Proof.
  apply (within_pool_query grows grows_trans grows_faults). intros w.
  destruct (as_jsonb jsonb_in c); [solve_grows | apply grows_refl].
Qed.

Lemma grows_insert_action n t ps : within grows (insert_action n t ps).
Proof.
  apply (within_pool_query grows grows_trans grows_faults). intros w.
  destruct (int4 n); [|apply grows_refl].
  destruct t as [| |type]; try solve_grows.
  destruct (workflow_exists n w); solve_grows.
Qed.

Lemma same_definitions_refl w : same_definitions w w.
Proof. split; reflexivity. Qed.

Lemma same_definitions_trans a b c :
  same_definitions a b -> same_definitions b c -> same_definitions a c.
Proof. intros (H1 & H2) (K1 & K2). split; congruence. Qed.

Lemma same_definitions_faults faults w : same_definitions w (with_faults faults w).
Proof. split; reflexivity. Qed.

Lemma same_definitions_insert_log n event rs :
  within same_definitions (insert_log n event rs).
Proof.
  apply (within_pool_query _ same_definitions_trans same_definitions_faults).
  intros w. destruct (array_as_jsonb rs); [|split; reflexivity].
  destruct (int4 n); [|split; reflexivity].
  destruct (workflow_exists n w); split; reflexivity.
Qed.

Lemma same_tables_refl w : same_tables w w.
Proof. repeat split; reflexivity. Qed.

Lemma same_tables_trans a b c : same_tables a b -> same_tables b c -> same_tables a c.
Proof. intros ((H1 & H2) & H3) ((K1 & K2) & K3). repeat split; congruence. Qed.

Lemma same_tables_faults faults w : same_tables w (with_faults faults w).
Proof. repeat split; reflexivity. Qed.

(** X1. The three tables are append-only: whatever the request and whichever
    queries fail, each handler leaves every row that was there in place and
    unchanged, adding rows only at the end. *)
Theorem tables_are_append_only :
  (forall jsonb_in req w, grows w (snd (post_api_workflows jsonb_in req w))) /\
  (forall event w, grows w (snd (post_api_events event w))) /\
  (forall req w, grows w (snd (post_api_workflows_test req w))).
Proof.
  split; [|split].
  - intros jsonb_in req.
    apply (within_post_api_workflows grows grows_refl grows_trans grows_faults).
    + intros reader. apply grows_insert_workflow.
    + apply grows_insert_action.
  - intros event. apply (within_post_api_events grows grows_refl grows_trans grows_faults).
    apply grows_insert_log.
  - intros req.
    apply (within_post_api_workflows_test grows grows_refl grows_trans grows_faults).
Qed.

(** X2. Submitting an event never adds, changes or removes a workflow or an
    action, and the test endpoint writes to no table at all, whatever the
    request and whichever queries fail. *)
Theorem events_and_tests_define_nothing :
  (forall event w, same_definitions w (snd (post_api_events event w))) /\
  (forall req w, same_tables w (snd (post_api_workflows_test req w))).
Proof.
  split.
  - intros event.
    apply (within_post_api_events _ same_definitions_refl same_definitions_trans
             same_definitions_faults).
    apply same_definitions_insert_log.
  - intros req.
    apply (within_post_api_workflows_test _ same_tables_refl same_tables_trans
             same_tables_faults).
Qed.

Lemma serve_keeps jsonb_in call w : consistent w -> consistent (serve jsonb_in call w).
Proof.
  destruct handlers_keep_consistency as (_ & Hcreate & Hsubmit & Htest).
  destruct call; simpl; [apply Hcreate | apply Hsubmit | apply Htest].
Qed.

(** X3. Every store reached from the empty store by any sequence of
    creations, event submissions and tests, under any schedule of failing
    queries, is consistent: action ids and workflow ids increase in insertion
    order and stay below their sequences, and every action belongs to a
    workflow that exists. *)
Theorem reachable_stores_are_consistent jsonb_in calls faults :
  consistent (serve_all jsonb_in calls (with_faults faults empty_world)).
Proof.
  assert (Hstart : consistent (with_faults faults empty_world)).
  { repeat split; constructor. }
  revert Hstart. generalize (with_faults faults empty_world).
  unfold serve_all. induction calls as [|call calls IH]; intros w Hc; simpl.
  - exact Hc.
  - apply IH. apply serve_keeps. exact Hc.
Qed.

(** *** Executions whichever queries fail *)

Lemma select_actions_any n w :
  consistent w ->
  select_actions n w =
    (if fst (next_fault (pool_faults w)) then Rejected
     else if int4 n then Resolved (stored_actions n w) else Rejected,
     with_faults (snd (next_fault (pool_faults w))) w).
Proof.
  intros (Hs & _). unfold select_actions, pool_query.
  destruct (next_fault (pool_faults w)) as [fault rest]. simpl.
  destruct fault; [reflexivity|]. simpl.
  destruct (int4 n); [|reflexivity].
  rewrite order_by_id_sorted; [reflexivity | apply filter_sorted; exact Hs].
Qed.

(** An execution either rejects and logs nothing, or resolves with the
    outcomes of the stored actions; outside test mode it resolves only for a
    workflow without a stored action, with exactly one row more in the log. *)
Lemma executeWorkflow_any n event testMode w :
  consistent w ->
  exists o w',
    executeWorkflow n event testMode w = (o, w') /\
    ((o = Rejected /\ workflow_logs w' = workflow_logs w) \/
     (exists rs,
        o = Resolved rs /\
        Forall2 (outcome_of event) (stored_actions n w) rs /\
        workflow_logs w' =
          workflow_logs w ++ (if testMode then [] else [log_row n event w]) /\
        (testMode = false -> stored_actions n w = [] /\ rs = []))).
Proof.
  intros Hc. unfold executeWorkflow.
  unfold bind at 1. rewrite (select_actions_any n w Hc).
  destruct (next_fault (pool_faults w)) as [fault rest]. simpl.
  destruct fault; [eexists _, _; split; [reflexivity|]; left; split; reflexivity|].
  destruct (int4 n) eqn:Hi;
    [|eexists _, _; split; [reflexivity|]; left; split; reflexivity].
  destruct (for_actions_outcomes (stored_actions n w) event testMode []
              (with_faults rest w)) as (rs & Hrun & Hout).
  rewrite (bind_resolved _ _ _ _ _ Hrun). simpl in *.
  destruct testMode; simpl.
  - eexists _, _. split; [reflexivity|].
    right. exists rs. rewrite app_nil_r. repeat split; [exact Hout | discriminate..].
  - unfold bind, insert_log, pool_query. simpl.
    destruct (next_fault rest) as [fault2 rest2].
    destruct fault2;
      [eexists _, _; split; [reflexivity|]; left; split; reflexivity|].
    destruct Hout as [|a r l k Har Hrest]; simpl;
      [|eexists _, _; split; [reflexivity|]; left; split; reflexivity].
    rewrite Hi.
    change (workflow_exists n (with_faults rest2 (with_faults rest w)))
      with (workflow_exists n w).
    destruct (workflow_exists n w);
      [|eexists _, _; split; [reflexivity|]; left; split; reflexivity].
    eexists _, _. split; [reflexivity|].
    right. exists []. repeat split. constructor.
Qed.

Lemma stored_actions_same n w w' :
  same_definitions w w' -> stored_actions n w' = stored_actions n w.
Proof. intros (_ & Ha). unfold stored_actions. rewrite Ha. reflexivity. Qed.

(** The loop over the selected workflows logs the executions of a prefix of
    them, in order; it resolves only when it has executed them all. *)
Lemma for_workflows_any event selected :
  forall results w,
    consistent w ->
    exists executed rows,
      workflow_logs (snd (for_workflows selected event results w)) =
        workflow_logs w ++ rows /\
      Forall2 (records event) executed rows /\
      Forall (fun res => Forall2 (outcome_of event) (stored_actions (fst res) w) (snd res))
        executed /\
      Forall (fun res => stored_actions (fst res) w = [] /\ snd res = []) executed /\
      map fst executed `prefix_of` map id selected /\
      (fst (for_workflows selected event results w) = Rejected \/
       fst (for_workflows selected event results w) = Resolved (results ++ executed) /\
       map fst executed = map id selected).
Proof.
  induction selected as [|wf selected IH]; intros results w Hc.
  - exists [], []. simpl. rewrite !app_nil_r.
    split; [reflexivity|]. split; [constructor|]. split; [constructor|].
    split; [constructor|]. split; [reflexivity|]. right. split; reflexivity.
  - simpl. unfold bind.
    pose proof (keeps_executeWorkflow (id wf) event false w Hc) as Hc1.
    pose proof (within_executeWorkflow _ same_definitions_refl same_definitions_trans
                  same_definitions_faults same_definitions_insert_log
                  (id wf) event false w) as Hsame.
    destruct (executeWorkflow_any (id wf) event false w Hc) as (o & w1 & E & Hrun).
    rewrite E in *. destruct o as [rs|]; simpl in *.
    + destruct Hrun as [[Hno _]|(rs' & [= <-] & Hout & Hlog & Hidle)]; [discriminate|].
      destruct (Hidle eq_refl) as [Hnone ->].
      destruct (IH (results ++ [(id wf, [])]) w1 Hc1)
        as (executed & rows & Hlogs & Hrec & Houts & Hnones & Hpre & Hend).
      exists ((id wf, []) :: executed), (log_row (id wf) event w :: rows).
      split; [rewrite Hlogs, Hlog, <- app_assoc; reflexivity|].
      split; [constructor; [repeat split | exact Hrec]|].
      split.
      { constructor; [exact Hout|].
        eapply List.Forall_impl; [|exact Houts]. simpl. intros res Hres.
        rewrite <- (stored_actions_same _ _ _ Hsame). exact Hres. }
      split.
      { constructor; [split; [exact Hnone | reflexivity]|].
        eapply List.Forall_impl; [|exact Hnones]. simpl. intros res Hres.
        rewrite <- (stored_actions_same _ _ _ Hsame). exact Hres. }
      split; [simpl; apply prefix_cons; exact Hpre|].
      destruct Hend as [Hend|[Hend Hall]]; [left; exact Hend|].
      right. rewrite Hend, <- app_assoc. simpl. split; [reflexivity|].
      f_equal. exact Hall.
    + destruct Hrun as [[_ Hlog]|(rs' & Hno & _)]; [|discriminate].
      exists [], []. rewrite Hlog, app_nil_r.
      split; [reflexivity|]. split; [constructor|]. split; [constructor|].
      split; [constructor|]. split; [apply prefix_nil|]. left. reflexivity.
Qed.

Lemma post_api_events_any event w :
  consistent w ->
  exists resp w' executed,
    post_api_events event w = (Resolved resp, w') /\
    Forall2 (records event) executed (logged w w') /\
    Forall (fun res => Forall2 (outcome_of event) (stored_actions (fst res) w) (snd res))
      executed /\
    Forall (fun res => stored_actions (fst res) w = [] /\ snd res = []) executed /\
    map fst executed `prefix_of`
      map id (triggered_by (text_of (event_type event)) w) /\
    (status_code resp = 202 ->
       truthy_string (event_type event) = true /\
       response_body resp = events_body (length executed) executed /\
       map fst executed = map id (triggered_by (text_of (event_type event)) w)) /\
    (status_code resp = 202 \/
     resp = {| status_code := 400; response_body := error_body "event_type is required" |} /\
     truthy_string (event_type event) = false \/
     resp = internal_error).
Proof.
  intros Hc. unfold post_api_events.
  destruct (truthy_string (event_type event)) eqn:Ht; simpl.
  - unfold try_catch, bind, select_workflows, pool_query.
    destruct (next_fault (pool_faults w)) as [fault rest].
    destruct fault; simpl.
    + eexists _, _, []. split; [reflexivity|].
      unfold logged. simpl. rewrite drop_all.
      split; [constructor|]. split; [constructor|]. split; [constructor|].
      split; [apply prefix_nil|].
      split; [discriminate | right; right; reflexivity].
    + fold (triggered_by (text_of (event_type event)) w).
      destruct (for_workflows_any event (triggered_by (text_of (event_type event)) w)
                  [] (with_faults rest w) Hc)
        as (executed & rows & Hlogs & Hrec & Houts & Hnones & Hpre & Hend).
      destruct (for_workflows (triggered_by (text_of (event_type event)) w) event []
                  (with_faults rest w)) as [[rs|] w1]; simpl in *.
      * destruct Hend as [Hend|[[= ->] Hall]]; [discriminate|].
        eexists _, _, executed. split; [reflexivity|].
        unfold logged. rewrite Hlogs, drop_length_app.
        split; [exact Hrec|]. split; [exact Houts|]. split; [exact Hnones|].
        split; [exact Hpre|]. split; [|left; reflexivity].
        intros _. split; [reflexivity|]. split; [reflexivity | exact Hall].
      * eexists _, _, executed. split; [reflexivity|].
        unfold logged. rewrite Hlogs, drop_length_app.
        split; [exact Hrec|]. split; [exact Houts|]. split; [exact Hnones|].
        split; [exact Hpre|].
        split; [discriminate | right; right; reflexivity].
  - eexists _, _, []. split; [reflexivity|].
    unfold logged. rewrite drop_all.
    split; [constructor|]. split; [constructor|]. split; [constructor|].
    split; [apply prefix_nil|].
    split; [discriminate | right; left; split; reflexivity].
Qed.

Lemma truthy_string_val x :
  truthy_string x = true -> exists t, x = val t /\ t <> "" /\ text_of x = t.
Proof.
  destruct x as [| |t]; simpl; try discriminate. intros H.
  exists t. repeat split. intros ->. discriminate H.
Qed.

(** X4. A 202 answer of POST /api/events is a guarantee, whichever queries
    could have failed: the event had a non-empty type, the response counts
    and lists exactly the workflows triggered by that type, in table order,
    each result holds the outcomes of the workflow's stored actions, and each
    result has its row in workflow_logs.  It is also a sign that nothing was
    done: every one of these workflows has no stored action, every result is
    the empty list, and every row written holds the empty object as result;
    an event that triggers a workflow with a stored action is never answered
    202. *)
Theorem accepted_event_ran_every_workflow event w resp w' :
  consistent w ->
  post_api_events event w = (Resolved resp, w') ->
  status_code resp = 202 ->
  exists t results,
    event_type event = val t /\ t <> "" /\
    response_body resp = events_body (length results) results /\
    map fst results = map id (triggered_by t w) /\
    Forall (fun res => Forall2 (outcome_of event) (stored_actions (fst res) w) (snd res))
      results /\
    Forall2 (records event) results (logged w w') /\
    Forall (fun wf => stored_actions (id wf) w = []) (triggered_by t w) /\
    Forall (fun res => snd res = []) results /\
    Forall (fun row => result row = JObj []) (logged w w').
Proof.
  intros Hc Hrun Hok.
  destruct (post_api_events_any event w Hc)
    as (resp0 & w0 & results & Hrun0 & Hrec & Houts & Hnones & _ & H202 & _).
  rewrite Hrun in Hrun0. injection Hrun0 as <- <-.
  destruct (H202 Hok) as (Ht & Hbody & Hall).
  destruct (truthy_string_val _ Ht) as (t & Hval & Hne & Htext).
  rewrite Htext in Hall.
  exists t, results. do 6 (split; [assumption|]). split; [|split].
  - clear - Hall Hnones. revert Hall Hnones. generalize (triggered_by t w).
    induction results as [|res results IH]; intros [|wf l] Hall Hnones;
      simpl in Hall; try discriminate; constructor.
    + apply Forall_inv in Hnones. injection Hall as <- _. apply Hnones.
    + apply IH; [injection Hall as _ Hall; exact Hall|].
      apply Forall_inv_tail in Hnones. exact Hnones.
  - eapply List.Forall_impl; [|exact Hnones]. simpl. intros res Hres. apply Hres.
  - clear - Hrec Hnones. induction Hrec as [|res row l k (_ & _ & Hres) _ IH];
      constructor.
    + apply Forall_inv in Hnones. destruct Hnones as [_ Hnil].
      rewrite Hnil in Hres. simpl in Hres. injection Hres as <-. reflexivity.
    + apply IH. apply Forall_inv_tail in Hnones. exact Hnones.
Qed.

(** In the store where workflow 3 was left without an action, the event that
    triggers it is answered 202 with its empty result, and one row is
    logged. *)
Lemma sample_accepted_event :
  exists results,
    map fst results = [3] /\
    Forall2 (records link_down) results
      (workflow_logs (snd (post_api_events link_down stranded_world))) /\
    map result (workflow_logs (snd (post_api_events link_down stranded_world))) =
      [JObj []].
Proof.
  destruct (accepted_event_ran_every_workflow link_down stranded_world
              {| status_code := 202; response_body := events_body 1 [(3, [])] |}
              (snd (post_api_events link_down stranded_world)))
    as (t & results & Ht & _ & _ & Hids & _ & Hrec & _).
  - exact stranded_world_consistent.
  - reflexivity.
  - reflexivity.
  - injection Ht as <-. exists results.
    split; [exact Hids|]. split; [exact Hrec | reflexivity].
Defined.

(** X5. POST /api/events always answers (202, 400 or 500), and whichever
    queries fail, the rows it adds to workflow_logs record executions of an
    initial part of the workflows triggered by the event's type, in table
    order and one row each, every row holding the event and the outcomes of
    that workflow's stored actions: no other workflow is ever logged. *)
Theorem event_logs_only_triggered_workflows event w :
  consistent w ->
  exists resp w' executed,
    post_api_events event w = (Resolved resp, w') /\
    (status_code resp = 202 \/ status_code resp = 400 \/ status_code resp = 500) /\
    Forall2 (records event) executed (logged w w') /\
    map fst executed `prefix_of`
      map id (triggered_by (text_of (event_type event)) w) /\
    Forall (fun res => Forall2 (outcome_of event) (stored_actions (fst res) w) (snd res))
      executed.
Proof.
  intros Hc.
  destruct (post_api_events_any event w Hc)
    as (resp & w' & executed & Hrun & Hrec & Houts & _ & Hpre & _ & Hstatus).
  exists resp, w', executed. split; [exact Hrun|]. split; [|repeat split; assumption].
  destruct Hstatus as [H|[[-> _]| ->]];
    [left; exact H | right; left; reflexivity | right; right; reflexivity].
Qed.

(** With the third query failing (the insert of the log row), the event that
    triggers the workflow without actions is answered 500 and nothing is
    logged. *)
Lemma flaky_event_logs_nothing :
  fst (post_api_events link_down flaky_world) = Resolved internal_error /\
  workflow_logs (snd (post_api_events link_down flaky_world)) = [].
Proof.
  destruct (event_logs_only_triggered_workflows link_down flaky_world)
    as (resp & w' & executed & Hrun & _ & Hrec & _).
  - exact stranded_world_consistent.
  - rewrite Hrun. simpl.
    assert (Hfst : fst (post_api_events link_down flaky_world) = Resolved internal_error)
      by reflexivity.
    assert (Hsnd : workflow_logs (snd (post_api_events link_down flaky_world)) = [])
      by reflexivity.
    rewrite Hrun in Hfst, Hsnd. split; assumption.
Defined.

(** *** Creations whichever queries fail *)

(** The insert loop writes the rows of an initial part of the actions, in
    order, and resolves only when it has written them all. *)
Lemma for_new_actions_any n specs :
  forall w,
    workflow_exists n w = true ->
    exists o w' stored rows,
      for_new_actions n specs w = (o, w') /\
      workflow_actions w' = workflow_actions w ++ rows /\
      workflows w' = workflows w /\ workflow_logs w' = workflow_logs w /\
      stored `prefix_of` specs /\
      Forall2 (stores n) stored rows /\
      (o = Rejected \/ (o = Resolved tt /\ stored = specs)).
Proof.
  induction specs as [|spec specs IH]; intros w Hex.
  - exists (Resolved tt), w, [], []. simpl. rewrite app_nil_r.
    do 5 (split; [reflexivity|]). split; [constructor|].
    right. split; reflexivity.
  - simpl. unfold bind, insert_action, pool_query.
    destruct (next_fault (pool_faults w)) as [fault rest].
    destruct fault.
    { exists Rejected, (with_faults rest w), [], []. simpl. rewrite app_nil_r.
      do 3 (split; [reflexivity|]). split; [reflexivity|].
      split; [apply prefix_nil|]. split; [constructor | left; reflexivity]. }
    destruct (int4 n).
    2: { exists Rejected, (with_faults rest w), [], []. simpl. rewrite app_nil_r.
         do 3 (split; [reflexivity|]). split; [reflexivity|].
         split; [apply prefix_nil|]. split; [constructor | left; reflexivity]. }
    destruct (spec_action_type spec) as [| |t] eqn:Hspec;
      try (eexists Rejected, _, [], []; simpl; rewrite app_nil_r;
           do 3 (split; [reflexivity|]); split; [reflexivity|];
           split; [apply prefix_nil|]; split; [constructor | left; reflexivity]).
    change (workflow_exists n (with_faults rest w)) with (workflow_exists n w).
    rewrite Hex.
    match goal with |- context [for_new_actions n specs ?x] => set (w1 := x) end.
    destruct (IH w1 Hex) as (o & w' & stored & rows & E & Hact & Hwf & Hlog & Hpre & Hst & Hend).
    rewrite E.
    exists o, w', (spec :: stored),
      ({| action_id := workflow_actions_id_seq w; workflow_id := Some n;
          action_type := t; parameters := or_null (spec_parameters spec) |} :: rows).
    split; [destruct o; reflexivity|].
    split; [rewrite Hact; simpl; rewrite <- app_assoc; reflexivity|].
    split; [exact Hwf|]. split; [exact Hlog|].
    split; [apply prefix_cons; exact Hpre|].
    split; [constructor; [split; [reflexivity | split; [exact Hspec | reflexivity]]
                         | exact Hst]|].
    destruct Hend as [->|[-> ->]]; [left | right; split]; reflexivity.
Qed.

Lemma creatable_passes req :
  creatable req = true ->
  negb (truthy_string (req_name req)) || negb (truthy_string (req_event_type req))
    || negb (isArray (req_actions req))
    || (length (elements (req_actions req)) =? 0)%nat = false.
Proof.
  unfold creatable.
  destruct (truthy_string (req_name req)), (truthy_string (req_event_type req)),
    (isArray (req_actions req)), (length (elements (req_actions req)) =? 0)%nat;
    simpl; congruence.
Qed.

Lemma not_creatable_fails req :
  creatable req = false ->
  negb (truthy_string (req_name req)) || negb (truthy_string (req_event_type req))
    || negb (isArray (req_actions req))
    || (length (elements (req_actions req)) =? 0)%nat = true.
Proof.
  unfold creatable.
  destruct (truthy_string (req_name req)), (truthy_string (req_event_type req)),
    (isArray (req_actions req)), (length (elements (req_actions req)) =? 0)%nat;
    simpl; congruence.
Qed.

Lemma stored_after_insert n w w' rows stored :
  consistent w -> n = workflows_id_seq w ->
  workflow_actions w' = workflow_actions w ++ rows ->
  Forall2 (stores n) stored rows ->
  stored_actions n w' = rows.
Proof.
  intros Hc -> Hact Hst. unfold stored_actions. rewrite Hact, List.filter_app.
  fold (stored_actions (workflows_id_seq w) w).
  rewrite (fresh_id_owns_nothing w Hc), (stored_rows_all_pass _ _ _ Hst). reflexivity.
Qed.

(** What a creation that passes the check leaves behind, whichever queries
    fail. *)
Lemma post_api_workflows_any jsonb_in req w :
  consistent w -> creatable req = true ->
  exists resp w' stored,
    post_api_workflows jsonb_in req w = (Resolved resp, w') /\
    stored `prefix_of` elements (req_actions req) /\
    Forall2 (stores (workflows_id_seq w)) stored
      (stored_actions (workflows_id_seq w) w') /\
    workflow_logs w' = workflow_logs w /\
    (workflows w' = workflows w /\ stored = [] \/
     workflows w' = workflows w ++ [workflow_row jsonb_in req (workflows_id_seq w)]) /\
    (status_code resp = 201 \/ resp = internal_error) /\
    (status_code resp = 201 ->
       stored = elements (req_actions req) /\
       workflows w' = workflows w ++ [workflow_row jsonb_in req (workflows_id_seq w)] /\
       exists tr,
         response_body resp = created_body (workflows_id_seq w) tr /\
         (truthy_bool (req_test req) = false -> tr = None) /\
         (truthy_bool (req_test req) = true ->
            exists rs, tr = Some rs /\
              Forall2 (outcome_of (dry_run_event req))
                (stored_actions (workflows_id_seq w) w') rs)).
Proof.
  intros Hc Hok.
  pose proof (fresh_id_owns_nothing w Hc) as Hfresh.
  pose proof (keeps_insert_workflow jsonb_in (text_of (req_name req))
                (text_of (req_event_type req)) (or_null (req_conditions req)) w Hc)
    as Hc1.
  unfold post_api_workflows. rewrite (creatable_passes req Hok).
  unfold try_catch. unfold bind at 1.
  unfold workflow_row, stored_conditions.
  unfold insert_workflow, pool_query in *.
  destruct (next_fault (pool_faults w)) as [fault rest].
  destruct fault; simpl in *.
  { eexists _, _, []. split; [reflexivity|].
    change (stored_actions (workflows_id_seq w) (with_faults rest w))
      with (stored_actions (workflows_id_seq w) w).
    rewrite Hfresh.
    split; [apply prefix_nil|]. split; [constructor|]. split; [reflexivity|].
    split; [left; split; reflexivity|]. split; [right; reflexivity | discriminate]. }
  destruct (as_jsonb jsonb_in (or_null (req_conditions req))) as [document|]; simpl in *.
  2: { eexists _, _, []. split; [reflexivity|].
       change (stored_actions (workflows_id_seq w) (with_faults rest w))
         with (stored_actions (workflows_id_seq w) w).
       rewrite Hfresh.
       split; [apply prefix_nil|]. split; [constructor|]. split; [reflexivity|].
       split; [left; split; reflexivity|].
       split; [right; reflexivity | discriminate]. }
  match type of Hc1 with consistent ?x => set (w1 := x) in * end.
  assert (Hex1 : workflow_exists (workflows_id_seq w) w1 = true).
  { unfold workflow_exists. simpl. rewrite existsb_app. simpl.
    rewrite Z.eqb_refl. apply orb_true_r. }
  pose proof (keeps_for_new_actions (workflows_id_seq w) (elements (req_actions req))
                w1 Hc1) as Hc2.
  destruct (for_new_actions_any (workflows_id_seq w) (elements (req_actions req)) w1 Hex1)
    as (o & w2 & stored & rows & E & Hact & Hwf & Hlog & Hpre & Hst & Hend).
  rewrite E in Hc2. simpl in Hc2.
  assert (Hstored : stored_actions (workflows_id_seq w) w2 = rows).
  { apply (stored_after_insert _ w w2 rows stored Hc eq_refl); [exact Hact | exact Hst]. }
  unfold bind at 1. rewrite E.
  destruct Hend as [->|[-> ->]].
  { eexists _, w2, stored. split; [reflexivity|].
    split; [exact Hpre|]. split; [rewrite Hstored; exact Hst|].
    split; [exact Hlog|]. split; [right; exact Hwf|].
    split; [right; reflexivity | discriminate]. }
  fold (dry_run_event req).
  destruct (truthy_bool (req_test req)) eqn:Htest.
  - pose proof (within_executeWorkflow_test _ same_tables_refl same_tables_trans
                  same_tables_faults (workflows_id_seq w) (dry_run_event req) w2)
      as Hsame.
    destruct (executeWorkflow_any (workflows_id_seq w) (dry_run_event req) true w2 Hc2)
      as (o3 & w3 & E3 & Hcases).
    rewrite E3 in Hsame. simpl in Hsame. destruct Hsame as ((Hwf3 & Hact3) & Hlog3).
    assert (Hstored3 : stored_actions (workflows_id_seq w) w3 = rows).
    { unfold stored_actions. rewrite Hact3. exact Hstored. }
    unfold bind. rewrite E3.
    destruct Hcases as [[-> _]|(rs & -> & Hout & _)]; simpl.
    + eexists _, w3, _. split; [reflexivity|].
      split; [exact Hpre|]. split; [rewrite Hstored3; exact Hst|].
      split; [rewrite Hlog3; exact Hlog|].
      split; [right; rewrite Hwf3; exact Hwf|].
      split; [right; reflexivity | discriminate].
    + eexists _, w3, _. split; [reflexivity|].
      split; [exact Hpre|]. split; [rewrite Hstored3; exact Hst|].
      split; [rewrite Hlog3; exact Hlog|].
      split; [right; rewrite Hwf3; exact Hwf|].
      split; [left; reflexivity|]. intros _.
      split; [reflexivity|]. split; [rewrite Hwf3; exact Hwf|].
      exists (Some rs). split; [reflexivity|]. split; [discriminate|].
      intros _. exists rs. split; [reflexivity|].
      rewrite Hstored3, <- Hstored. exact Hout.
  - eexists _, w2, _. split; [reflexivity|].
    split; [exact Hpre|]. split; [rewrite Hstored; exact Hst|].
    split; [exact Hlog|]. split; [right; exact Hwf|].
    split; [left; reflexivity|]. intros _.
    split; [reflexivity|]. split; [exact Hwf|].
    exists None. split; [reflexivity|]. split; [reflexivity | discriminate].
Qed.

Lemma post_api_workflows_refused jsonb_in req w :
  creatable req = false ->
  post_api_workflows jsonb_in req w =
    (Resolved {| status_code := 400;
                 response_body :=
                   error_body "name, event_type and at least one action are required" |},
     w).
Proof.
  intros Hno. unfold post_api_workflows. rewrite (not_creatable_fails req Hno).
  reflexivity.
Qed.

(** X6. A 201 answer of POST /api/workflows is a guarantee, whichever queries
    could have failed: the request passed the check, the response carries the
    id the sequence handed out, the workflow row is the last row of
    workflows, the stored actions of that id are the actions of the request,
    one row each and in request order, and no log row was written; the test
    result is absent unless a dry run was asked for, and then it lists the
    outcomes of those stored actions for the dry-run event. *)
Theorem created_means_stored jsonb_in req w resp w' :
  consistent w ->
  post_api_workflows jsonb_in req w = (Resolved resp, w') ->
  status_code resp = 201 ->
  creatable req = true /\
  workflows w' = workflows w ++ [workflow_row jsonb_in req (workflows_id_seq w)] /\
  Forall2 (stores (workflows_id_seq w)) (elements (req_actions req))
    (stored_actions (workflows_id_seq w) w') /\
  workflow_logs w' = workflow_logs w /\
  exists tr,
    response_body resp = created_body (workflows_id_seq w) tr /\
    (truthy_bool (req_test req) = false -> tr = None) /\
    (truthy_bool (req_test req) = true ->
       exists rs, tr = Some rs /\
         Forall2 (outcome_of (dry_run_event req))
           (stored_actions (workflows_id_seq w) w') rs).
Proof.
  intros Hc Hrun Hok.
  destruct (creatable req) eqn:Hcr.
  - destruct (post_api_workflows_any jsonb_in req w Hc Hcr)
      as (resp0 & w0 & stored & Hrun0 & _ & Hst & Hlog & _ & _ & H201).
    rewrite Hrun in Hrun0. injection Hrun0 as <- <-.
    destruct (H201 Hok) as (-> & Hwf & Htr).
    split; [reflexivity|]. split; [exact Hwf|]. split; [exact Hst|].
    split; [exact Hlog | exact Htr].
  - rewrite (post_api_workflows_refused jsonb_in req w Hcr) in Hrun.
    injection Hrun as <- _. discriminate Hok.
Qed.

Lemma sample_creation_stored :
  map action_type
    (stored_actions 3
       (snd (post_api_workflows literals_only sample_creation sample_world))) =
    ["run_script"; "create_ticket"].
Proof.
  destruct (created_means_stored literals_only sample_creation sample_world
              {| status_code := 201;
                 response_body :=
                   created_body 3
                     (Some [{| action := "run_script"; status := "success";
                               message := "script cleanup.sh" |};
                            {| action := "create_ticket"; status := "success";
                               message := "ticket created" |}]) |}
              (snd (post_api_workflows literals_only sample_creation sample_world)))
    as (_ & _ & Hst & _).
  - exact sample_world_consistent.
  - reflexivity.
  - reflexivity.
  - assert (Htypes : forall specs rows,
              Forall2 (stores 3) specs rows ->
              map (fun spec => spec_action_type spec) specs =
                map (fun row => val (action_type row)) rows).
    { induction 1 as [|spec row specs rows (_ & Ht & _) _ IH]; simpl;
        [reflexivity | rewrite Ht, IH; reflexivity]. }
    set (rows := stored_actions 3
                   (snd (post_api_workflows literals_only sample_creation sample_world))).
    change (stored_actions (workflows_id_seq sample_world)
              (snd (post_api_workflows literals_only sample_creation sample_world)))
      with rows in Hst.
    clearbody rows. apply Htypes in Hst. simpl in Hst.
    destruct rows as [|r1 [|r2 [|r3 rows]]]; simpl in *; congruence.
Defined.

(** X7. Whatever the request and whichever queries fail, POST /api/workflows
    answers 201, 400 or 500, writes no log row, and leaves behind either no
    new workflow, or the new workflow row together with the rows of an
    initial part of the request's actions, in request order: never an action
    without the workflow or without the actions before it.  The answer is 400
    exactly when the request fails the check, and then nothing is written. *)
Theorem creation_leaves_a_prefix jsonb_in req w :
  consistent w ->
  exists resp w' stored,
    post_api_workflows jsonb_in req w = (Resolved resp, w') /\
    (status_code resp = 201 \/ status_code resp = 400 \/ status_code resp = 500) /\
    (status_code resp = 400 <-> creatable req = false) /\
    (creatable req = false -> w' = w) /\
    workflow_logs w' = workflow_logs w /\
    stored `prefix_of` elements (req_actions req) /\
    Forall2 (stores (workflows_id_seq w)) stored
      (stored_actions (workflows_id_seq w) w') /\
    (workflows w' = workflows w /\ stored = [] \/
     workflows w' = workflows w ++ [workflow_row jsonb_in req (workflows_id_seq w)]).
Proof.
  intros Hc. destruct (creatable req) eqn:Hcr.
  - destruct (post_api_workflows_any jsonb_in req w Hc Hcr)
      as (resp & w' & stored & Hrun & Hpre & Hst & Hlog & Hwf & Hstatus & _).
    exists resp, w', stored. split; [exact Hrun|].
    split; [destruct Hstatus as [H| ->]; [left; exact H | right; right; reflexivity]|].
    split; [split; [intros H400; destruct Hstatus as [H| ->];
                    [rewrite H in H400|]; discriminate | discriminate]|].
    split; [discriminate|].
    repeat split; assumption.
  - eexists _, w, []. split; [apply post_api_workflows_refused; exact Hcr|].
    split; [right; left; reflexivity|]. split; [split; reflexivity|].
    split; [reflexivity|]. split; [reflexivity|]. split; [apply prefix_nil|].
    rewrite (fresh_id_owns_nothing w Hc).
    split; [constructor | left; split; reflexivity].
Qed.

(** In the sample store the creation whose second action names no type is
    answered 500; the workflow and its first action stay behind. *)
Lemma broken_creation_leaves_first_action :
  fst (post_api_workflows literals_only broken_creation sample_world) =
    Resolved internal_error /\
  map action_type
    (stored_actions 3
       (snd (post_api_workflows literals_only broken_creation sample_world))) =
    ["run_script"].
Proof.
  destruct (creation_leaves_a_prefix literals_only broken_creation sample_world)
    as (resp & w' & stored & Hrun & _).
  - exact sample_world_consistent.
  - rewrite Hrun. simpl.
    assert (Hfst : fst (post_api_workflows literals_only broken_creation sample_world) =
                   Resolved internal_error) by reflexivity.
    assert (Hsnd : map action_type
                     (stored_actions 3
                        (snd (post_api_workflows literals_only broken_creation
                                sample_world))) =
                   ["run_script"]) by reflexivity.
    rewrite Hrun in Hfst, Hsnd. split; assumption.
Defined.

(** *** Creation followed by an event *)

(** X8. Creation and submission do not compose.  After POST /api/workflows
    has answered 201, the new workflow has a stored action or more, and every
    event of its trigger type, submitted to the store the creation left, is
    answered 500, whichever queries fail or succeed; no log row of the new
    workflow is ever written: its execution rejects at the insert of the log
    row, the outcome list being passed as a JavaScript array for the JSONB
    column result. *)
Theorem created_workflow_is_never_run jsonb_in req w resp w1 event faults :
  consistent w ->
  post_api_workflows jsonb_in req w = (Resolved resp, w1) ->
  status_code resp = 201 ->
  event_type event = req_event_type req ->
  stored_actions (workflows_id_seq w) w1 <> [] /\
  In (workflows_id_seq w)
    (map id (triggered_by (text_of (event_type event)) w1)) /\
  fst (post_api_events event (with_faults faults w1)) = Resolved internal_error /\
  ~ In (Some (workflows_id_seq w))
      (map log_workflow_id
         (logged w1 (snd (post_api_events event (with_faults faults w1))))).
Proof.
  intros Hc Hrun Hok Hevent.
  assert (Hcr : creatable req = true).
  { destruct (creatable req) eqn:Hcr; [reflexivity|].
    rewrite (post_api_workflows_refused jsonb_in req w Hcr) in Hrun.
    injection Hrun as <- _. discriminate Hok. }
  destruct (post_api_workflows_any jsonb_in req w Hc Hcr)
    as (resp0 & w0 & stored & Hrun0 & _ & Hst & _ & _ & _ & H201).
  rewrite Hrun in Hrun0. injection Hrun0 as <- <-.
  destruct (H201 Hok) as (-> & Hwf & _).
  assert (Hsome : stored_actions (workflows_id_seq w) w1 <> []).
  { intros Hnone. rewrite Hnone in Hst. inversion Hst as [Hnil|]. 
    unfold creatable in Hcr. rewrite <- Hnil in Hcr. simpl in Hcr.
    rewrite andb_false_r in Hcr. discriminate Hcr. }
  assert (Htruthy : truthy_string (event_type event) = true).
  { rewrite Hevent. unfold creatable in Hcr.
    destruct (truthy_string (req_event_type req)); [reflexivity|].
    rewrite andb_false_r in Hcr. discriminate Hcr. }
  assert (Htrig : In (workflows_id_seq w)
                    (map id (triggered_by (text_of (event_type event)) w1))).
  { unfold triggered_by. rewrite Hwf, List.filter_app, map_app. apply in_or_app. right.
    simpl. rewrite Hevent, String.eqb_refl. left. reflexivity. }
  assert (Hc1 : consistent (with_faults faults w1)).
  { pose proof (proj1 (proj2 handlers_keep_consistency) jsonb_in req w Hc) as Hk.
    rewrite Hrun in Hk. exact Hk. }
  destruct (post_api_events_any event (with_faults faults w1) Hc1)
    as (resp2 & w2 & executed & Hrun2 & Hrec & _ & Hnones & _ & H202 & Hstatus).
  rewrite Hrun2. simpl.
  change (stored_actions (workflows_id_seq w) (with_faults faults w1))
    with (stored_actions (workflows_id_seq w) w1) in *.
  assert (Hnot : ~ In (workflows_id_seq w) (map fst executed)).
  { intros Hmem. apply in_map_iff in Hmem as (res & Hid & Hres).
    rewrite List.Forall_forall in Hnones. destruct (Hnones res Hres) as [Hnone _].
    rewrite Hid in Hnone. contradiction. }
  split; [exact Hsome|]. split; [exact Htrig|]. split.
  - destruct Hstatus as [H|[[_ Hfalse]| ->]]; [| |reflexivity].
    + destruct (H202 H) as (_ & _ & Hall). rewrite Hall in Hnot. contradiction.
    + rewrite Htruthy in Hfalse. discriminate Hfalse.
  - intros Hmem. apply in_map_iff in Hmem as (row & Hrow & Hin).
    change (logged w1 w2) with (logged (with_faults faults w1) w2) in Hin.
    destruct (Forall2_In_right _ _ _ Hrec row Hin) as (res & Hres & Hr & _).
    apply Hnot. apply in_map_iff. exists res. split; [|exact Hres].
    rewrite Hr in Hrow. injection Hrow as Hid. exact Hid.
Qed.

(** The sample creation is answered 201, and the event that should trigger
    the new workflow 3 is answered 500. *)
Lemma sample_creation_then_event :
  status_code_of (fst (post_api_workflows literals_only sample_creation sample_world)) =
    Some 201 /\
  fst (post_api_events disk_full
         (snd (post_api_workflows literals_only sample_creation sample_world))) =
    Resolved internal_error.
Proof.
  destruct (created_workflow_is_never_run literals_only sample_creation sample_world
              {| status_code := 201;
                 response_body :=
                   created_body 3
                     (Some [{| action := "run_script"; status := "success";
                               message := "script cleanup.sh" |};
                            {| action := "create_ticket"; status := "success";
                               message := "ticket created" |}]) |}
              (snd (post_api_workflows literals_only sample_creation sample_world))
              disk_full [])
    as (_ & _ & Hrun & _).
  - exact sample_world_consistent.
  - reflexivity.
  - reflexivity.
  - reflexivity.
  - split; [reflexivity | exact Hrun].
Defined.

(** *** An action without a type *)




End EngineFacts.
(** ** The alert service, request by request *)

Module AlertsMore.
Import Alerts AlertsFacts.

(** The INSERT either appends the row of the intent or leaves the tables
    and the network as they were. *)
Lemma insert_alert_cases req w :
  (exists v t,
     value req = val v /\ threshold req = val t /\
     insert_alert (text_of (device_id req)) (text_of (metric req))
       (value req) (threshold req) (or_null (rule_id req))
       (or_null (suggestion req)) (or_null (description req)) w =
       (Resolved tt,
        with_store (alerts w ++ [row_of req v t w]) (alerts_id_seq w + 1)
          (snd (next_fault (pool_faults w))) w)) \/
  (exists w1,
     insert_alert (text_of (device_id req)) (text_of (metric req))
       (value req) (threshold req) (or_null (rule_id req))
       (or_null (suggestion req)) (or_null (description req)) w = (Rejected, w1) /\
     alerts w1 = alerts w /\ requests w1 = requests w /\
     alert_rules w1 = alert_rules w).
Proof.
  unfold insert_alert, row_of, printed.
  destruct (next_fault (pool_faults w)) as [fault rest]. simpl.
  destruct fault; [right; eexists; repeat split|].
  destruct (uuid_in (text_of (device_id req))) as [device|];
    [|right; eexists; repeat split].
  destruct (int4_or_null (or_null (rule_id req))); [|right; eexists; repeat split].
  destruct (value req) as [| |v]; [right; eexists; repeat split ..|].
  destruct (threshold req) as [| |t]; [right; eexists; repeat split ..|].
  match goal with |- context [if ?b then _ else _] => destruct b end;
    [|right; eexists; repeat split].
  left. exists v, t. repeat split.
Qed.

(** After the row is stored the channels are tried and the answer is 202. *)
Lemma post_api_alerts_stored req v t w :
  well_formed req ->
  insert_alert (text_of (device_id req)) (text_of (metric req))
    (value req) (threshold req) (or_null (rule_id req))
    (or_null (suggestion req)) (or_null (description req)) w =
    (Resolved tt,
     with_store (alerts w ++ [row_of req v t w]) (alerts_id_seq w + 1)
       (snd (next_fault (pool_faults w))) w) ->
  post_api_alerts req w =
    (Resolved accepted,
     with_network
       (fold_left (fun fs _ => snd (next_fault fs)) (configured_channels w)
          (net_faults w))
       (requests w ++ attempts (configured_channels w) (webhook_body req) (net_faults w))
       (with_store (alerts w ++ [row_of req v t w]) (alerts_id_seq w + 1)
          (snd (next_fault (pool_faults w))) w)).
Proof.
  intros (Hd & Hm & Hv & Ht) Hins.
  unfold post_api_alerts. rewrite Hd, Hm. simpl.
  destruct (value req) as [| |v0] eqn:Ev; [congruence| |];
    (destruct (threshold req) as [| |t0] eqn:Et; [congruence| |]); simpl;
    unfold try_catch; rewrite (bind_resolved _ _ _ _ _ Hins);
    match goal with |- context [with_store ?a ?b ?c w] => set (w1 := with_store a b c w) end;
    change (EMAIL_WEBHOOK_URL w) with (EMAIL_WEBHOOK_URL w1);
    change (SMS_WEBHOOK_URL w) with (SMS_WEBHOOK_URL w1);
    change (ITSM_WEBHOOK_URL w) with (ITSM_WEBHOOK_URL w1);
    rewrite fan_out; reflexivity.
Qed.

(** When the row is refused the answer is 500 and nothing is sent. *)
Lemma post_api_alerts_refused req w w1 :
  well_formed req ->
  insert_alert (text_of (device_id req)) (text_of (metric req))
    (value req) (threshold req) (or_null (rule_id req))
    (or_null (suggestion req)) (or_null (description req)) w = (Rejected, w1) ->
  post_api_alerts req w =
    (Resolved {| status_code := 500; response_body := error_body "internal_error" |}, w1).
Proof.
  intros (Hd & Hm & Hv & Ht) Hins.
  unfold post_api_alerts. rewrite Hd, Hm. simpl.
  destruct (value req) as [| |v]; [congruence| |];
    (destruct (threshold req) as [| |t]; [congruence| |]); simpl;
    rewrite (try_catch_rejected _ _ _ _ (bind_rejected _ _ _ _ Hins)); reflexivity.
Qed.

(** The store after an intent was taken: its row, then the attempts for the
    configured channels. *)
Lemma post_api_alerts_taken req w :
  well_formed req -> persists req w ->
  exists v t,
    value req = val v /\ threshold req = val t /\
    post_api_alerts req w =
      (Resolved accepted,
       with_network
         (fold_left (fun fs _ => snd (next_fault fs)) (configured_channels w)
            (net_faults w))
         (requests w ++ attempts (configured_channels w) (webhook_body req) (net_faults w))
         (with_store (alerts w ++ [row_of req v t w]) (alerts_id_seq w + 1)
            (snd (next_fault (pool_faults w))) w)).
Proof.
  intros Hwf Hp.
  destruct (insert_alert_taken req w Hwf Hp) as (v & t & Ev & Et & Hins).
  exists v, t. split; [exact Ev|]. split; [exact Et|].
  apply post_api_alerts_stored; assumption.
Qed.

(** An intent that cites a rule that does not exist is not taken. *)
Lemma post_api_alerts_dangling req r w :
  well_formed req -> rule_id req = val r ->
  (forall rule, In rule (alert_rules w) -> id rule <> r) ->
  fst (post_api_alerts req w) =
    Resolved {| status_code := 500; response_body := error_body "internal_error" |} /\
  alerts (snd (post_api_alerts req w)) = alerts w /\
  requests (snd (post_api_alerts req w)) = requests w.
Proof.
  intros Hwf Hr Hnone.
  assert (Hex : existsb (fun rule => Z.eqb (id rule) r) (alert_rules w) = false).
  { destruct (existsb _ _) eqn:E; [|reflexivity].
    apply existsb_exists in E as (rule & Hin & Heq). apply Z.eqb_eq in Heq.
    exfalso. apply (Hnone rule Hin Heq). }
  destruct (insert_alert_cases req w) as [(v & t & _ & _ & Hins)|(w1 & Hins & Ha & Hq & _)].
  - exfalso. revert Hins. unfold insert_alert. rewrite Hr. simpl. rewrite Hex.
    destruct (next_fault (pool_faults w)) as [fault rest].
    destruct fault; [discriminate|].
    destruct (uuid_in (text_of (device_id req))); [|discriminate].
    destruct (int4 r); [|discriminate].
    destruct (value req), (threshold req); discriminate.
  - rewrite (post_api_alerts_refused req w w1 Hwf Hins). repeat split; assumption.
Qed.

Lemma well_formed_dec req :
  well_formed req \/
  (truthy_string (device_id req) = false \/ truthy_string (metric req) = false \/
   value req = undefined \/ threshold req = undefined).
Proof.
  unfold well_formed.
  destruct (truthy_string (device_id req)); [|right; left; reflexivity].
  destruct (truthy_string (metric req)); [|right; right; left; reflexivity].
  destruct (value req); [right; right; right; left; reflexivity| |];
    (destruct (threshold req); [right; right; right; right; reflexivity| |]);
    left; repeat split; discriminate.
Qed.

(** The handler never writes to the rules. *)
Lemma post_api_alerts_rules req w :
  alert_rules (snd (post_api_alerts req w)) = alert_rules w.
Proof.
  destruct (well_formed_dec req) as [Hwf|Hill];
    [|rewrite (post_api_alerts_incomplete req w Hill); reflexivity].
  destruct (insert_alert_cases req w)
    as [(v' & t' & _ & _ & Hins)|(w1 & Hins & _ & _ & Hrules)].
  - rewrite (post_api_alerts_stored req v' t' w Hwf Hins). reflexivity.
  - rewrite (post_api_alerts_refused req w w1 Hwf Hins). exact Hrules.
Qed.

(** X10. POST /api/alerts is all or nothing, whatever the request, the store
    and the network do: it always answers 202, 400 or 500 and never touches
    the rules; a 202 means the body had the required fields, exactly one row
    with the intent's value and threshold was appended to alerts, and one
    notification was attempted for each configured channel; any other answer
    means that no row was stored and no notification was attempted. *)
Theorem raise_is_all_or_nothing req w :
  exists resp w',
    post_api_alerts req w = (Resolved resp, w') /\
    (status_code resp = 202 \/ status_code resp = 400 \/ status_code resp = 500) /\
    alert_rules w' = alert_rules w /\
    (status_code resp = 202 ->
       well_formed req /\
       exists v t,
         value req = val v /\ threshold req = val t /\
         alerts w' = alerts w ++ [row_of req v t w] /\
         map url (dispatched w w') = configured_channels w) /\
    (status_code resp <> 202 -> alerts w' = alerts w /\ requests w' = requests w).
Proof.
  pose proof (post_api_alerts_rules req w) as Hrules.
  assert (Hfail : forall resp w',
            post_api_alerts req w = (Resolved resp, w') ->
            status_code resp = 400 \/ status_code resp = 500 ->
            alerts w' = alerts w -> requests w' = requests w ->
            exists resp w',
              post_api_alerts req w = (Resolved resp, w') /\
              (status_code resp = 202 \/ status_code resp = 400 \/ status_code resp = 500) /\
              alert_rules w' = alert_rules w /\
              (status_code resp = 202 ->
                 well_formed req /\
                 exists v t,
                   value req = val v /\ threshold req = val t /\
                   alerts w' = alerts w ++ [row_of req v t w] /\
                   map url (dispatched w w') = configured_channels w) /\
              (status_code resp <> 202 -> alerts w' = alerts w /\ requests w' = requests w)).
  { intros resp w' Hrun Hwhich Ha Hq. rewrite Hrun in Hrules.
    exists resp, w'. split; [exact Hrun|].
    split; [right; exact Hwhich|]. split; [exact Hrules|].
    split; [intros H; destruct Hwhich as [H'|H']; rewrite H' in H; discriminate
           | intros _; split; assumption]. }
  assert (H400 : truthy_string (device_id req) = false \/
                 truthy_string (metric req) = false \/
                 value req = undefined \/ threshold req = undefined ->
                 exists resp w',
                   post_api_alerts req w = (Resolved resp, w') /\
                   (status_code resp = 202 \/ status_code resp = 400 \/
                    status_code resp = 500) /\
                   alert_rules w' = alert_rules w /\
                   (status_code resp = 202 ->
                      well_formed req /\
                      exists v t,
                        value req = val v /\ threshold req = val t /\
                        alerts w' = alerts w ++ [row_of req v t w] /\
                        map url (dispatched w w') = configured_channels w) /\
                   (status_code resp <> 202 ->
                      alerts w' = alerts w /\ requests w' = requests w)).
  { intros H. eapply Hfail;
      [apply (post_api_alerts_incomplete req w H) | left; reflexivity
      | reflexivity | reflexivity]. }
  destruct (well_formed_dec req) as [Hwf|Hill]; [|apply H400; exact Hill].
  clear H400.
  destruct (insert_alert_cases req w)
    as [(v' & t' & Hv' & Ht' & Hins)|(w1 & Hins & Ha & Hq & _)].
  - pose proof (post_api_alerts_stored req v' t' w Hwf Hins) as Hrun.
    rewrite Hrun in Hrules.
    eexists _, _. split; [exact Hrun|].
    split; [left; reflexivity|]. split; [exact Hrules|].
    split; [|intros H; exfalso; apply H; reflexivity].
    intros _. split; [exact Hwf|]. exists v', t'.
    split; [exact Hv'|]. split; [exact Ht'|]. split; [reflexivity|].
    unfold dispatched. simpl. rewrite drop_length_app. apply attempts_urls.
  - eapply Hfail;
      [apply (post_api_alerts_refused req w w1 Hwf Hins) | right; reflexivity
      | exact Ha | exact Hq].
Qed.



(** X12. An alert that cites a rule the store does not have is refused: the
    body passes the check of required fields, yet the answer is 500, no row
    is stored and no channel is notified. *)
Theorem alert_citing_unknown_rule_is_refused req r w :
  well_formed req -> rule_id req = val r ->
  (forall rule, In rule (alert_rules w) -> id rule <> r) ->
  exists w',
    post_api_alerts req w =
      (Resolved {| status_code := 500; response_body := error_body "internal_error" |},
       w') /\
    alerts w' = alerts w /\ requests w' = requests w.
Proof.
  intros Hwf Hr Hnone.
  destruct (post_api_alerts_dangling req r w Hwf Hr Hnone) as (Hfst & Ha & Hq).
  destruct (post_api_alerts req w) as [o w']. simpl in *. subst o.
  exists w'. repeat split; assumption.
Qed.

Lemma sample_unknown_rule_refused :
  exists w',
    post_api_alerts AlertRules.disk_intent sample_world =
      (Resolved {| status_code := 500; response_body := error_body "internal_error" |},
       w') /\
    alerts w' = [].
Proof.
  destruct (alert_citing_unknown_rule_is_refused AlertRules.disk_intent 2 sample_world)
    as (w' & Hrun & Ha & _).
  - repeat split; discriminate.
  - reflexivity.
  - intros rule [<-|[]]. discriminate.
  - exists w'. split; [exact Hrun | exact Ha].
Defined.

End AlertsMore.

(** ** Alert rules *)

Module AlertRulesFacts.
Import Alerts AlertsFacts AlertsMore AlertRules.

(** X13. POST /api/alert-rules is all or nothing, whatever the request and
    the store do: it answers 201, 400 or 500 and never touches the alerts; a
    201 means the body had a metric, a comparison and a threshold, the
    response carries the id the sequence handed out, and the rule with that
    id, the given fields and the channel (email when none was given) is the
    new last row of alert_rules; any other answer means the rules are as they
    were. *)
Theorem rule_creation_is_all_or_nothing req st :
  exists resp st',
    post_api_alert_rules req st = (Resolved resp, st') /\
    (rule_status_code resp = 201 \/ rule_status_code resp = 400 \/
     rule_status_code resp = 500) /\
    alerts (base st') = alerts (base st) /\
    (rule_status_code resp = 201 ->
       truthy_string (new_metric req) = true /\
       truthy_string (new_comparison req) = true /\
       exists t,
         new_threshold req = val t /\
         rule_response_body resp = rule_created (alert_rules_id_seq st) /\
         alert_rules (base st') =
           alert_rules (base st) ++ [rule_row req (alert_rules_id_seq st) t] /\
         alert_rules_id_seq st' = alert_rules_id_seq st + 1) /\
    (rule_status_code resp <> 201 -> alert_rules (base st') = alert_rules (base st)).
Proof.
  unfold post_api_alert_rules.
  destruct (truthy_string (new_metric req)) eqn:Hm; simpl;
    [|eexists _, st; split; [reflexivity|]; simpl;
      split; [right; left; reflexivity|]; split; [reflexivity|];
      split; [discriminate | reflexivity]].
  destruct (new_threshold req) as [| |t] eqn:Ht; simpl;
    [eexists _, st; split; [reflexivity|]; simpl;
     split; [right; left; reflexivity|]; split; [reflexivity|];
     split; [discriminate | reflexivity] | |];
    (destruct (truthy_string (new_comparison req)) eqn:Hc; simpl;
     [|eexists _, st; split; [reflexivity|]; simpl;
       split; [right; left; reflexivity|]; split; [reflexivity|];
       split; [discriminate | reflexivity]]);
    unfold try_catch, bind, insert_rule;
    destruct (next_fault (pool_faults (base st))) as [fault rest];
    destruct fault; simpl;
    try (eexists _, _; split; [reflexivity|]; simpl;
         split; [right; right; reflexivity|]; split; [reflexivity|];
         split; [discriminate | reflexivity]).
  eexists _, _. split; [reflexivity|]. simpl.
  split; [left; reflexivity|]. split; [reflexivity|].
  split; [|intros H; exfalso; apply H; reflexivity].
  intros _. split; [reflexivity|]. split; [reflexivity|].
  exists t. repeat split.
Qed.



End AlertRulesFacts.

(** ** Rule evaluation and ingestion, request by request *)

Module IngestFacts.
Import Ingestion IngestionFacts Ingest.

Section Endpoint.

Variable Number_toString : float -> string.

Lemma sendAlert_request payload w :
  sendAlert payload w =
    (Resolved tt,
     {| ALERT_SERVICE_URL := ALERT_SERVICE_URL w;
        alert_rules := alert_rules w;
        pool_faults := pool_faults w;
        net_faults := snd (next_fault (net_faults w));
        requests := requests w ++
          [{| url := alert_target w; body := payload;
              delivered := negb (fst (next_fault (net_faults w))) |}] |}).
Proof.
  unfold sendAlert, try_catch, axios_post, ret, alert_target.
  destruct (next_fault (net_faults w)) as [fault rest]. simpl.
  destruct fault; reflexivity.
Qed.

(** The loop posts every intent to the same target, once, and the network
    decides attempt by attempt which ones arrive. *)
Lemma for_rules_requests deviceId metrics rules :
  forall w, exists w' sent,
    for_rules Number_toString deviceId metrics rules w = (Resolved tt, w') /\
    requests w' = requests w ++ sent /\
    alert_rules w' = alert_rules w /\
    Forall (fun r => url r = alert_target w) sent /\
    (forall i r, nth_error sent i = Some r ->
       delivered r = negb (nth i (net_faults w) false)).
Proof.
  induction rules as [|rule rules IH]; intros w.
  - exists w, []. simpl. rewrite app_nil_r. repeat split; [constructor|].
    intros i r Hi. destruct i; discriminate Hi.
  - simpl.
    destruct (metrics !! metric rule) as [[v|]|]; try apply IH.
    match goal with |- context [if ?b then _ else _] => destruct b end; [|apply IH].
    match goal with |- context [sendAlert ?p] => set (payload := p) end.
    rewrite (bind_resolved _ _ _ _ _ (sendAlert_request payload w)).
    match goal with |- context [for_rules _ _ _ rules ?x] => set (w1 := x) end.
    destruct (IH w1) as (w' & sent & Hrun & Hreq & Hrules & Hurl & Hdel).
    exists w', ({| url := alert_target w; body := payload;
                   delivered := negb (fst (next_fault (net_faults w))) |} :: sent).
    split; [exact Hrun|].
    split; [rewrite Hreq; simpl; rewrite <- app_assoc; reflexivity|].
    split; [exact Hrules|]. split; [constructor; [reflexivity | exact Hurl]|].
    intros i r Hi. destruct i as [|i]; simpl in Hi.
    + injection Hi as <-. simpl. destruct (net_faults w); reflexivity.
    + rewrite (Hdel i r Hi). simpl.
      destruct (net_faults w) as [|f fs]; simpl; [destruct i|]; reflexivity.
Qed.

(** One evaluation, from the rules query to the last post. *)
Lemma evaluateRules_requests deviceId metrics w :
  exists w' sent,
    evaluateRules Number_toString deviceId metrics w = (Resolved tt, w') /\
    requests w' = requests w ++ sent /\
    alert_rules w' = alert_rules w /\
    Forall (fun r => url r = alert_target w) sent /\
    (forall i r, nth_error sent i = Some r ->
       delivered r = negb (nth i (net_faults w) false)) /\
    (fst (next_fault (pool_faults w)) = true -> sent = []).
Proof.
  unfold evaluateRules, try_catch, bind, select_alert_rules.
  destruct (next_fault (pool_faults w)) as [fault rest] eqn:Hf. simpl.
  destruct fault; simpl.
  - eexists _, []. split; [reflexivity|]. simpl. rewrite app_nil_r.
    repeat split; [constructor|].
    intros i r Hi. destruct i; discriminate Hi.
  - match goal with |- context [for_rules _ _ _ _ ?x] => set (w1 := x) end.
    destruct (for_rules_requests deviceId metrics (alert_rules w) w1)
      as (w' & sent & Hrun & Hreq & Hrules & Hurl & Hdel).
    rewrite Hrun. exists w', sent. split; [reflexivity|].
    split; [exact Hreq|]. split; [exact Hrules|]. split; [exact Hurl|].
    split; [exact Hdel | discriminate].
Qed.

(** X15. [evaluateRules] never rejects, whatever the store and the network
    do, and never writes to the rules.  When the rules can be read, the
    requests it makes are exactly the intents of one pass over the rules, in
    rule order: one request for each breached rule and no other request, so
    no intent is posted twice and a failed post is not repeated; when the
    rules cannot be read nothing is posted.  Every request goes to the URL of
    ALERT_SERVICE_URL, or to the default URL when the variable is unset or
    empty, and the i-th request arrives exactly when the network does not
    fail it. *)
Theorem evaluateRules_never_rejects deviceId metrics w :
  exists w',
    evaluateRules Number_toString deviceId metrics w = (Resolved tt, w') /\
    alert_rules w' = alert_rules w /\
    (exists sent, requests w' = requests w ++ sent) /\
    (fst (next_fault (pool_faults w)) = false ->
       Emits Number_toString deviceId metrics (alert_rules w)
         (map body (sent_between w w'))) /\
    (fst (next_fault (pool_faults w)) = true -> sent_between w w' = []) /\
    (forall u, ALERT_SERVICE_URL w = Some u -> u <> "" ->
       Forall (fun r => url r = u) (sent_between w w')) /\
    (ALERT_SERVICE_URL w = None \/ ALERT_SERVICE_URL w = Some "" ->
       Forall (fun r => url r = "http://alert-service:3003/api/alerts")
         (sent_between w w')) /\
    (forall i r, nth_error (sent_between w w') i = Some r ->
       delivered r = negb (nth i (net_faults w) false)).
Proof.
  destruct (evaluateRules_requests deviceId metrics w)
    as (w' & sent & Hrun & Hreq & Hrules & Hurl & Hdel & Hdown).
  exists w'. split; [exact Hrun|]. split; [exact Hrules|].
  split; [exists sent; exact Hreq|].
  split.
  { intros Hup.
    destruct (evaluateRules_emits Number_toString deviceId metrics w Hup)
      as (w2 & Hrun2 & Hem).
    rewrite Hrun in Hrun2. injection Hrun2 as <-. exact Hem. }
  unfold sent_between. rewrite Hreq, drop_length_app.
  unfold alert_target in Hurl.
  split; [exact Hdown|]. split; [|split; [|exact Hdel]].
  - intros u Hu Hne. rewrite Hu in Hurl.
    destruct (String.eqb_spec u ""); [contradiction | exact Hurl].
  - intros [Hu|Hu]; rewrite Hu in Hurl; exact Hurl.
Qed.

(** Both comparisons are strict. *)
Lemma ltb_irrefl (x : float) : PrimFloat.ltb x x = false.
Proof.
  rewrite ltb_spec. unfold SFltb. destruct (Prim2SF x) as [s|s| |s m e]; simpl.
  - destruct s; reflexivity.
  - destruct s; reflexivity.
  - reflexivity.
  - rewrite Z.compare_refl, Pos.compare_refl. destruct s; reflexivity.
Qed.

(** X16. The threshold itself is no breach: when the rule ids are distinct
    (id is the primary key) and the sample reads exactly the threshold of a
    rule, the evaluation posts no alert for that rule, whether its comparison
    is gt, lt or anything else, and whatever store and network do. *)
Theorem reading_at_threshold_raises_nothing deviceId metrics w rule :
  List.NoDup (map id (alert_rules w)) ->
  In rule (alert_rules w) ->
  metrics !! metric rule = Some (Some (threshold rule)) ->
  alerts_of_rule (id rule)
    (emitted w (snd (evaluateRules Number_toString deviceId metrics w))) = 0%nat.
Proof.
  intros Hnd Hin Hv.
  destruct (fst (next_fault (pool_faults w))) eqn:Hf.
  - destruct (evaluateRules_store_down Number_toString deviceId metrics w Hf) as [_ Hreq].
    unfold emitted. rewrite Hreq, drop_all. reflexivity.
  - destruct (evaluateRules_emits Number_toString deviceId metrics w Hf)
      as (w' & Hrun & Hem).
    rewrite Hrun. simpl.
    apply (Emits_count Number_toString _ _ _ _ Hem Hnd rule Hin).
    intros (v & Hv' & Hc). rewrite Hv in Hv'. injection Hv' as <-.
    destruct Hc as [[_ Hlt]|[_ Hlt]]; rewrite ltb_irrefl in Hlt; discriminate.
Qed.

(** What the ingest endpoint does once the sample is stored. *)
Lemma post_api_ingest_stored req st :
  complete req -> fst (next_fault (pool_faults (world st))) = false ->
  post_api_ingest Number_toString req st =
    (Resolved {| ingest_status_code := 202;
                 ingest_response_body := ingest_status "accepted" |},
     {| metrics_table := metrics_table st ++ [metric_row req];
        world :=
          snd (evaluateRules Number_toString (text_of (sample_device_id req))
                 (metrics_of (sample_metrics req))
                 (with_pool (snd (next_fault (pool_faults (world st)))) (world st))) |}).
Proof.
  intros (Hd & Ht & metrics & Hm) Hf. unfold post_api_ingest, metric_row.
  rewrite Hd, Ht, Hm. simpl.
  unfold try_catch, bind, insert_metrics, detached, ret.
  destruct (next_fault (pool_faults (world st))) as [fault rest]. simpl in Hf.
  subst fault. reflexivity.
Qed.

Lemma post_api_ingest_not_stored req st :
  complete req -> fst (next_fault (pool_faults (world st))) = true ->
  post_api_ingest Number_toString req st =
    (Resolved {| ingest_status_code := 500;
                 ingest_response_body := ingest_error "internal_error" |},
     {| metrics_table := metrics_table st;
        world := with_pool (snd (next_fault (pool_faults (world st)))) (world st) |}).
Proof.
  intros (Hd & Ht & metrics & Hm) Hf. unfold post_api_ingest, metric_row.
  rewrite Hd, Ht, Hm. simpl.
  unfold try_catch, bind, insert_metrics, detached, ret.
  destruct (next_fault (pool_faults (world st))) as [fault rest]. simpl in Hf.
  subst fault. reflexivity.
Qed.

Lemma post_api_ingest_incomplete req st :
  ~ complete req ->
  post_api_ingest Number_toString req st =
    (Resolved {| ingest_status_code := 400;
                 ingest_response_body :=
                   ingest_error "device_id, timestamp and metrics are required" |},
     st).
Proof.
  intros Hno. unfold post_api_ingest.
  destruct (truthy_string (sample_device_id req)) eqn:Hd; [|reflexivity].
  destruct (truthy_string (sample_timestamp req)) eqn:Ht; [|reflexivity].
  destruct (sample_metrics req) as [| |metrics] eqn:Hm; try reflexivity.
  exfalso. apply Hno. repeat split; try assumption. exists metrics. exact Hm.
Qed.

Lemma complete_dec req : complete req \/ ~ complete req.
Proof.
  unfold complete.
  destruct (truthy_string (sample_device_id req));
    [|right; intros (H & _); discriminate].
  destruct (truthy_string (sample_timestamp req));
    [|right; intros (_ & H & _); discriminate].
  destruct (sample_metrics req) as [| |metrics];
    [right; intros (_ & _ & m & H); discriminate
    |right; intros (_ & _ & m & H); discriminate|].
  left. repeat split. exists metrics. reflexivity.
Qed.

(** X17. POST /api/ingest is all or nothing on the sample, whichever
    queries and posts fail: it answers 202, 400 or 500 and never writes to
    the rules; a 202 means the body was complete and exactly one row, with
    the cpu, memory, disk and network of the sample (null where absent), was
    appended to metrics; any other answer means that no row was stored and
    that no alert was posted. *)
Theorem ingest_is_all_or_nothing req st :
  exists resp st',
    post_api_ingest Number_toString req st = (Resolved resp, st') /\
    (ingest_status_code resp = 202 \/ ingest_status_code resp = 400 \/
     ingest_status_code resp = 500) /\
    alert_rules (world st') = alert_rules (world st) /\
    (ingest_status_code resp = 202 ->
       complete req /\ metrics_table st' = metrics_table st ++ [metric_row req]) /\
    (ingest_status_code resp <> 202 ->
       metrics_table st' = metrics_table st /\
       requests (world st') = requests (world st)).
Proof.
  destruct (complete_dec req) as [Hc|Hno].
  - destruct (fst (next_fault (pool_faults (world st)))) eqn:Hf.
    + eexists _, _. split; [apply post_api_ingest_not_stored; assumption|]. simpl.
      split; [right; right; reflexivity|]. split; [reflexivity|].
      split; [discriminate | intros _; split; reflexivity].
    + eexists _, _. split; [apply post_api_ingest_stored; assumption|]. simpl.
      destruct (evaluateRules_requests (text_of (sample_device_id req))
                  (metrics_of (sample_metrics req))
                  (with_pool (snd (next_fault (pool_faults (world st)))) (world st)))
        as (w' & sent & Hrun & _ & Hrules & _).
      rewrite Hrun. simpl.
      split; [left; reflexivity|]. split; [exact Hrules|].
      split; [intros _; split; [exact Hc | reflexivity]|].
      intros H. exfalso. apply H. reflexivity.
  - eexists _, _. split; [apply post_api_ingest_incomplete; exact Hno|]. simpl.
    split; [right; left; reflexivity|]. split; [reflexivity|].
    split; [discriminate | intros _; split; reflexivity].
Qed.

(** X18. The acknowledgement does not wait for the evaluation: once the
    sample is complete and its row is stored the answer is 202, whether or
    not the rules can be read and whatever the network does.  When the rules
    can be read, the alerts posted are those of a pass over all rules with
    the whole sample, so a metric that has no column in metrics (latency,
    say) is still evaluated; when they cannot, nothing is posted. *)
Theorem ingest_acknowledges_before_evaluation req st :
  complete req -> fst (next_fault (pool_faults (world st))) = false ->
  exists st',
    post_api_ingest Number_toString req st =
      (Resolved {| ingest_status_code := 202;
                   ingest_response_body := ingest_status "accepted" |}, st') /\
    metrics_table st' = metrics_table st ++ [metric_row req] /\
    (fst (next_fault (snd (next_fault (pool_faults (world st))))) = false ->
       Emits Number_toString (text_of (sample_device_id req))
         (metrics_of (sample_metrics req)) (alert_rules (world st))
         (emitted (world st) (world st'))) /\
    (fst (next_fault (snd (next_fault (pool_faults (world st))))) = true ->
       requests (world st') = requests (world st)).
Proof.
  intros Hc Hf. eexists. split; [apply post_api_ingest_stored; assumption|]. simpl.
  split; [reflexivity|]. split.
  - intros Hrules.
    destruct (evaluateRules_emits Number_toString (text_of (sample_device_id req))
                (metrics_of (sample_metrics req))
                (with_pool (snd (next_fault (pool_faults (world st)))) (world st)) Hrules)
      as (w' & Hrun & Hem).
    rewrite Hrun. exact Hem.
  - intros Hdown.
    apply (evaluateRules_store_down Number_toString (text_of (sample_device_id req))
             (metrics_of (sample_metrics req))
             (with_pool (snd (next_fault (pool_faults (world st)))) (world st)) Hdown).
Qed.

End Endpoint.

(** The sample has no column for latency, and the latency rule fires all the
    same, towards the default URL. *)
Lemma sample_ingest_alerts_on_latency :
  exists st',
    post_api_ingest sample_toString sample_request sample_store =
      (Resolved {| ingest_status_code := 202;
                   ingest_response_body := ingest_status "accepted" |}, st') /\
    map (fun row => (cpu row, memory row)) (metrics_table st') = [(Some 50%float, None)] /\
    map (fun r => (url r, rule_id (body r))) (requests (world st')) =
      [("http://alert-service:3003/api/alerts", 3)].
Proof.
  destruct (ingest_acknowledges_before_evaluation sample_toString sample_request
              sample_store)
    as (st' & Hrun & Htable & _).
  - repeat split. eexists. reflexivity.
  - reflexivity.
  - exists st'. split; [exact Hrun|]. split; [rewrite Htable; reflexivity|].
    assert (Hsnd : map (fun r => (url r, rule_id (body r)))
                     (requests (world (snd (post_api_ingest sample_toString
                                              sample_request sample_store)))) =
                   [("http://alert-service:3003/api/alerts", 3)]) by reflexivity.
    rewrite Hrun in Hsnd. exact Hsnd.
Defined.

(** A cpu reading of exactly 85 does not breach the rule cpu > 85. *)
Lemma sample_cpu_at_threshold :
  alerts_of_rule 1
    (emitted sample_world
       (snd (evaluateRules sample_toString "srv-01" {[ "cpu" := Some 85%float ]}
               sample_world))) = 0%nat.
Proof.
  apply (reading_at_threshold_raises_nothing sample_toString "srv-01"
           {[ "cpu" := Some 85%float ]} sample_world cpu_rule).
  - simpl. repeat constructor; simpl; intuition discriminate.
  - left. reflexivity.
  - reflexivity.
Defined.

End IngestFacts.

(** ** From a rule to a stored alert: the two services together *)

Module WireFacts.

Section Pipeline.

Variable Number_toString : float -> string.



Lemma as_written_again x : as_written (as_written x) = as_written x.
Proof.
  unfold as_written. destruct (PrimFloat.eqb x 0) eqn:E; [reflexivity|].
  rewrite E. reflexivity.
Qed.

(** X19. A breach ends as a row of alerts.  When the ingestion service reads
    the rules of the alert store and the device id of the sample is a UUID,
    a rule of that store whose metric is in the sample with a finite value
    that breaches its finite threshold makes [evaluateRules] post an intent,
    and POST /api/alerts answers that very intent with 202 and appends one
    alert: the device as the store prints it, the metric, the observed value
    and the threshold as they are written (a negative zero arrives as zero),
    and the id of the rule, with the resolved suggestion and description. *)
Theorem breach_becomes_stored_alert deviceId device metrics wa faults network rule v :
  uuid_in deviceId = Some device ->
  In rule (Alerts.alert_rules wa) ->
  int4 (Alerts.id rule) = true ->
  Alerts.rule_metric rule <> "" ->
  metrics !! Alerts.rule_metric rule = Some (Some v) ->
  Ingestion.comparison_holds (Wire.rule_view rule) v ->
  PrimFloat.is_finite v = true ->
  PrimFloat.is_finite (Alerts.rule_threshold rule) = true ->
  fst (next_fault faults) = false ->
  fst (next_fault (Alerts.pool_faults wa)) = false ->
  exists a wa',
    In a (Ingestion.emitted (Wire.reading wa faults network)
            (snd (Ingestion.evaluateRules Number_toString deviceId metrics
                    (Wire.reading wa faults network)))) /\
    Alerts.post_api_alerts (Wire.intent_body a) wa = (Resolved Alerts.accepted, wa') /\
    Alerts.alerts wa' =
      Alerts.alerts wa ++
        [{| Alerts.alert_id := Alerts.alerts_id_seq wa;
            Alerts.alert_device_id := device;
            Alerts.alert_metric := Alerts.rule_metric rule;
            Alerts.alert_value := as_written v;
            Alerts.alert_threshold := as_written (Alerts.rule_threshold rule);
            Alerts.alert_rule_id := Some (Alerts.id rule);
            Alerts.alert_suggestion :=
              Some (Ingestion.resolved_suggestion (Wire.rule_view rule));
            Alerts.alert_description :=
              Some (Ingestion.resolved_description Number_toString
                      (Wire.rule_view rule)) |}].
Proof.
  intros Hdev Hin Hint Hmetric Hv Hc Hfv Hft Hf Hp.
  assert (Hne : deviceId <> "") by (intros ->; discriminate Hdev).
  set (wi := Wire.reading wa faults network).
  destruct (IngestionFacts.evaluateRules_emits Number_toString deviceId metrics wi Hf)
    as (w' & Hrun & Hem).
  destruct (IngestionFacts.Emits_breached Number_toString _ _ _ _ Hem
              (Wire.rule_view rule) v)
    as (a & Ha & Hrep).
  { apply in_map. exact Hin. }
  { exact Hv. }
  { exact Hc. }
  destruct Hrep as (Rd & Rm & Rv & Rt & Rid & Rs & Rdesc). simpl in Rm, Rt, Rid.
  destruct (AlertsMore.post_api_alerts_taken (Wire.intent_body a) wa)
    as (v' & t' & Ev & Et & Hpost).
  - unfold Alerts.well_formed, Wire.intent_body, Wire.json_number. simpl.
    rewrite Rd, Rm, Rv, Rt, Hfv, Hft.
    repeat split; try discriminate.
    + apply negb_true_iff, String.eqb_neq. exact Hne.
    + apply negb_true_iff, String.eqb_neq. exact Hmetric.
  - unfold Alerts.persists, Wire.intent_body, Wire.json_number. simpl.
    rewrite Rd, Rv, Rt, Hfv, Hft, Rid.
    split; [exact Hp|]. split; [exists device; exact Hdev|].
    split; [discriminate|]. split; [discriminate|]. split; [exact Hint|].
    exists rule. split; [exact Hin | reflexivity].
  - exists a. eexists. rewrite Hrun. split; [exact Ha|]. split; [exact Hpost|].
    unfold Wire.intent_body, Wire.json_number in Ev, Et. simpl in Ev, Et.
    rewrite Rv, Hfv in Ev. rewrite Rt, Hft in Et.
    injection Ev as <-. injection Et as <-.
    simpl. unfold Alerts.row_of, Alerts.printed. simpl.
    rewrite Rd, Hdev, Rm, Rid, Rs, Rdesc, !as_written_again. reflexivity.
Qed.


End Pipeline.

(** A cpu reading of 97 against the rule cpu > 85 of the sample store, from
    an agent that writes its device id in upper case. *)
Lemma sample_breach_is_stored :
  exists a wa',
    In a (Ingestion.emitted (Wire.reading Alerts.quiet_world [] [])
            (snd (Ingestion.evaluateRules Ingestion.sample_toString
                    "6F1C2D9E-0B7A-4C1E-9A57-2F1D3C4B5A69"
                    {[ "cpu" := Some 97%float ]}
                    (Wire.reading Alerts.quiet_world [] [])))) /\
    Alerts.post_api_alerts (Wire.intent_body a) Alerts.quiet_world =
      (Resolved Alerts.accepted, wa') /\
    map (fun row => (Alerts.alert_id row, Alerts.alert_device_id row,
                     Alerts.alert_rule_id row, Alerts.alert_description row))
      (Alerts.alerts wa') =
      [(1, "6f1c2d9e-0b7a-4c1e-9a57-2f1d3c4b5a69", Some 1,
        Some "Metric cpu gt threshold 85")].
Proof.
  destruct (breach_becomes_stored_alert Ingestion.sample_toString
              "6F1C2D9E-0B7A-4C1E-9A57-2F1D3C4B5A69"
              "6f1c2d9e-0b7a-4c1e-9a57-2f1d3c4b5a69"
              {[ "cpu" := Some 97%float ]} Alerts.quiet_world [] []
              {| Alerts.id := 1; Alerts.rule_metric := "cpu";
                 Alerts.rule_threshold := 85%float;
                 Alerts.rule_comparison := "gt"; Alerts.channel := "email";
                 Alerts.rule_suggestion := None; Alerts.rule_description := None |}
              97%float)
    as (a & wa' & Ha & Hpost & Halerts).
  - reflexivity.
  - left. reflexivity.
  - reflexivity.
  - discriminate.
  - reflexivity.
  - left. split; reflexivity.
  - reflexivity.
  - reflexivity.
  - reflexivity.
  - reflexivity.
  - exists a, wa'. split; [exact Ha|]. split; [exact Hpost|].
    rewrite Halerts. reflexivity.
Defined.


End WireFacts.

(** ** The queries of the report endpoints *)

Module ReportsFacts.
Import Reports.

(** Splits on which filters are given and names the query that results. *)
Ltac by_filters :=
  unfold top_talkers, interface_report, interface_trend, performance_report,
    top_talkers_filters, interface_report_filters, interface_trend_filters,
    performance_report_filters, when_given, and_when_given, asked;
  repeat match goal with
         | |- context [truthy_string ?x] => destruct (truthy_string x)
         end;
  simpl.

Ltac find_position :=
  first [ exists 0%nat; split; [reflexivity | vm_compute; reflexivity]
        | exists 1%nat; split; [reflexivity | vm_compute; reflexivity]
        | exists 2%nat; split; [reflexivity | vm_compute; reflexivity]
        | exists 3%nat; split; [reflexivity | vm_compute; reflexivity]
        | exists 4%nat; split; [reflexivity | vm_compute; reflexivity] ].

(** X21. Whichever filters a report request gives, the placeholders of the
    query text are $1, $2, ... in the order they occur, as many as there are
    parameters, and the parameters are the values of the filters that are
    given, in the order the handler reads them (site, device, interface,
    start, end), the two times as dates; a filter that is absent or empty
    contributes nothing, and a request without filters runs the bare query,
    without a WHERE.  /api/interface-trend refuses with 400 when the device
    or the interface is missing or empty, and otherwise runs such a query
    with these two as its first parameters. *)
Theorem parameters_match_placeholders siteId deviceId iface startTime endTime :
  (exists q, top_talkers siteId startTime endTime = run q /\
             placeholders (sql q) = seq 1 (length (values q)) /\
             values q = map snd (top_talkers_filters siteId startTime endTime) /\
             (top_talkers_filters siteId startTime endTime = [] ->
              sql q = (top_talkers_select ++ top_talkers_tail)%string)) /\
  (exists q, interface_report siteId deviceId iface startTime endTime = run q /\
             placeholders (sql q) = seq 1 (length (values q)) /\
             values q = map snd (interface_report_filters siteId deviceId iface
                                   startTime endTime) /\
             (interface_report_filters siteId deviceId iface startTime endTime = [] ->
              sql q = (interface_report_select ++ interface_report_tail)%string)) /\
  (exists q, performance_report siteId = run q /\
             placeholders (sql q) = seq 1 (length (values q)) /\
             values q = map snd (performance_report_filters siteId) /\
             (performance_report_filters siteId = [] ->
              sql q = (performance_report_select ++ " GROUP BY site_id")%string)) /\
  match interface_trend deviceId iface startTime endTime with
  | run q => truthy_string deviceId && truthy_string iface = true /\
             placeholders (sql q) = seq 1 (length (values q)) /\
             values q = map snd (interface_trend_filters deviceId iface
                                   startTime endTime)
  | refuse code _ => code = 400 /\ truthy_string deviceId && truthy_string iface = false
  end.
Proof.
  split; [|split; [|split]].
  - by_filters; eexists; (split; [reflexivity|]);
      (split; [vm_compute; reflexivity|]); split; try reflexivity; discriminate.
  - by_filters; eexists; (split; [reflexivity|]);
      (split; [vm_compute; reflexivity|]); split; try reflexivity; discriminate.
  - by_filters; eexists; (split; [reflexivity|]);
      (split; [vm_compute; reflexivity|]); split; try reflexivity; discriminate.
  - unfold interface_trend, interface_trend_filters, and_when_given, asked.
    destruct (truthy_string deviceId), (truthy_string iface),
      (truthy_string startTime), (truthy_string endTime);
      simpl; repeat split; vm_compute; reflexivity.
Qed.

(** X22. Each filter is compared with its own value: for every filter that
    is given, the query text holds its condition with a placeholder, and the
    parameter at the position that placeholder names is the value of that
    filter, whichever other filters are given before it. *)
Theorem each_filter_is_bound_to_its_value siteId deviceId iface startTime endTime :
  (exists q, top_talkers siteId startTime endTime = run q /\
             Forall (binds q) (top_talkers_filters siteId startTime endTime)) /\
  (exists q, interface_report siteId deviceId iface startTime endTime = run q /\
             Forall (binds q) (interface_report_filters siteId deviceId iface
                                 startTime endTime)) /\
  (exists q, performance_report siteId = run q /\
             Forall (binds q) (performance_report_filters siteId)) /\
  (forall q, interface_trend deviceId iface startTime endTime = run q ->
             Forall (binds q) (interface_trend_filters deviceId iface
                                 startTime endTime)).
Proof.
  split; [|split; [|split]].
  - by_filters; eexists; (split; [reflexivity|]);
      repeat match goal with |- Forall _ _ => constructor end; find_position.
  - by_filters; eexists; (split; [reflexivity|]);
      repeat match goal with |- Forall _ _ => constructor end; find_position.
  - by_filters; eexists; (split; [reflexivity|]);
      repeat match goal with |- Forall _ _ => constructor end; find_position.
  - intros q. unfold interface_trend, interface_trend_filters, and_when_given, asked.
    destruct (truthy_string deviceId), (truthy_string iface),
      (truthy_string startTime), (truthy_string endTime);
      simpl; intros Hq; try discriminate Hq; injection Hq as <-;
      repeat match goal with |- Forall _ _ => constructor end; find_position.
Qed.

End ReportsFacts.

(** ** The inventory of devices *)

Module DevicesFacts.
Import Devices.

Lemma is_device_true deviceId row :
  is_device deviceId row = true <-> row_device_id row = deviceId.
Proof. unfold is_device. apply String.eqb_eq. Qed.

Lemma is_device_false deviceId row :
  is_device deviceId row = false <-> row_device_id row <> deviceId.
Proof. unfold is_device. apply String.eqb_neq. Qed.


Lemma ids_rewritten deviceId (f : DeviceRow -> DeviceRow) rows :
  (forall row, is_device deviceId row = true -> row_device_id (f row) = row_device_id row) ->
  map row_device_id (map (fun row => if is_device deviceId row then f row else row) rows) =
    map row_device_id rows.
Proof.
  intros Hid. induction rows as [|row rows IH]; simpl.
  - reflexivity.
  - rewrite IH. destruct (is_device deviceId row) eqn:Hrow; [rewrite (Hid row Hrow)|];
      reflexivity.
Qed.


Lemma find_removed deviceId other rows :
  find (is_device other)
    (List.filter (fun row => negb (is_device deviceId row)) rows) =
    if String.eqb other deviceId then None else find (is_device other) rows.
Proof.
  induction rows as [|row rows IH]; simpl.
  - destruct (String.eqb other deviceId); reflexivity.
  - destruct (is_device deviceId row) eqn:Hrow; simpl.
    + rewrite IH. destruct (String.eqb other deviceId) eqn:Ho; [reflexivity|].
      apply is_device_true in Hrow. apply String.eqb_neq in Ho.
      assert (Hother : is_device other row = false).
      { apply is_device_false. congruence. }
      rewrite Hother. reflexivity.
    + rewrite IH. destruct (String.eqb other deviceId) eqn:Ho.
      * apply String.eqb_eq in Ho. subst other. rewrite Hrow. reflexivity.
      * reflexivity.
Qed.

Lemma removed_unknown deviceId rows :
  find (is_device deviceId) rows = None ->
  List.filter (fun row => negb (is_device deviceId row)) rows = rows.
Proof.
  induction rows as [|row rows IH]; simpl; intros Hnone.
  - reflexivity.
  - destruct (is_device deviceId row); [discriminate|]. simpl.
    rewrite (IH Hnone). reflexivity.
Qed.

Lemma unknown_not_listed deviceId rows :
  existsb (is_device deviceId) rows = false -> ~ In deviceId (map row_device_id rows).
Proof.
  induction rows as [|row rows IH]; simpl; intros Hno.
  - intros [].
  - apply orb_false_iff in Hno as [Hrow Hrest].
    intros [Heq|Hin]; [|exact (IH Hrest Hin)].
    apply is_device_false in Hrow. contradiction.
Qed.

Lemma NoDup_snoc {A : Type} (l : list A) x :
  List.NoDup l -> ~ In x l -> List.NoDup (l ++ [x]).
Proof.
  induction l as [|y l IH]; simpl; intros Hnd Hx.
  - constructor; [intros [] | constructor].
  - apply NoDup_cons_iff in Hnd as [Hy Hnd]. apply NoDup_cons_iff. split.
    + intros Hin. apply in_app_or in Hin as [Hin|[Heq|[]]]; [contradiction|].
      apply Hx. left. symmetry. exact Heq.
    + apply IH; [exact Hnd|]. intros Hin. apply Hx. right. exact Hin.
Qed.

Lemma NoDup_removed deviceId rows :
  List.NoDup (map row_device_id rows) ->
  List.NoDup (map row_device_id
                (List.filter (fun row => negb (is_device deviceId row)) rows)).
Proof.
  induction rows as [|row rows IH]; simpl; intros Hnd.
  - constructor.
  - apply NoDup_cons_iff in Hnd as [Hrow Hnd].
    destruct (is_device deviceId row); simpl; [exact (IH Hnd)|].
    apply NoDup_cons_iff. split; [|exact (IH Hnd)].
    intros Hin. apply Hrow. apply in_map_iff in Hin as (other & Hid & Hin).
    apply in_map_iff. exists other. split; [exact Hid|].
    apply filter_In in Hin. apply Hin.
Qed.

(** *** Each handler, when the store answers and when it does not *)

Lemma post_api_devices_run device w :
  post_api_devices device w =
    if fst (next_fault (pool_faults w))
       || existsb (is_device (uuids w (uuid_calls w))) (devices w)
    then (Resolved internal_error, left_by (devices w) (S (uuid_calls w)) w)
    else
      (Resolved {| status_code := 201;
                   response_body := created_body (uuids w (uuid_calls w)) |},
       left_by
         (devices w ++ [device_row (uuids w (uuid_calls w)) device "manual" (now w)])
         (S (uuid_calls w)) w).
Proof.
  unfold post_api_devices, bind, uuidv4, try_catch, insert_device, ret, left_by. simpl.
  destruct (next_fault (pool_faults w)) as [fault rest]. simpl.
  destruct fault; simpl; [reflexivity|].
  destruct (existsb _ (devices w)); reflexivity.
Qed.

Lemma put_api_devices_run deviceId device w :
  put_api_devices deviceId device w =
    if fst (next_fault (pool_faults w))
    then (Resolved internal_error, left_by (devices w) (uuid_calls w) w)
    else
      match uuid_in deviceId with
      | Some id =>
          (Resolved {| status_code := 204; response_body := no_body |},
           left_by
             (map (fun row => if is_device id row then updated row device else row)
                (devices w))
             (uuid_calls w) w)
      | None => (Resolved internal_error, left_by (devices w) (uuid_calls w) w)
      end.
Proof.
  unfold put_api_devices, bind, try_catch, update_device, ret, left_by.
  destruct (next_fault (pool_faults w)) as [fault rest]. simpl.
  destruct fault; [reflexivity|].
  destruct (uuid_in deviceId); reflexivity.
Qed.

Lemma delete_api_devices_run deviceId w :
  delete_api_devices deviceId w =
    if fst (next_fault (pool_faults w))
    then (Resolved internal_error, left_by (devices w) (uuid_calls w) w)
    else
      match uuid_in deviceId with
      | Some id =>
          (Resolved {| status_code := 204; response_body := no_body |},
           left_by (List.filter (fun row => negb (is_device id row)) (devices w))
             (uuid_calls w) w)
      | None => (Resolved internal_error, left_by (devices w) (uuid_calls w) w)
      end.
Proof.
  unfold delete_api_devices, bind, try_catch, delete_device, ret, left_by.
  destruct (next_fault (pool_faults w)) as [fault rest]. simpl.
  destruct fault; [reflexivity|].
  destruct (uuid_in deviceId); reflexivity.
Qed.

Lemma post_api_devices_register_run device w :
  exists text calls,
    (if truthy_string (device_id device)
     then text = text_of (device_id device) /\ calls = uuid_calls w
     else text = uuids w (uuid_calls w) /\ calls = S (uuid_calls w)) /\
    post_api_devices_register device w =
      if fst (next_fault (pool_faults w))
      then (Resolved internal_error, left_by (devices w) calls w)
      else
        match uuid_in text with
        | Some id =>
            (Resolved {| status_code := 202;
                         response_body := registered_body text "registered" |},
             left_by (registered id device (now w) (devices w)) calls w)
        | None => (Resolved internal_error, left_by (devices w) calls w)
        end.
Proof.
  unfold post_api_devices_register, registered, left_by.
  destruct (truthy_string (device_id device)).
  - exists (text_of (device_id device)), (uuid_calls w). split; [split; reflexivity|].
    unfold bind, ret, try_catch, upsert_device. simpl.
    destruct (next_fault (pool_faults w)) as [fault rest]. simpl.
    destruct fault; simpl; [reflexivity|].
    destruct (uuid_in (text_of (device_id device))) as [id|]; [|reflexivity].
    destruct (existsb _ (devices w)); reflexivity.
  - exists (uuids w (uuid_calls w)), (S (uuid_calls w)). split; [split; reflexivity|].
    unfold bind, uuidv4, ret, try_catch, upsert_device. simpl.
    destruct (next_fault (pool_faults w)) as [fault rest]. simpl.
    destruct fault; simpl; [reflexivity|].
    destruct (uuid_in (uuids w (uuid_calls w))) as [id|]; [|reflexivity].
    destruct (existsb _ (devices w)); reflexivity.
Qed.


Lemma registered_ids_unique id device t rows :
  List.NoDup (map row_device_id rows) ->
  List.NoDup (map row_device_id (registered id device t rows)).
Proof.
  unfold registered. intros Hnd.
  destruct (existsb (is_device id) rows) eqn:Hknown.
  - rewrite (ids_rewritten id (fun _ => device_row id device "agent" t));
      [exact Hnd|].
    intros row Hrow. simpl. symmetry. apply is_device_true. exact Hrow.
  - rewrite map_app. simpl. apply NoDup_snoc; [exact Hnd|].
    apply unknown_not_listed. exact Hknown.
Qed.




(** X23. Every call to the device service is answered, with 201, 202, 204
    or 500 according to the endpoint, whatever the request and the store do;
    a 500 leaves the inventory as it was, and no call makes two rows share a
    device id. *)
Theorem device_calls_are_answered call w :
  exists resp w',
    serve call w = (Resolved resp, w') /\
    (status_code resp = 500 \/
     status_code resp = match call with
                        | Create _ => 201
                        | Update _ _ | Delete _ => 204
                        | Register _ => 202
                        end) /\
    (status_code resp = 500 -> devices w' = devices w) /\
    (unique w -> unique w').
Proof.
  destruct call as [device|deviceId device|deviceId|device]; simpl.
  - rewrite post_api_devices_run.
    destruct (fst (next_fault (pool_faults w))
              || existsb (is_device (uuids w (uuid_calls w))) (devices w)) eqn:Hbad.
    + eexists _, _. split; [reflexivity|]. simpl.
      split; [left; reflexivity|]. split; [reflexivity|]. intros H; exact H.
    + eexists _, _. split; [reflexivity|]. simpl.
      split; [right; reflexivity|]. split; [discriminate|].
      unfold unique. simpl. intros Hnd. rewrite map_app. simpl.
      apply NoDup_snoc; [exact Hnd|]. apply unknown_not_listed.
      apply orb_false_iff in Hbad. apply Hbad.
  - rewrite put_api_devices_run.
    destruct (fst (next_fault (pool_faults w))).
    + eexists _, _. split; [reflexivity|]. simpl.
      split; [left; reflexivity|]. split; [reflexivity|]. intros H; exact H.
    + destruct (uuid_in deviceId) as [id|].
      * eexists _, _. split; [reflexivity|]. simpl.
        split; [right; reflexivity|]. split; [discriminate|].
        unfold unique. simpl. intros Hnd.
        rewrite (ids_rewritten id (fun row => updated row device));
          [exact Hnd | reflexivity].
      * eexists _, _. split; [reflexivity|]. simpl.
        split; [left; reflexivity|]. split; [reflexivity|]. intros H; exact H.
  - rewrite delete_api_devices_run. destruct (fst (next_fault (pool_faults w))).
    + eexists _, _. split; [reflexivity|]. simpl.
      split; [left; reflexivity|]. split; [reflexivity|]. intros H; exact H.
    + destruct (uuid_in deviceId) as [id|].
      * eexists _, _. split; [reflexivity|]. simpl.
        split; [right; reflexivity|]. split; [discriminate|].
        unfold unique. simpl. apply NoDup_removed.
      * eexists _, _. split; [reflexivity|]. simpl.
        split; [left; reflexivity|]. split; [reflexivity|]. intros H; exact H.
  - destruct (post_api_devices_register_run device w) as (text & calls & _ & Hrun).
    rewrite Hrun. destruct (fst (next_fault (pool_faults w))).
    + eexists _, _. split; [reflexivity|]. simpl.
      split; [left; reflexivity|]. split; [reflexivity|]. intros H; exact H.
    + destruct (uuid_in text) as [id|].
      * eexists _, _. split; [reflexivity|]. simpl.
        split; [right; reflexivity|]. split; [discriminate|].
        unfold unique at 2. simpl. apply registered_ids_unique.
      * eexists _, _. split; [reflexivity|]. simpl.
        split; [left; reflexivity|]. split; [reflexivity|]. intros H; exact H.
Qed.




(** X27. A deleted device is gone.  When the store answers, DELETE
    /api/devices/:deviceId answers 500 and changes nothing when the id of the
    path is no UUID; when the store reads it as the UUID id, it answers 204
    whether or not the device exists; afterwards the device is not in the
    inventory, every other device is as it was, and deleting an unknown
    device changes nothing. *)
Theorem deleted_device_is_gone deviceId w :
  fst (next_fault (pool_faults w)) = false ->
  exists resp w',
    delete_api_devices deviceId w = (Resolved resp, w') /\
    (uuid_in deviceId = None -> resp = internal_error /\ devices w' = devices w) /\
    (forall id, uuid_in deviceId = Some id ->
       resp = {| status_code := 204; response_body := no_body |} /\
       lookup id w' = None /\
       (forall other, other <> id -> lookup other w' = lookup other w) /\
       (lookup id w = None -> devices w' = devices w)).
Proof.
  intros Hp. rewrite delete_api_devices_run, Hp. destruct (uuid_in deviceId) as [id|].
  - eexists _, _. split; [reflexivity|]. simpl.
    split; [discriminate|]. intros id' [= <-]. split; [reflexivity|].
    split; [|split].
    + unfold lookup. simpl. rewrite find_removed, String.eqb_refl. reflexivity.
    + intros other Hother. unfold lookup. simpl. rewrite find_removed.
      apply String.eqb_neq in Hother. rewrite Hother. reflexivity.
    + intros Hnone. apply removed_unknown. exact Hnone.
  - eexists _, _. split; [reflexivity|]. simpl.
    split; [intros _; split; reflexivity | intros id [=]].
Qed.


(** *** The sample inventory *)




Lemma sample_delete :
  exists w',
    delete_api_devices laptop_serial sample_world =
      (Resolved {| status_code := 204; response_body := no_body |}, w') /\
    lookup laptop_id w' = None /\ lookup server_id w' = Some server.
Proof.
  destruct (deleted_device_is_gone laptop_serial sample_world)
    as (resp & w' & Hrun & _ & Hread).
  - reflexivity.
  - destruct (Hread laptop_id eq_refl) as (-> & Hgone & Hothers & _).
    exists w'. split; [exact Hrun|]. split; [exact Hgone|].
    rewrite Hothers; [reflexivity | discriminate].
Defined.


End DevicesFacts.
(** ** Approvals and status reports *)

Module PatchesFacts.
Import Patches.

Lemma is_assignment_true deviceId patchId row :
  is_assignment deviceId patchId row = true <->
  assigned_device row = deviceId /\ assigned_patch row = patchId.
Proof.
  unfold is_assignment. rewrite andb_true_iff, String.eqb_eq, Z.eqb_eq. reflexivity.
Qed.

(** Two keys are the same key, or [is_assignment] tells them apart on every
    row. *)
Lemma same_key_dec d p d' p' :
  (d' = d /\ p' = p) \/
  (forall row, is_assignment d p row = true -> is_assignment d' p' row = false).
Proof.
  destruct (String.eqb_spec d' d) as [->|Hd].
  - destruct (Z.eqb_spec p' p) as [->|Hp]; [left; split; reflexivity|].
    right. intros row Hrow. apply is_assignment_true in Hrow as [_ Hrow].
    unfold is_assignment. apply andb_false_iff. right. apply Z.eqb_neq. congruence.
  - right. intros row Hrow. apply is_assignment_true in Hrow as [Hrow _].
    unfold is_assignment. apply andb_false_iff. left. apply String.eqb_neq. congruence.
Qed.

(** Rewriting the rows of one key with a function that keeps the key. *)
Lemma find_rewritten_same d p (f : Assignment -> Assignment) rows :
  (forall row, is_assignment d p row = true -> is_assignment d p (f row) = true) ->
  find (is_assignment d p)
    (map (fun row => if is_assignment d p row then f row else row) rows) =
    option_map f (find (is_assignment d p) rows).
Proof.
  intros Hkey. induction rows as [|row rows IH]; simpl.
  - reflexivity.
  - destruct (is_assignment d p row) eqn:Hrow.
    + rewrite (Hkey row Hrow). reflexivity.
    + rewrite Hrow. exact IH.
Qed.

Lemma find_rewritten_other d p d' p' (f : Assignment -> Assignment) rows :
  (forall row, is_assignment d p row = true -> is_assignment d p (f row) = true) ->
  (forall row, is_assignment d p row = true -> is_assignment d' p' row = false) ->
  find (is_assignment d' p')
    (map (fun row => if is_assignment d p row then f row else row) rows) =
    find (is_assignment d' p') rows.
Proof.
  intros Hkey Hother. induction rows as [|row rows IH]; simpl.
  - reflexivity.
  - destruct (is_assignment d p row) eqn:Hrow.
    + rewrite (Hother _ (Hkey row Hrow)), (Hother row Hrow). exact IH.
    + destruct (is_assignment d' p' row); [reflexivity | exact IH].
Qed.


(** The assignment of the approved key after one upsert, and the others. *)
Lemma find_approved_same d p schedule rows :
  find (is_assignment d p) (approved d p schedule rows) =
    Some (approved_from d p schedule (find (is_assignment d p) rows)).
Proof.
  unfold approved.
  destruct (existsb (is_assignment d p) rows) eqn:Hknown.
  - rewrite find_rewritten_same; [|intros row Hrow; exact Hrow].
    destruct (find (is_assignment d p) rows) as [row|] eqn:Hfind;
      [|apply find_none_existsb in Hfind; congruence].
    apply find_some in Hfind as [_ Hrow]. apply is_assignment_true in Hrow as [Hd Hp].
    simpl. unfold approved_from. rewrite Hd, Hp. reflexivity.
  - rewrite find_snoc. apply find_none_existsb in Hknown. rewrite Hknown.
    unfold is_assignment. simpl. rewrite String.eqb_refl, Z.eqb_refl. reflexivity.
Qed.

Lemma find_approved_other d p d' p' schedule rows :
  (forall row, is_assignment d p row = true -> is_assignment d' p' row = false) ->
  find (is_assignment d' p') (approved d p schedule rows) =
    find (is_assignment d' p') rows.
Proof.
  intros Hother. unfold approved.
  destruct (existsb (is_assignment d p) rows).
  - apply find_rewritten_other; [intros row Hrow; exact Hrow | exact Hother].
  - rewrite find_snoc.
    destruct (find (is_assignment d' p') rows); [reflexivity|].
    rewrite Hother; [reflexivity|].
    unfold is_assignment. simpl. rewrite String.eqb_refl, Z.eqb_refl. reflexivity.
Qed.

(** The loop of an approval when the store answers, reads every parameter
    and the patch exists. *)
Lemma for_devices_answered Date_readable deviceIds ids p schedule :
  Forall2 (fun text id => uuid_in text = Some id) deviceIds ids ->
  int4 p = true -> readable Date_readable schedule = true ->
  forall w,
    pool_faults w = [] ->
    existsb (fun patch => Z.eqb (patch_row_id patch) p) (patches w) = true ->
    for_devices Date_readable deviceIds p schedule w =
      (Resolved tt,
       with_assignments
         (fold_left (fun rows d => approved d p schedule rows) ids
            (patch_assignments w))
         (pool_faults w) w).
Proof.
  intros Hids Hp Hs. induction Hids as [|text id deviceIds ids Hid _ IH];
    intros w Hf Hknown; simpl.
  - unfold ret. destruct w; reflexivity.
  - unfold bind, upsert_assignment. rewrite Hf. simpl.
    rewrite Hid, Hp, Hs, Hknown, orb_true_r. simpl.
    rewrite IH; [|reflexivity | exact Hknown]. reflexivity.
Qed.

(** The assignments after the loop of an approval. *)
Lemma find_after_approvals p schedule deviceIds :
  forall rows,
    (forall d, In d deviceIds ->
       find (is_assignment d p)
         (fold_left (fun rows d => approved d p schedule rows) deviceIds rows) =
         Some (approved_from d p schedule (find (is_assignment d p) rows))) /\
    (forall d q, ~ (In d deviceIds /\ q = p) ->
       find (is_assignment d q)
         (fold_left (fun rows d => approved d p schedule rows) deviceIds rows) =
         find (is_assignment d q) rows).
Proof.
  induction deviceIds as [|d0 rest IH]; intros rows; simpl.
  - split; [intros d [] | reflexivity].
  - destruct (IH (approved d0 p schedule rows)) as [IHin IHout]. split.
    + intros d Hd.
      assert (Hcases : In d rest \/ (d = d0 /\ ~ In d rest)).
      { destruct (in_dec String.string_dec d rest) as [Hin|Hnot]; [left; exact Hin|].
        right. destruct Hd as [Hd|Hd]; [split; [symmetry; exact Hd | exact Hnot]
                                       | contradiction]. }
      destruct Hcases as [Hin|[-> Hnot]].
      * rewrite (IHin d Hin).
        destruct (String.eqb_spec d d0) as [->|Hne].
        { rewrite find_approved_same. reflexivity. }
        { rewrite find_approved_other; [reflexivity|].
          destruct (same_key_dec d0 p d p) as [[Heq _]|Hother];
            [contradiction | exact Hother]. }
      * rewrite IHout; [apply find_approved_same|].
        intros [Hin _]. contradiction.
    + intros d q Hout. rewrite IHout; [|intros [Hin Hq]; apply Hout; split;
                                          [right; exact Hin | exact Hq]].
      apply find_approved_other.
      destruct (same_key_dec d0 p d q) as [[Hd Hq]|Hother]; [|exact Hother].
      exfalso. apply Hout. split; [left; symmetry; exact Hd | exact Hq].
Qed.

(** X29. An approval is an upsert for every device it lists.  When the store
    answers and reads every parameter (each device id as a UUID, the patch id
    as an INTEGER, and the date made of schedule_at, if any, as a
    TIMESTAMPTZ) and the patch exists, POST /api/patches/approve answers 201,
    and afterwards each listed device, under the id as the store prints it,
    has the patch assigned with status approved and the schedule of the
    request (none when schedule_at is absent or empty); a device that had the
    patch assigned before keeps the installed_at and error_message of that
    assignment, so approving an installed patch again makes it approved once
    more; no other assignment changes. *)
Theorem approval_assigns_every_listed_device Date_readable req p deviceIds ids w :
  patch_id req = val p -> p <> 0 -> int4 p = true ->
  device_ids req = val deviceIds -> deviceIds <> [] ->
  Forall2 (fun text id => uuid_in text = Some id) deviceIds ids ->
  readable Date_readable (schedule_of req) = true ->
  pool_faults w = [] ->
  In p (map patch_row_id (patches w)) ->
  exists w',
    post_api_patches_approve Date_readable req w =
      (Resolved {| status_code := 201; response_body := message_body "patch approved" |},
       w') /\
    (forall d, In d ids ->
       assignment d p w' = Some (approved_from d p (schedule_of req) (assignment d p w))) /\
    (forall d q, ~ (In d ids /\ q = p) -> assignment d q w' = assignment d q w).
Proof.
  intros Hpatch Hp Hint Hdevices Hne Hids Hdate Hfaults Hknown.
  assert (Hex : existsb (fun patch => Z.eqb (patch_row_id patch) p) (patches w) = true).
  { apply in_map_iff in Hknown as (patch & Hid & Hin). apply existsb_exists.
    exists patch. split; [exact Hin | apply Z.eqb_eq; exact Hid]. }
  unfold post_api_patches_approve. rewrite Hpatch, Hdevices. simpl.
  assert (Hnz : negb (p =? 0) = true) by (apply negb_true_iff, Z.eqb_neq; exact Hp).
  rewrite Hnz. simpl.
  destruct deviceIds as [|d0 rest] eqn:Hlist; [contradiction|]. rewrite <- Hlist in *.
  assert (Hlen : (length deviceIds =? 0)%nat = false) by (rewrite Hlist; reflexivity).
  rewrite Hlen. unfold try_catch, bind.
  fold (schedule_of req).
  rewrite (for_devices_answered Date_readable deviceIds ids p (schedule_of req)
             Hids Hint Hdate w Hfaults Hex).
  eexists. split; [reflexivity|].
  destruct (find_after_approvals p (schedule_of req) ids (patch_assignments w))
    as [Hin Hout].
  split; [exact Hin | exact Hout].
Qed.


(** *** The sample store *)

(** Approving the installed security update again for the laptop and for the
    server, with their ids in capitals and in braces: the laptop is back to
    approved with its installation date and the new schedule, the server is
    newly approved. *)
Lemma sample_reapproval :
  exists w',
    post_api_patches_approve sample_dates sample_approval sample_world =
      (Resolved {| status_code := 201; response_body := message_body "patch approved" |},
       w') /\
    option_map (fun row => (status row, schedule_at row, installed_at row))
      (assignment laptop_id 1 w') =
      Some ("approved", Some (date_of "2025-11-02T03:00:00Z"), Some (clock_reading 7)) /\
    option_map (fun row => (status row, schedule_at row, installed_at row))
      (assignment server_id 1 w') =
      Some ("approved", Some (date_of "2025-11-02T03:00:00Z"), None).
Proof.
  destruct (approval_assigns_every_listed_device sample_dates sample_approval 1
              [laptop_capitals; server_braces] [laptop_id; server_id] sample_world)
    as (w' & Hrun & Hin & _).
  - reflexivity.
  - discriminate.
  - reflexivity.
  - reflexivity.
  - discriminate.
  - repeat constructor.
  - reflexivity.
  - reflexivity.
  - left. reflexivity.
  - exists w'. split; [exact Hrun|]. split.
    + rewrite (Hin laptop_id); [reflexivity | left; reflexivity].
    + rewrite (Hin server_id); [reflexivity | right; left; reflexivity].
Defined.


End PatchesFacts.
